(** * WhatsThePlan: the event pipeline, embedded and verified

    A shallow embedding of the pipeline code of the repository:

    - [src/worker/main.py]: [ensure_group], [calculate_hotness],
      [handle_poison_pill], [process_message];
    - [src/app/main.py]: [ingest_data] and [get_scores];
    - [src/bar_agent.py]: the signing half of [send_payload].

    Python's [float] is IEEE-754 binary64; its arithmetic is taken from the
    standard library's reference semantics [SpecFloat] at precision 53 and
    maximal exponent 1024.  Redis and the relational store are explicit
    state; an exception is a result value. *)

From Stdlib Require Import ZArith List String Ascii Bool Lia.
From Stdlib Require Import Floats.SpecFloat.
From Stdlib Require Import QArith Qpower Qabs Lqa.
From Stdlib Require Import DecimalString DecimalZ.
From stdpp Require Import base option list gmap strings.

Local Open Scope Z_scope.

(* ===================================================================== *)
(** * Exceptions as values *)
(* ===================================================================== *)

(** A Python exception, kept as a text that names it; [str(e)] is taken
    to be that text. *)
Definition exn : Type := string.

Inductive result (A : Type) : Type :=
| Ok (a : A)
| Raise (e : exn).
Arguments Ok {A} a.
Arguments Raise {A} e.

Definition rbind {A B} (r : result A) (k : A -> result B) : result B :=
  match r with
  | Ok a => k a
  | Raise e => Raise e
  end.

Notation "'let*' x ':=' r 'in' k" := (rbind r (fun x => k))
  (at level 10, x name, r at level 100, k at level 200).

Definition is_ok {A} (r : result A) : bool :=
  match r with Ok _ => true | Raise _ => false end.

(* ===================================================================== *)
(** * Python numbers *)
(* ===================================================================== *)

Module Py.

(** ** binary64 *)

Definition prec : Z := 53.
Definition emax : Z := 1024.

Abbreviation float := spec_float.

Definition finite_or_overflow (f : float) : result float :=
  match f with
  | S754_infinity _ | S754_nan => Raise "OverflowError"%string
  | _ => Ok f
  end.

(** [float(n)] for an [int] [n]: the nearest double, ties to even
    ([OverflowError] past the largest double). *)
Definition float_of_int (n : Z) : result float :=
  finite_or_overflow (binary_normalize prec emax n 0 false).

(** An [int] as an exact (unrounded) dyadic number, the operand of a
    correctly rounded operation. *)
Definition exact_of_int (n : Z) : float :=
  match n with
  | Z0 => S754_zero false
  | Zpos p => S754_finite false p 0
  | Zneg p => S754_finite true p 0
  end.

Definition is_zero (f : float) : bool :=
  match f with S754_zero _ => true | _ => false end.

(** [a / b] on two [int]s: CPython rounds the exact quotient once
    ([ZeroDivisionError] when [b] is zero, [OverflowError] when the
    quotient is past the largest double). *)
Definition int_truediv (a b : Z) : result float :=
  if b =? 0 then Raise "ZeroDivisionError"%string
  else finite_or_overflow
         (SFdiv prec emax (exact_of_int a) (exact_of_int b)).

(** [x / y] on two [float]s ([ZeroDivisionError] when [y] is zero). *)
Definition float_truediv (x y : float) : result float :=
  if is_zero y then Raise "ZeroDivisionError"%string
  else Ok (SFdiv prec emax x y).

Definition float_mul (x y : float) : float := SFmul prec emax x y.

(** [n / y], [n * y] and [x * n] with an [int] [n]: the [int] is
    converted first. *)
Definition int_truediv_float (n : Z) (y : float) : result float :=
  let* x := float_of_int n in float_truediv x y.

Definition int_mul_float (n : Z) (y : float) : result float :=
  let* x := float_of_int n in Ok (float_mul x y).

Definition float_mul_int (x : float) (n : Z) : result float :=
  let* y := float_of_int n in Ok (float_mul x y).

(** [x > 0] on a [float]. *)
Definition float_gt0 (x : float) : bool :=
  SFltb (S754_zero false) x.

(** [int(x)]: truncation toward zero ([OverflowError] on an infinity,
    [ValueError] on a NaN). *)
Definition int_of_float (x : float) : result Z :=
  match x with
  | S754_zero _ => Ok 0
  | S754_finite s m e =>
      let a := if 0 <=? e then Z.shiftl (Zpos m) e
               else Z.shiftr (Zpos m) (- e) in
      Ok (if s then - a else a)
  | S754_infinity _ => Raise "OverflowError"%string
  | S754_nan => Raise "ValueError"%string
  end.

(** The literal [0.5]. *)
Definition half : float := S754_finite false 4503599627370496 (-53).

End Py.

(* ===================================================================== *)
(** * Doubles as rationals, fractions between two integers *)
(* ===================================================================== *)

Module Dyadic.

(** The unit roundoff [2^-53]. *)
Definition u : Q := (1 # 9007199254740992)%Q.

(** The rational a finite double stands for. *)
Definition F2Q (f : spec_float) : Q :=
  match f with
  | S754_finite s m e =>
      ((if s then -1 else 1) * inject_Z (Z.pos m) * 2 ^ e)%Q
  | _ => 0%Q
  end.

(** [num/den] lies in [[m, m+1)], at the place [l] says: on [m], below,
    on or above the middle. *)
Definition located (m : Z) (l : location) (num den : Z) : Prop :=
  match l with
  | loc_Exact => num = m * den
  | loc_Inexact Lt => m * den < num /\ 2 * num < (2 * m + 1) * den
  | loc_Inexact Eq => 2 * num = (2 * m + 1) * den
  | loc_Inexact Gt => (2 * m + 1) * den < 2 * num /\ num < (m + 1) * den
  end.

Definition located_rec (mrs : shr_record) (num den : Z) : Prop :=
  located (shr_m mrs) (loc_of_shr_record mrs) num den.

End Dyadic.

(* ===================================================================== *)
(** * The relational store ([src/app/models.py]) *)
(* ===================================================================== *)

Module DB.

(** [models.Venue]; the columns the pipeline reads. *)
Record Venue : Type := mkVenue {
  v_id : string;
  v_name : string;
  v_capacity : Z;
  v_secret_key_hash : string
}.

(** [models.Transaction]; timestamps are microseconds. *)
Record Transaction : Type := mkTransaction {
  t_venue_id : string;
  t_timestamp : Z;
  t_quantity : Z
}.

(** The committed tables. *)
Record t : Type := mk {
  venues : list Venue;
  transactions : list Transaction
}.

(** [timedelta(minutes=30)] and [INTERVAL '30 MINUTES']. *)
Definition thirty_minutes : Z := 30 * 60 * 1000000.

(** [db.query(models.Venue).filter(models.Venue.id == venue_id).first()] *)
Definition venue_by_id (db : t) (venue_id : string) : option Venue :=
  find (fun v => String.eqb (v_id v) venue_id) (venues db).

(** [SUM(quantity)] over the rows a predicate keeps; [NULL] (here [None])
    when it keeps none. *)
Definition sum_quantity (p : Transaction -> bool) (db : t) : option Z :=
  match filter (fun x => p x = true) (transactions db) with
  | [] => None
  | rows => Some (fold_right Z.add 0 (map t_quantity rows))
  end.

(** [SELECT MAX(timestamp) FROM transactions] *)
Definition max_timestamp (db : t) : option Z :=
  match map t_timestamp (transactions db) with
  | [] => None
  | x :: xs => Some (fold_right Z.max x xs)
  end.

(** [x or 0] on the result of an aggregate. *)
Definition or_zero (x : option Z) : Z :=
  match x with
  | Some v => v
  | None => 0
  end.

End DB.

(* ===================================================================== *)
(** * The score query boundary ([get_scores], [src/app/main.py]) *)
(* ===================================================================== *)

Module Scores.

(** The statements [get_scores] sends to the store, in order. *)
Inductive query : Type :=
| QVenuesAll
| QVirtualNow
| QWindowSum (vid : string) (virtual_now : Z).

(** The window of the per-venue statement:
    [timestamp >= :virtual_now - INTERVAL '30 MINUTES' AND
     timestamp <= :virtual_now]. *)
Definition in_window (vid : string) (virtual_now : Z)
    (x : DB.Transaction) : bool :=
  String.eqb (DB.t_venue_id x) vid
  && (virtual_now - DB.thirty_minutes <=? DB.t_timestamp x)
  && (DB.t_timestamp x <=? virtual_now).

(** [COALESCE(SUM(quantity), 0)], then [result.val or 0]. *)
Definition window_volume (db : DB.t) (vid : string) (virtual_now : Z) : Z :=
  DB.or_zero (DB.sum_quantity (in_window vid virtual_now) db).

(** Lines 373-375: from [threshold = v.capacity * 0.5] to the clamp. *)
Definition scaled_score (capacity volume : Z) : result Z :=
  let* threshold := Py.int_mul_float capacity Py.half in
  let* score :=
    if Py.float_gt0 threshold then
      let* q := Py.int_truediv_float volume threshold in
      let* p := Py.float_mul_int q 100 in
      Py.int_of_float p
    else Ok 0 in
  Ok (Z.min 100 (Z.max 0 score)).

(** One turn of the loop over the venues: the statements sent and the
    value stored under [str(v.id)]. *)
Definition venue_entry (db : DB.t) (virtual_now : Z) (v : DB.Venue)
    : list query * result Z :=
  if DB.v_capacity v <=? 0 then ([], Ok 0)
  else
    ([QWindowSum (DB.v_id v) virtual_now],
     scaled_score (DB.v_capacity v)
                  (window_volume db (DB.v_id v) virtual_now)).

(** The loop [for v in venues]; an exception ends it. *)
Fixpoint score_loop (db : DB.t) (virtual_now : Z) (vs : list DB.Venue)
    (scores : gmap string Z) : list query * result (gmap string Z) :=
  match vs with
  | [] => ([], Ok scores)
  | v :: rest =>
      match venue_entry db virtual_now v with
      | (qs, Ok s) =>
          let '(qs', r) :=
            score_loop db virtual_now rest (<[DB.v_id v := s]> scores) in
          (qs ++ qs', r)
      | (qs, Raise e) => (qs, Raise e)
      end
  end.

(** [{str(v.id): 0 for v in venues}] *)
Definition all_zero (vs : list DB.Venue) : gmap string Z :=
  fold_left (fun m v => <[DB.v_id v := 0]> m) vs ∅.

Definition get_scores (db : DB.t) : list query * result (gmap string Z) :=
  let venues := DB.venues db in
  match DB.max_timestamp db with
  | None => ([QVenuesAll; QVirtualNow], Ok (all_zero venues))
  | Some virtual_now =>
      let '(qs, r) := score_loop db virtual_now venues ∅ in
      (QVenuesAll :: QVirtualNow :: qs, r)
  end.

End Scores.

(* ===================================================================== *)
(** * The score calculator of the worker ([calculate_hotness]) *)
(* ===================================================================== *)

Module Hotness.

(** [timestamp >= thirty_mins_ago] for the venue. *)
Definition recent (venue_id : string) (thirty_mins_ago : Z)
    (x : DB.Transaction) : bool :=
  String.eqb (DB.t_venue_id x) venue_id
  && (thirty_mins_ago <=? DB.t_timestamp x).

(** Lines 62-66, on the venue's capacity and the summed quantity. *)
Definition hotness (capacity total_txns : Z) : result Z :=
  if capacity =? 0 then Ok 0
  else
    let* q := Py.int_truediv total_txns capacity in
    let* p := Py.float_mul_int q 100 in
    let* score := Py.int_of_float p in
    Ok (Z.min score 100).

(** [utcnow] is the wall clock at the call. *)
Definition calculate_hotness (db : DB.t) (utcnow : Z) (venue_id : string)
    : result Z :=
  match DB.venue_by_id db venue_id with
  | None => Ok 0
  | Some venue =>
      let thirty_mins_ago := utcnow - DB.thirty_minutes in
      let total_txns :=
        DB.or_zero (DB.sum_quantity (recent venue_id thirty_mins_ago) db) in
      hotness (DB.v_capacity venue) total_txns
  end.

End Hotness.

(* ===================================================================== *)
(** * The scoring rule as the specification words it *)
(* ===================================================================== *)

Module Spec.

(** [round] of the exact fraction [num / den], [den] positive: to the
    nearest integer, a tie to the even one. *)
Definition round (num den : Z) : Z :=
  let q := num / den in
  let r := num mod den in
  if 2 * r <? den then q
  else if den <? 2 * r then q + 1
  else if Z.even q then q else q + 1.

Definition clamp (lo hi x : Z) : Z := Z.max lo (Z.min hi x).

(** [clamp(0, 100, round(100 * sum / (capacity * scaling_factor)))] with
    the factor one half: [100 * sum / (capacity * 0.5)] is the fraction
    [200 * sum / capacity]. *)
Definition score (capacity sum : Z) : Z :=
  clamp 0 100 (round (200 * sum) capacity).

End Spec.

(* ===================================================================== *)
(** * JSON documents *)
(* ===================================================================== *)

(** A JSON text is kept as the document it spells.  The pipeline only
    writes flat objects; [json.dumps] of a [dict] lists its keys in
    insertion order. *)
Inductive jvalue : Type :=
| JNull
| JStr (s : string)
| JInt (n : Z).

Definition json : Type := list (string * jvalue).

Definition json_keys (j : json) : list string := map fst j.

Fixpoint json_get (k : string) (j : json) : option jvalue :=
  match j with
  | [] => None
  | (k', v) :: rest => if String.eqb k k' then Some v else json_get k rest
  end.

(* ===================================================================== *)
(** * Redis *)
(* ===================================================================== *)

Module Redis.

(** A consumer group: its cursor and its pending entries list. *)
Record group : Type := mkGroup {
  last_delivered_id : string;
  pel : gset string
}.

(** A field value as the client passes it to [XADD]. *)
Inductive field : Type :=
| FStr (s : string)
| FInt (n : Z).

Record stream : Type := mkStream {
  entries : list (string * list (string * field));
  groups : gmap string group
}.

(** The keyspace by type of value, the log of [PUBLISH], and the ids
    that an [XACK] took out of a pending entries list, latest last. *)
Record t : Type := mk {
  ints : gmap string Z;
  lists : gmap string (list json);
  streams : gmap string stream;
  published : list (string * json);
  acked : list string
}.

Definition with_ints (f : gmap string Z -> gmap string Z) (r : t) : t :=
  mk (f (ints r)) (lists r) (streams r) (published r) (acked r).

Definition with_streams (f : gmap string stream -> gmap string stream)
    (r : t) : t :=
  mk (ints r) (lists r) (f (streams r)) (published r) (acked r).

(** [INCR key]: a missing key counts from zero. *)
Definition incr (key : string) (r : t) : t * Z :=
  let n := default 0 (ints r !! key) + 1 in
  (with_ints (insert key n) r, n).

(** [SET key value] *)
Definition set (key : string) (value : Z) (r : t) : t :=
  mk (<[key := value]> (ints r)) (base.delete key (lists r))
     (base.delete key (streams r)) (published r) (acked r).

(** [DEL key] *)
Definition delete (key : string) (r : t) : t :=
  mk (base.delete key (ints r)) (base.delete key (lists r))
     (base.delete key (streams r)) (published r) (acked r).

(** [LPUSH key value]: the new element becomes the head. *)
Definition lpush (key : string) (value : json) (r : t) : t :=
  mk (ints r) (<[key := value :: default [] (lists r !! key)]> (lists r))
     (streams r) (published r) (acked r).

(** [PUBLISH channel message] *)
Definition publish (channel : string) (message : json) (r : t) : t :=
  mk (ints r) (lists r) (streams r) (published r ++ [(channel, message)])
     (acked r).

(** [XACK key group id]: the id leaves the pending entries list; nothing
    happens when the stream or the group is missing or the id is not
    pending. *)
Definition xack (key grp id : string) (r : t) : t :=
  match streams r !! key with
  | None => r
  | Some s =>
      match groups s !! grp with
      | None => r
      | Some g =>
          if bool_decide (id ∈ pel g) then
            let g' := mkGroup (last_delivered_id g) (pel g ∖ {[id]}) in
            mk (ints r) (lists r)
               (<[key := mkStream (entries s) (<[grp := g']> (groups s))]>
                  (streams r))
               (published r) (acked r ++ [id])
          else r
      end
  end.

(** [XGROUP CREATE key group id MKSTREAM] *)
Definition xgroup_create (key grp id : string) (mkstream : bool) (r : t)
    : t * result unit :=
  match streams r !! key with
  | None =>
      if mkstream then
        (with_streams
           (insert key (mkStream [] {[grp := mkGroup id ∅]})) r, Ok tt)
      else
        (r, Raise "ERR The XGROUP subcommand requires the key to exist")
  | Some s =>
      match groups s !! grp with
      | Some _ => (r, Raise "BUSYGROUP Consumer Group name already exists")
      | None =>
          (with_streams
             (insert key
                (mkStream (entries s) (<[grp := mkGroup id ∅]> (groups s))))
             r, Ok tt)
      end
  end.

(** [XADD key * fields], the server having chosen [id]. *)
Definition xadd (key id : string) (fields : list (string * field)) (r : t)
    : t :=
  let s := default (mkStream [] ∅) (streams r !! key) in
  with_streams
    (insert key (mkStream (entries s ++ [(id, fields)]) (groups s))) r.

Definition group_of (key grp : string) (r : t) : option group :=
  match streams r !! key with
  | None => None
  | Some s => groups s !! grp
  end.

(** The pending entries of a group. *)
Definition pending (key grp : string) (r : t) : gset string :=
  match streams r !! key with
  | None => ∅
  | Some s =>
      match groups s !! grp with
      | None => ∅
      | Some g => pel g
      end
  end.

(** An entry that has been delivered can be delivered again only from
    the pending entries list (a read of the consumer's own history,
    [XCLAIM], [XAUTOCLAIM]); a read with [>] never returns it. *)
Definition redeliverable (key grp id : string) (r : t) : bool :=
  bool_decide (id ∈ pending key grp r).

Definition stream_entries (key : string) (r : t)
    : list (string * list (string * field)) :=
  match streams r !! key with
  | None => []
  | Some s => entries s
  end.

End Redis.

(* ===================================================================== *)
(** * The worker ([src/worker/main.py]) *)
(* ===================================================================== *)

Module Worker.

Local Open Scope string_scope.

Definition STREAM_KEY : string := "stream:incoming_txns".
Definition GROUP_NAME : string := "workers_group".
Definition DLQ_KEY : string := "stream:dlq".
Definition MAX_RETRIES : Z := 3.

(** [needle in hay] on two [str]. *)
Fixpoint contains (needle hay : string) : bool :=
  String.prefix needle hay
  || match hay with
     | EmptyString => false
     | String _ rest => contains needle rest
     end.

(** ** [ensure_group] *)

Definition ensure_group (r : Redis.t) : Redis.t * result unit :=
  match Redis.xgroup_create STREAM_KEY GROUP_NAME "0" true r with
  | (r', Ok _) => (r', Ok tt)
  | (r', Raise e) =>
      if contains "BUSYGROUP" e then (r', Ok tt) else (r', Raise e)
  end.

(** ** What redis-py hands over

    An entry id, a field name or a field value is [bytes] (the client of
    the worker is built without [decode_responses]) or [str]; the code
    reads both.  Both are kept as their bytes, a [str] as its UTF-8
    encoding. *)
Inductive text : Type :=
| Bytes (b : string)
| Str (s : string).

Definition text_eqb (a b : text) : bool :=
  match a, b with
  | Bytes x, Bytes y => String.eqb x y
  | Str x, Str y => String.eqb x y
  | _, _ => false
  end.

(** The bytes sent for an id given back to Redis. *)
Definition wire (id : text) : string :=
  match id with
  | Bytes b => b
  | Str s => s
  end.

(** A stream entry's fields, as the [dict] the loop receives. *)
Definition message : Type := list (text * text).

(** [data.get(key)]: [None] when the key is missing. *)
Fixpoint dict_get (key : text) (data : message) : option text :=
  match data with
  | [] => None
  | (k, v) :: rest => if text_eqb k key then Some v else dict_get key rest
  end.

(** Truth value of what [data.get] returns. *)
Definition truthy (v : option text) : bool :=
  match v with
  | None => false
  | Some (Bytes b) | Some (Str b) => negb (String.eqb b "")
  end.

(** [a or b] *)
Definition py_or (a b : option text) : option text :=
  if truthy a then a else b.

(** ** The state a call of [process_message] works on *)

(** A [models.Transaction] object before it is flushed. *)
Record new_txn : Type := mkNew {
  n_venue_id : option string;
  n_timestamp : Z;
  n_quantity : Z
}.

(** The store, the objects added to the session and not yet committed,
    and Redis. *)
Record state : Type := mkState {
  store : DB.t;
  session_new : list new_txn;
  redis : Redis.t
}.

Record world : Type := mkWorld {
  db : DB.t;
  rds : Redis.t
}.

Definition prog (A : Type) : Type := state -> state * result A.

Definition ret {A} (a : A) : prog A := fun st => (st, Ok a).
Definition raise {A} (e : exn) : prog A := fun st => (st, Raise e).
Definition bind {A B} (m : prog A) (k : A -> prog B) : prog B :=
  fun st =>
    match m st with
    | (st', Ok a) => k a st'
    | (st', Raise e) => (st', Raise e)
    end.
Definition lift {A} (r : result A) : prog A := fun st => (st, r).
Definition on_redis (f : Redis.t -> Redis.t) : prog unit :=
  fun st => (mkState (store st) (session_new st) (f (redis st)), Ok tt).

Notation "x <- m ;; k" := (bind m (fun x => k))
  (at level 100, m at next level, right associativity).
Notation "m ;; k" := (bind m (fun _ => k))
  (at level 100, right associativity).

(** The calls of [process_message] that leave the process, and what the
    environment makes of each: [None] lets the call through, [Some e]
    makes it raise [e] without effect.  First the calls of the [try]
    block, in the order it makes them; then those of the [except] block:
    [db.rollback()], [INCR], the [LPUSH] and the [XACK] of
    [handle_poison_pill], and the [DEL] that follows it. *)
Inductive call : Type :=
| Commit | Query | SetScore | Publish | Xack | Delete
| Rollback | Incr | Lpush | XackPoison | DeleteRetry.

Definition faults : Type := call -> option exn.

Definition no_faults : faults := fun _ => None.

Section Runtime.

(** Library functions of Python taken as given:
    [bytes.decode('utf-8')], [int] on a [bytes] or a [str],
    [datetime.fromisoformat] (to microseconds), the text an f-string
    puts for a [bytes] object, and [str] of a [dict]. *)
Variable utf8_decode : string -> option string.
Variable parse_int : text -> option Z.
Variable fromisoformat : string -> option Z.
Variable repr_bytes : string -> string.
Variable str_message : message -> string.

(** What the environment does to the calls of [process_message], and
    the wall clock. *)
Variable fl : faults.
Variable utcnow : Z.

Definition external {A} (c : call) (m : prog A) : prog A :=
  fun st =>
    match fl c with
    | Some e => (st, Raise e)
    | None => m st
    end.

(** [if isinstance(v, bytes): v = v.decode('utf-8')] *)
Definition decode_if_bytes (v : option text) : result (option string) :=
  match v with
  | Some (Bytes b) =>
      match utf8_decode b with
      | Some s => Ok (Some s)
      | None => Raise "UnicodeDecodeError"
      end
  | Some (Str s) => Ok (Some s)
  | None => Ok None
  end.

(** [int(qty)] *)
Definition py_int (v : option text) : result Z :=
  match v with
  | None => Raise "TypeError: int() argument must be a string, a bytes-like object or a real number, not 'NoneType'"
  | Some t =>
      match parse_int t with
      | Some n => Ok n
      | None => Raise "ValueError: invalid literal for int()"
      end
  end.

(** [datetime.datetime.fromisoformat(timestamp_str)] *)
Definition py_fromisoformat (v : option string) : result Z :=
  match v with
  | None => Raise "TypeError: fromisoformat: argument must be str"
  | Some s =>
      match fromisoformat s with
      | Some ts => Ok ts
      | None => Raise "ValueError: Invalid isoformat string"
      end
  end.

(** [f"{x}"] *)
Definition fmt_text (x : text) : string :=
  match x with
  | Str s => s
  | Bytes b => repr_bytes b
  end.

Definition fmt_opt (x : option string) : string :=
  match x with
  | Some s => s
  | None => "None"
  end.

Definition retry_key (id : text) : string := "retry:" ++ fmt_text id.

Definition score_key (venue_id : option string) : string :=
  "venue:" ++ fmt_opt venue_id ++ ":score".

(** ** The session *)

(** [db.add(new_txn)] *)
Definition db_add (x : new_txn) : prog unit :=
  fun st => (mkState (store st) (session_new st ++ [x]) (redis st), Ok tt).

(** The row of an object, if the table's constraints accept it:
    [venue_id] is not null and references a venue. *)
Definition row_of (d : DB.t) (x : new_txn) : option DB.Transaction :=
  match n_venue_id x with
  | None => None
  | Some v =>
      match DB.venue_by_id d v with
      | None => None
      | Some _ => Some (DB.mkTransaction v (n_timestamp x) (n_quantity x))
      end
  end.

Fixpoint rows_of (d : DB.t) (xs : list new_txn)
    : option (list DB.Transaction) :=
  match xs with
  | [] => Some []
  | x :: rest =>
      match row_of d x, rows_of d rest with
      | Some r, Some rs => Some (r :: rs)
      | _, _ => None
      end
  end.

(** [db.commit()]: all the added objects or none. *)
Definition db_commit : prog unit :=
  external Commit (fun st =>
    match rows_of (store st) (session_new st) with
    | None => (st, Raise "IntegrityError")
    | Some rows =>
        (mkState
           (DB.mk (DB.venues (store st))
                  (DB.transactions (store st) ++ rows))
           [] (redis st), Ok tt)
    end).

(** [db.rollback()]: what was added and not committed is dropped. *)
Definition db_rollback : prog unit :=
  external Rollback (fun st => (mkState (store st) [] (redis st), Ok tt)).

(** ** [calculate_hotness], on the session *)

Definition calculate_hotness (venue_id : option string) : prog Z :=
  external Query (fun st =>
    match venue_id with
    | None => (st, Ok 0)
    | Some v => (st, Hotness.calculate_hotness (store st) utcnow v)
    end).

(** ** [handle_poison_pill] *)

(** [json.dumps({"id": id, "message": str(message), "error": str(error)})]:
    a [bytes] object is not serializable. *)
Definition dead_letter (id : text) (msg : message) (error : exn)
    : result json :=
  match id with
  | Str s =>
      Ok [("id", JStr s); ("message", JStr (str_message msg));
          ("error", JStr error)]
  | Bytes _ =>
      Raise "TypeError: Object of type bytes is not JSON serializable"
  end.

Definition handle_poison_pill (id : text) (msg : message) (error : exn)
    : prog unit :=
  record <- lift (dead_letter id msg error) ;;
  external Lpush (on_redis (Redis.lpush DLQ_KEY record)) ;;
  external XackPoison (on_redis (Redis.xack STREAM_KEY GROUP_NAME (wire id))).

(** ** [process_message] *)

(** Lines 78-94: from [data = message] to the [models.Transaction]
    object. *)
Definition new_txn_of (msg : message) : result new_txn :=
  let data := msg in
  let venue_id :=
    py_or (dict_get (Bytes "venue_id") data) (dict_get (Str "venue_id") data) in
  let timestamp_str :=
    py_or (dict_get (Bytes "timestamp") data) (dict_get (Str "timestamp") data) in
  let qty :=
    py_or (dict_get (Bytes "transaction_count") data)
          (dict_get (Str "transaction_count") data) in
  let* venue_id := decode_if_bytes venue_id in
  let* timestamp_str := decode_if_bytes timestamp_str in
  let* qty := py_int qty in
  let* ts := py_fromisoformat timestamp_str in
  Ok (mkNew venue_id ts qty).

(** The [try] block up to the acknowledgment (lines 78-111). *)
Definition try_to_ack (id : text) (msg : message) : prog unit :=
  new_txn <- lift (new_txn_of msg) ;;
  let venue_id := n_venue_id new_txn in
  db_add new_txn ;;
  db_commit ;;
  score <- calculate_hotness venue_id ;;
  external SetScore (on_redis (Redis.set (score_key venue_id) score)) ;;
  external Publish
    (on_redis (Redis.publish "updates:venue_scores"
                 [("venue_id", match venue_id with
                               | Some v => JStr v
                               | None => JNull
                               end);
                  ("score", JInt score)])) ;;
  external Xack (on_redis (Redis.xack STREAM_KEY GROUP_NAME (wire id))).

(** The [try] block: after the acknowledgment, the retry counter is
    cleared (line 114). *)
Definition try_block (id : text) (msg : message) : prog unit :=
  try_to_ack id msg ;;
  external Delete (on_redis (Redis.delete (retry_key id))).

(** [retries = redis_client.incr(retry_key)] *)
Definition redis_incr (key : string) : prog Z :=
  external Incr (fun st =>
    let '(r, n) := Redis.incr key (redis st) in
    (mkState (store st) (session_new st) r, Ok n)).

(** The [except Exception as e] block.  What one of its own calls
    raises leaves [process_message]. *)
Definition except_block (id : text) (msg : message) (e : exn)
    : prog unit :=
  db_rollback ;;
  retries <- redis_incr (retry_key id) ;;
  if (retries >? MAX_RETRIES)%Z then
    (handle_poison_pill id msg e ;;
     external DeleteRetry (on_redis (Redis.delete (retry_key id))))
  else ret tt.

(** [db = SessionLocal()], [try], [except], and [finally: db.close()]. *)
Definition process_message (id : text) (msg : message) (w : world)
    : world * result unit :=
  let st0 := mkState (db w) [] (rds w) in
  let '(st1, r) :=
    match try_block id msg st0 with
    | (st, Ok _) => (st, Ok tt)
    | (st, Raise e) => except_block id msg e st
    end in
  (mkWorld (store st1) (redis st1), r).

End Runtime.

End Worker.

(* ===================================================================== *)
(** * The signer and the ingestion boundary *)
(* ===================================================================== *)

(** [bytes.hex()], lowercase. *)
Module Hex.

Local Open Scope string_scope.

Definition digit (n : N) : ascii :=
  match n with
  | 0%N => "0" | 1%N => "1" | 2%N => "2" | 3%N => "3"
  | 4%N => "4" | 5%N => "5" | 6%N => "6" | 7%N => "7"
  | 8%N => "8" | 9%N => "9" | 10%N => "a" | 11%N => "b"
  | 12%N => "c" | 13%N => "d" | 14%N => "e" | _ => "f"
  end%char.

Fixpoint hex (bytes : string) : string :=
  match bytes with
  | EmptyString => EmptyString
  | String c rest =>
      let n := N_of_ascii c in
      String (digit (N.div n 16)) (String (digit (N.modulo n 16)) (hex rest))
  end.

(** The value of a hexadecimal digit. *)
Definition undigit (c : ascii) : N :=
  let n := N_of_ascii c in
  if (n <? 58)%N then (n - 48)%N else (n - 87)%N.

End Hex.

Module Ingest.

Local Open Scope string_scope.

(** [schemas.IngestionPayload]; [venue_id] in the canonical text of the
    UUID. *)
Record IngestionPayload : Type := mkPayload {
  venue_id : string;
  timestamp : Z;
  transaction_count : Z
}.

Inductive response : Type :=
| Queued
| HTTPException (status_code : Z) (detail : string).

Section Runtime.

(** Library functions taken as given: [json.loads] followed by the
    pydantic model, the raw HMAC-SHA256 of a message under a key,
    [datetime.isoformat] and [bytes.decode('utf-8')].  A [str] is kept
    as its UTF-8 encoding, so [str.encode('utf-8')] changes nothing. *)
Variable parse_payload : string -> option IngestionPayload.
Variable hmac_sha256 : string -> string -> string.
Variable isoformat : Z -> string.
Variable utf8_decode : string -> option string.

(** [hmac.new(key, msg, hashlib.sha256).hexdigest()] *)
Definition hexdigest (key msg : string) : string :=
  Hex.hex (hmac_sha256 key msg).

(** The signing lines of [send_payload] ([src/bar_agent.py]). *)
Definition sign (secret_key body : string) : string :=
  hexdigest secret_key body.

(** [str.isascii]: no byte of the UTF-8 encoding is above 127. *)
Definition isascii (s : string) : bool :=
  forallb (fun c => (N_of_ascii c <? 128)%N) (list_ascii_of_string s).

(** [hmac.compare_digest] on two [str]: it compares ASCII texts only. *)
Definition compare_digest (a b : string) : result bool :=
  if isascii a && isascii b then Ok (String.eqb a b)
  else Raise "TypeError: comparing strings with non-ASCII characters is not supported".

(** The check of lines 201-206 alone. *)
Definition verify (x_signature body_bytes secret_key : string)
    : result bool :=
  let expected_signature := hexdigest secret_key body_bytes in
  compare_digest expected_signature x_signature.

(** The fields handed to [XADD]. *)
Definition stream_data (payload : IngestionPayload) (raw_payload : string)
    : list (string * Redis.field) :=
  [("venue_id", Redis.FStr (venue_id payload));
   ("timestamp", Redis.FStr (isoformat (timestamp payload)));
   ("transaction_count", Redis.FInt (transaction_count payload));
   ("raw_payload", Redis.FStr raw_payload)].

(** [ingest_data]: [x_signature] is the header if present, [queue] is
    what the stream store answers to [XADD] (the id it chose, or a
    [RedisError]).  An exception that is not an [HTTPException] leaves
    the handler, and the framework answers 500. *)
Definition ingest_data (x_signature : option string)
    (body_bytes : string) (db : DB.t) (queue : result string)
    (r : Redis.t) : Redis.t * response :=
  match x_signature with
  | None => (r, HTTPException 401 "Missing X-Signature header")
  | Some x_signature =>
  if String.eqb x_signature "" then
    (r, HTTPException 401 "Missing X-Signature header")
  else
  match parse_payload body_bytes with
  | None => (r, HTTPException 400 "Invalid JSON or Schema")
  | Some payload =>
  match DB.venue_by_id db (venue_id payload) with
  | None => (r, HTTPException 404 "Venue not found")
  | Some venue =>
  let secret_key := DB.v_secret_key_hash venue in
  match verify x_signature body_bytes secret_key with
  | Raise _ => (r, HTTPException 500 "Internal Server Error")
  | Ok false => (r, HTTPException 403 "Invalid Signature")
  | Ok true =>
  match utf8_decode body_bytes with
  | None => (r, HTTPException 500 "Internal Server Error")
  | Some raw_payload =>
  match queue with
  | Raise _ => (r, HTTPException 500 "Internal Server Error (Queue)")
  | Ok id =>
      (Redis.xadd "stream:incoming_txns" id
         (stream_data payload raw_payload) r, Queued)
  end end end end end end.

End Runtime.

End Ingest.

(* ===================================================================== *)
(** * Concrete data *)
(* ===================================================================== *)

(** A store, a stream and entries to run the definitions on, and instances
    of the library functions that agree with Python on the texts used
    here (printable ASCII without quotes or backslashes). *)
Module Sample.

Local Open Scope string_scope.

(** The venues [init_db] seeds. *)
Definition seeded_venues : list DB.Venue :=
  [DB.mkVenue "00000000-0000-0000-0000-000000000001" "Joe Kool's" 150 "secret_joe";
   DB.mkVenue "00000000-0000-0000-0000-000000000002" "Barney's" 200 "secret_barney";
   DB.mkVenue "00000000-0000-0000-0000-000000000003" "Molly Bloom's" 120 "secret_molly";
   DB.mkVenue "00000000-0000-0000-0000-000000000004" "The Ceeps" 300 "secret_ceeps";
   DB.mkVenue "00000000-0000-0000-0000-000000000005" "Toboggan Brewing Co." 180
     "secret_toboggan"].

Definition utf8_decode (b : string) : option string := Some b.

Fixpoint digits (s : string) (acc : Z) : option Z :=
  match s with
  | EmptyString => Some acc
  | String c rest =>
      let n := Z.of_N (N_of_ascii c) in
      if ((48 <=? n) && (n <=? 57))%Z then digits rest (10 * acc + (n - 48))%Z
      else None
  end.

Definition parse_int (t : Worker.text) : option Z :=
  match Worker.wire t with
  | EmptyString => None
  | s => digits s 0
  end.

(** 21:00 UTC on the fifth of January 2024, in microseconds. *)
Definition nine_pm : Z := 1704488400000000.

Definition fromisoformat (s : string) : option Z :=
  if String.eqb s "2024-01-05T21:00:00" then Some nine_pm else None.

Definition repr_bytes (b : string) : string := "b'" ++ b ++ "'".

Definition repr_text (t : Worker.text) : string :=
  match t with
  | Worker.Bytes b => repr_bytes b
  | Worker.Str s => "'" ++ s ++ "'"
  end.

Fixpoint repr_items (m : Worker.message) : string :=
  match m with
  | [] => ""
  | [(k, v)] => repr_text k ++ ": " ++ repr_text v
  | (k, v) :: rest => repr_text k ++ ": " ++ repr_text v ++ ", " ++ repr_items rest
  end.

Definition str_message (m : Worker.message) : string :=
  "{" ++ repr_items m ++ "}".

Definition joe : string := "00000000-0000-0000-0000-000000000001".

(** An entry as [ingest_data] queues it and redis-py returns it. *)
Definition good_message : Worker.message :=
  [(Worker.Bytes "venue_id", Worker.Bytes joe);
   (Worker.Bytes "timestamp", Worker.Bytes "2024-01-05T21:00:00");
   (Worker.Bytes "transaction_count", Worker.Bytes "5");
   (Worker.Bytes "raw_payload", Worker.Bytes "{}")].

(** An entry without a count: [int(None)] raises on every delivery. *)
Definition poison_message : Worker.message :=
  [(Worker.Bytes "venue_id", Worker.Bytes joe);
   (Worker.Bytes "timestamp", Worker.Bytes "2024-01-05T21:00:00")].

Definition entry : string := "1704488400000-0".

(** The stream after the entry has been claimed once: it is pending. *)
Definition claimed : Redis.t :=
  Redis.mk ∅ ∅
    {[Worker.STREAM_KEY :=
        Redis.mkStream
          [(entry,
            [("venue_id", Redis.FStr joe);
             ("timestamp", Redis.FStr "2024-01-05T21:00:00");
             ("transaction_count", Redis.FInt 5);
             ("raw_payload", Redis.FStr "{}")])]
          {[Worker.GROUP_NAME := Redis.mkGroup entry {[entry]}]}]}
    [] [].

Definition world0 : Worker.world :=
  Worker.mkWorld (DB.mk seeded_venues []) claimed.

(** Redis drops the connection at [PUBLISH]. *)
Definition publish_fails : Worker.faults :=
  fun c => match c with
           | Worker.Publish => Some "ConnectionError"
           | _ => None
           end.

(** The scenario of the scoring rule: capacity 100, 25 sold in the
    window. *)
Definition scenario : DB.t :=
  DB.mk [DB.mkVenue joe "Joe Kool's" 100 "secret_joe"]
        [DB.mkTransaction joe nine_pm 25].

(** Two sold at Joe Kool's as seeded (capacity 150). *)
Definition quiet_night : DB.t :=
  DB.mk seeded_venues [DB.mkTransaction joe nine_pm 2].

(** A venue whose capacity was entered as a negative number. *)
Definition negative_capacity : DB.t :=
  DB.mk [DB.mkVenue joe "Joe Kool's" (-10) "secret_joe"]
        [DB.mkTransaction joe nine_pm 5].
End Sample.

(* ===================================================================== *)
(** * Texts of Python *)
(* ===================================================================== *)

(** [str] of an [int], [str.strip] and [str.split].  A [str] is kept as
    its UTF-8 encoding. *)
Module PyText.

(** [str(n)] and [repr(n)] of an [int]: decimal digits, a minus sign
    before a negative number. *)
Definition str_of_int (n : Z) : string := NilZero.string_of_int (Z.to_int n).

Definition code (c : ascii) : N := N_of_ascii c.

(** The white space of [str.isspace] below U+0080: U+0009 to U+000D,
    U+001C to U+0020. *)
Definition space1 (c : ascii) : bool :=
  (((9 <=? code c) && (code c <=? 13))
   || ((28 <=? code c) && (code c <=? 32)))%N.

(** U+0085 and U+00A0, two bytes each. *)
Definition space2 (c1 c2 : ascii) : bool :=
  ((code c1 =? 194) && ((code c2 =? 133) || (code c2 =? 160)))%N.

(** U+1680, U+2000 to U+200A, U+2028, U+2029, U+202F, U+205F and
    U+3000, three bytes each. *)
Definition space3 (c1 c2 c3 : ascii) : bool :=
  (((code c1 =? 225) && (code c2 =? 154) && (code c3 =? 128))
   || ((code c1 =? 226) && (code c2 =? 128)
       && (((128 <=? code c3) && (code c3 <=? 138))
           || (code c3 =? 168) || (code c3 =? 169) || (code c3 =? 175)))
   || ((code c1 =? 226) && (code c2 =? 129) && (code c3 =? 159))
   || ((code c1 =? 227) && (code c2 =? 128) && (code c3 =? 128)))%N.

(** [lstrip] on the bytes of a text. *)
Fixpoint lstrip_bytes (l : list ascii) : list ascii :=
  match l with
  | [] => []
  | c1 :: l1 =>
      if space1 c1 then lstrip_bytes l1
      else
        match l1 with
        | [] => l
        | c2 :: l2 =>
            if space2 c1 c2 then lstrip_bytes l2
            else
              match l2 with
              | [] => l
              | c3 :: l3 => if space3 c1 c2 c3 then lstrip_bytes l3 else l
              end
        end
  end.

(** The same from the end, on the bytes in reverse. *)
Fixpoint lstrip_reversed (l : list ascii) : list ascii :=
  match l with
  | [] => []
  | c1 :: l1 =>
      if space1 c1 then lstrip_reversed l1
      else
        match l1 with
        | [] => l
        | c2 :: l2 =>
            if space2 c2 c1 then lstrip_reversed l2
            else
              match l2 with
              | [] => l
              | c3 :: l3 => if space3 c3 c2 c1 then lstrip_reversed l3 else l
              end
        end
  end.

Definition rstrip_bytes (l : list ascii) : list ascii :=
  rev (lstrip_reversed (rev l)).

Definition lstrip (s : string) : string :=
  string_of_list_ascii (lstrip_bytes (list_ascii_of_string s)).

(** [s.strip()] *)
Definition strip (s : string) : string :=
  string_of_list_ascii
    (rstrip_bytes (lstrip_bytes (list_ascii_of_string s))).

(** [s.split(sep)] for a separator of one character: the parts between
    the separators, always one at least. *)
Fixpoint split_bytes (sep : ascii) (l : list ascii) : list (list ascii) :=
  match l with
  | [] => [[]]
  | c :: rest =>
      if Ascii.eqb c sep then [] :: split_bytes sep rest
      else
        match split_bytes sep rest with
        | part :: parts => (c :: part) :: parts
        | [] => [[c]]
        end
  end.

Definition split (sep : ascii) (s : string) : list string :=
  map string_of_list_ascii (split_bytes sep (list_ascii_of_string s)).

End PyText.

(* ===================================================================== *)
(** * Reading the stream as a consumer group *)
(* ===================================================================== *)

(** Entry ids: [ms-seq], two decimal numbers, ordered by [ms] and then by
    [seq]; [ms] alone stands for [ms-0] (the ["0"] of [ensure_group]). *)
Module StreamId.

Local Open Scope string_scope.

Fixpoint digits (s : string) (acc : Z) : option Z :=
  match s with
  | EmptyString => Some acc
  | String c rest =>
      let n := Z.of_N (N_of_ascii c) in
      if ((48 <=? n) && (n <=? 57))%Z
      then digits rest (10 * acc + (n - 48))%Z
      else None
  end.

Definition number (s : string) : option Z :=
  match s with
  | EmptyString => None
  | _ => digits s 0
  end.

(** The text before the first dash, and the text after it if there is
    one. *)
Fixpoint split_dash (s : string) : string * option string :=
  match s with
  | EmptyString => (EmptyString, None)
  | String c rest =>
      if Ascii.eqb c "-" then (EmptyString, Some rest)
      else let '(a, b) := split_dash rest in (String c a, b)
  end.

Definition parse (s : string) : option (Z * Z) :=
  let '(ms, seq) := split_dash s in
  match number ms, seq with
  | Some m, None => Some (m, 0)
  | Some m, Some q =>
      match number q with
      | Some n => Some (m, n)
      | None => None
      end
  | None, _ => None
  end.

Definition lt (a b : Z * Z) : bool :=
  ((fst a <? fst b) || ((fst a =? fst b) && (snd a <? snd b)))%Z.

(** [id] comes after [cursor]. *)
Definition newer (cursor id : string) : bool :=
  match parse cursor, parse id with
  | Some c, Some i => lt c i
  | _, _ => false
  end.

End StreamId.

Module Consumer.

Local Open Scope string_scope.

(** [XREADGROUP GROUP grp consumer COUNT 1 STREAMS key >]: the first
    entry after the group's cursor, which moves to it; the entry joins
    the pending entries list.  The entries of a stream are kept in the
    order of their ids, as the server keeps them.  [None] when nothing
    is new (the call has blocked in vain). *)
Definition xreadgroup_next (key grp : string) (r : Redis.t)
    : Redis.t * result (option (string * list (string * Redis.field))) :=
  match Redis.streams r !! key with
  | None => (r, Raise "NOGROUP No such key or consumer group")
  | Some s =>
      match Redis.groups s !! grp with
      | None => (r, Raise "NOGROUP No such key or consumer group")
      | Some g =>
          match find (fun e => StreamId.newer (Redis.last_delivered_id g)
                                 (fst e))
                     (Redis.entries s) with
          | None => (r, Ok None)
          | Some (id, fields) =>
              let g' := Redis.mkGroup id (Redis.pel g ∪ {[id]}) in
              (Redis.with_streams
                 (insert key
                    (Redis.mkStream (Redis.entries s)
                       (<[grp := g']> (Redis.groups s)))) r,
               Ok (Some (id, fields)))
          end
      end
  end.

(** The bytes redis-py sends for a field value: a [str] encoded, an
    [int] as its [repr]. *)
Definition encode (f : Redis.field) : string :=
  match f with
  | Redis.FStr s => s
  | Redis.FInt n => PyText.str_of_int n
  end.

(** [d[k] = v] *)
Fixpoint dict_set (k v : Worker.text) (d : Worker.message)
    : Worker.message :=
  match d with
  | [] => [(k, v)]
  | (k', v') :: rest =>
      if Worker.text_eqb k' k then (k', v) :: rest
      else (k', v') :: dict_set k v rest
  end.

(** The [dict] redis-py builds from the fields of an entry, names and
    values as [bytes]. *)
Definition message_of (fields : list (string * Redis.field))
    : Worker.message :=
  fold_left
    (fun d kv => dict_set (Worker.Bytes (fst kv))
                          (Worker.Bytes (encode (snd kv))) d)
    fields [].

End Consumer.

(* ===================================================================== *)
(** * The worker's loop ([main], [src/worker/main.py]) *)
(* ===================================================================== *)

Module WorkerLoop.
Import Worker.

(** What the environment decides for one turn of the loop: whether the
    read fails, what fails inside [process_message], the wall clock. *)
Record turn : Type := mkTurn {
  read_fault : option exn;
  turn_faults : faults;
  turn_utcnow : Z
}.

(** What happens while the worker runs: a turn of its loop, or an entry
    added to the stream by [/ingest]. *)
Inductive event : Type :=
| Turn (t : turn)
| Xadd (id : string) (fields : list (string * Redis.field)).

Section Runtime.

Variable utf8_decode : string -> option string.
Variable parse_int : text -> option Z.
Variable fromisoformat : string -> option Z.
Variable repr_bytes : string -> string.
Variable str_message : message -> string.

(** The body of [while not SHUTDOWN]: the [try] with its
    [except Exception], which swallows whatever is raised.  Returns the
    id handed to [process_message], if any. *)
Definition loop_body (t : turn) (w : world) : world * option string :=
  match read_fault t with
  | Some _ => (w, None)
  | None =>
      match Consumer.xreadgroup_next STREAM_KEY GROUP_NAME (rds w) with
      | (r, Raise _) => (mkWorld (db w) r, None)
      | (r, Ok None) => (mkWorld (db w) r, None)
      | (r, Ok (Some (id, fields))) =>
          (fst (process_message utf8_decode parse_int fromisoformat
                  repr_bytes str_message (turn_faults t) (turn_utcnow t)
                  (Bytes id) (Consumer.message_of fields)
                  (mkWorld (db w) r)),
           Some id)
      end
  end.

(** The loop over what happens, with the ids processed, in order. *)
Fixpoint run (events : list event) (w : world) : world * list string :=
  match events with
  | [] => (w, [])
  | Turn t :: rest =>
      let '(w1, done) := loop_body t w in
      let '(w2, ids) := run rest w1 in
      (w2, match done with Some id => id :: ids | None => ids end)
  | Xadd id fields :: rest =>
      run rest (mkWorld (db w) (Redis.xadd STREAM_KEY id fields (rds w)))
  end.

(** [main]: [ensure_group], then the loop until the shutdown flag is
    seen; an exception of [ensure_group] ends the process. *)
Definition main (events : list event) (w : world)
    : world * list string * result unit :=
  match ensure_group (rds w) with
  | (r, Raise e) => (mkWorld (db w) r, [], Raise e)
  | (r, Ok _) =>
      let '(w', ids) := run events (mkWorld (db w) r) in
      (w', ids, Ok tt)
  end.

End Runtime.

End WorkerLoop.

(* ===================================================================== *)
(** * The bar agent ([src/bar_agent.py]) *)
(* ===================================================================== *)

Module Agent.

Local Open Scope string_scope.

(** The venues the agent knows, with the secret of each. *)
Definition VENUES : list (string * string) :=
  [("00000000-0000-0000-0000-000000000001", "secret_joe");
   ("00000000-0000-0000-0000-000000000002", "secret_barney");
   ("00000000-0000-0000-0000-000000000003", "secret_molly");
   ("00000000-0000-0000-0000-000000000004", "secret_ceeps");
   ("00000000-0000-0000-0000-000000000005", "secret_toboggan")].

(** [VENUES[venue_id]], after [venue_id in VENUES]. *)
Fixpoint lookup (k : string) (d : list (string * string)) : option string :=
  match d with
  | [] => None
  | (k', v) :: rest => if String.eqb k k' then Some v else lookup k rest
  end.

(** What [requests.post] is given: the body and the [X-Signature]
    header (the other header is the content type). *)
Record request : Type := mkRequest {
  body : string;
  x_signature : string
}.

Section Runtime.

(** [json.dumps], the raw HMAC-SHA256 and [int] on a [str], taken as
    given. *)
Variable json_dumps : json -> string.
Variable hmac_sha256 : string -> string -> string.
Variable py_int : string -> option Z.

(** [send_payload]: nothing is sent for a venue the agent does not
    know. *)
Definition send_payload (timestamp_str venue_id : string) (count : Z)
    : option request :=
  match lookup venue_id VENUES with
  | None => None
  | Some secret_key =>
      let payload :=
        [("venue_id", JStr venue_id);
         ("timestamp", JStr timestamp_str);
         ("transaction_count", JInt count)] in
      let body := json_dumps payload in
      let signature := Ingest.sign hmac_sha256 secret_key body in
      Some (mkRequest body signature)
  end.

Definition int_of (s : string) : result Z :=
  match py_int s with
  | Some n => Ok n
  | None => Raise "ValueError: invalid literal for int() with base 10"
  end.

(** [parse_line]: the three fields of a line, the first venue for a
    line of two fields, [None] for any other line. *)
Definition parse_line (line : string)
    : result (option (string * string * Z)) :=
  let parts := PyText.split "," (PyText.strip line) in
  match parts with
  | [p0; p1; p2] =>
      let* n := int_of p2 in Ok (Some (p0, p1, n))
  | [p0; p1] =>
      let* n := int_of p1 in
      Ok (Some (p0, "00000000-0000-0000-0000-000000000001", n))
  | _ => Ok None
  end.

End Runtime.

End Agent.

(* ===================================================================== *)
(** * The traffic simulator ([src/simulate_traffic.py]) *)
(* ===================================================================== *)

(** The line [simulate] writes for a venue
    ([src/simulate_traffic.py], line 195). *)
Module Simulator.

Local Open Scope string_scope.

Definition csv_line (timestamp_iso venue_id : string) (quantity : Z)
    : string :=
  timestamp_iso ++ "," ++ venue_id ++ "," ++ PyText.str_of_int quantity
  ++ String "010" "".

End Simulator.

(* ===================================================================== *)
(** * Seeding ([src/app/init_db.py]) *)
(* ===================================================================== *)

Module InitDb.

Local Open Scope string_scope.

(** [models.Venue] with all its columns; [owner_id] stays null. *)
Record Venue : Type := mkVenue {
  id : string;
  name : string;
  location_lat : Py.float;
  location_lon : Py.float;
  capacity : Z;
  owner_api_key_hash : string;
  secret_key_hash : string
}.

(** [models.User] *)
Record User : Type := mkUser {
  email : string;
  hashed_password : string
}.

(** The committed tables. *)
Record t : Type := mk {
  users : list User;
  venues : list Venue
}.

(** The statements that leave the process. *)
Inductive call : Type :=
| CreateIndex | QueryAdmin | CommitAdmin | CountVenues | CommitVenues.

(** The double [f] is the one nearest to the decimal [q]. *)
Definition nearest (f : Py.float) (q : Q) : bool :=
  match f with
  | S754_finite _ _ e =>
      Qle_bool (Qabs (Dyadic.F2Q f - q) * 2) (2 ^ e)
  | _ => false
  end.

(** The columns the pipeline reads. *)
Definition pipeline_columns (v : Venue) : DB.Venue :=
  DB.mkVenue (id v) (name v) (capacity v) (secret_key_hash v).

Section Runtime.

(** The raw SHA-256 digest and [auth.get_password_hash], taken as
    given; what the environment makes of each statement ([Some e]: it
    raises [e]). *)
Variable sha256 : string -> string.
Variable get_password_hash : string -> string.
Variable fl : call -> option exn.

(** [hashlib.sha256(key.encode()).hexdigest()] *)
Definition hash_key (key : string) : string := Hex.hex (sha256 key).

(** The coordinates are the doubles of the literals. *)
Definition venues_list : list Venue :=
  [mkVenue "00000000-0000-0000-0000-000000000001" "Joe Kool's"
     (S754_finite false 6049586863204939 (-47))
     (S754_finite true 5717129731337565 (-46))
     150 (hash_key "key1") "secret_joe";
   mkVenue "00000000-0000-0000-0000-000000000002" "Barney's"
     (S754_finite false 6049671305697952 (-47))
     (S754_finite true 5717178989458489 (-46))
     200 (hash_key "key2") "secret_barney";
   mkVenue "00000000-0000-0000-0000-000000000003" "Molly Bloom's"
     (S754_finite false 6049319461977063 (-47))
     (S754_finite true 5717460464435200 (-46))
     120 (hash_key "key3") "secret_molly";
   mkVenue "00000000-0000-0000-0000-000000000004" "The Ceeps"
     (S754_finite false 6049741674442129 (-47))
     (S754_finite true 5717319726946845 (-46))
     300 (hash_key "key4") "secret_ceeps";
   mkVenue "00000000-0000-0000-0000-000000000005" "Toboggan Brewing Co."
     (S754_finite false 6049460199465419 (-47))
     (S754_finite true 5717249358202667 (-46))
     180 (hash_key "key5") "secret_toboggan"].

Definition admin : User :=
  mkUser "admin@example.com" (get_password_hash "changeme").

(** [init_db]: any exception ends it with a rollback, which drops what
    was added since the last commit. *)
Definition init_db (s : t) : t :=
  match fl CreateIndex with
  | Some _ => s
  | None =>
  match fl QueryAdmin with
  | Some _ => s
  | None =>
  let seeded :=
    existsb (fun u => String.eqb (email u) "admin@example.com") (users s) in
  match (if seeded then None else fl CommitAdmin) with
  | Some _ => s
  | None =>
  let s1 :=
    if seeded then s else mk (users s ++ [admin])%list (venues s) in
  match fl CountVenues with
  | Some _ => s1
  | None =>
  if (0 <? length (venues s1))%nat then s1
  else
    match fl CommitVenues with
    | Some _ => s1
    | None => mk (users s1) (venues s1 ++ venues_list)%list
    end
  end end end end.

End Runtime.

End InitDb.

(* ===================================================================== *)
(** * Accounts ([register], [src/app/main.py]) *)
(* ===================================================================== *)

Module Accounts.

Local Open Scope string_scope.

Inductive answer : Type :=
| Created (user : InitDb.User)
| HTTPException (status_code : Z) (detail : string).

Section Runtime.

(** [auth.get_password_hash], taken as given. *)
Variable get_password_hash : string -> string.

(** [register]: the users table after the call, and the answer. *)
Definition register (email password : string) (users : list InitDb.User)
    : list InitDb.User * answer :=
  match find (fun u => String.eqb (InitDb.email u) email) users with
  | Some _ => (users, HTTPException 400 "Email already registered")
  | None =>
      let new_user := InitDb.mkUser email (get_password_hash password) in
      ((users ++ [new_user])%list, Created new_user)
  end.

End Runtime.

End Accounts.

(* ===================================================================== *)
(** * More concrete data *)
(* ===================================================================== *)

(** The pipeline from the agent to the worker, on one sale. *)
Module Fixtures.
Import Sample.

Local Open Scope string_scope.

Definition quote : string := String (ascii_of_nat 34) "".

Definition dumps_value (v : jvalue) : string :=
  match v with
  | JNull => "null"
  | JStr s => quote ++ s ++ quote
  | JInt n => PyText.str_of_int n
  end.

Fixpoint dumps_items (j : json) : string :=
  match j with
  | [] => ""
  | [(k, v)] => quote ++ k ++ quote ++ ": " ++ dumps_value v
  | (k, v) :: rest =>
      quote ++ k ++ quote ++ ": " ++ dumps_value v ++ ", " ++ dumps_items rest
  end.

(** [json.dumps] on a flat object whose texts need no escape. *)
Definition json_dumps (j : json) : string := "{" ++ dumps_items j ++ "}".

Definition nine_pm_iso : string := "2024-01-05T21:00:00".

Definition isoformat (t : Z) : string :=
  if (t =? nine_pm)%Z then nine_pm_iso else "".

Definition payload : Ingest.IngestionPayload :=
  Ingest.mkPayload joe nine_pm 5.

(** The body the agent sends for five sales at Joe Kool's at nine. *)
Definition body : string :=
  json_dumps [("venue_id", JStr joe); ("timestamp", JStr nine_pm_iso);
              ("transaction_count", JInt 5)].

Definition parse_payload (b : string) : option Ingest.IngestionPayload :=
  if String.eqb b body then Some payload else None.

(** A stand-in for HMAC-SHA256, which is not computed here: the
    properties take the MAC as any function of the key and the text. *)
Definition mac (key msg : string) : string := String "m" (key ++ msg).

Definition py_int (s : string) : option Z := parse_int (Worker.Str s).

(** The store as [init_db] leaves it and a stream the worker has read to
    the end. *)
Definition idle : Worker.world :=
  Worker.mkWorld (DB.mk seeded_venues [])
    (Redis.mk ∅ ∅
       {[Worker.STREAM_KEY :=
           Redis.mkStream [] {[Worker.GROUP_NAME := Redis.mkGroup "0" ∅]}]}
       [] []).

(** A stand-in for [auth.get_password_hash]. *)
Definition password_hash (password : string) : string := String "h" password.

End Fixtures.

(* ===================================================================== *)
(** * Binary64 arithmetic: what one rounding can lose *)
(* ===================================================================== *)

(** The score of [/scores] is four correctly rounded operations away from
    the rational [200 * volume / capacity].  This part follows each of
    them through [SpecFloat]: a rounding to nearest keeps the value
    within one part in [2^53], and the truncation of [int] then lands on
    the floor of the exact value, or one below it when the exact value is
    an integer. *)

Module Rounding.
Import Dyadic.

Lemma shr_1_located (mrs : shr_record) (num den : Z) :
  0 <= shr_m mrs -> 0 < den ->
  located_rec mrs num den ->
  located_rec (shr_1 mrs) num (2 * den)
  /\ shr_m (shr_1 mrs) = shr_m mrs / 2.
Proof.
  destruct mrs as [m r s]. unfold located_rec.
  cbn [shr_m]. intros Hm Hden H.
  destruct m as [|p|p]; [| |lia].
  - change (0 / 2) with 0.
    destruct r, s; cbv [located loc_of_shr_record shr_1 shr_m orb] in *; lia.
  - destruct p as [p|p|].
    + assert (E : Z.pos p~1 / 2 = Z.pos p)
        by (symmetry; apply Z.div_unique with 1; lia).
      rewrite E. pose proof (Pos2Z.inj_xI p) as Ep.
      destruct r, s; cbv [located loc_of_shr_record shr_1 shr_m orb] in *;
        rewrite Ep in H; nia.
    + assert (E : Z.pos p~0 / 2 = Z.pos p)
        by (symmetry; apply Z.div_unique with 0; lia).
      rewrite E. pose proof (Pos2Z.inj_xO p) as Ep.
      destruct r, s; cbv [located loc_of_shr_record shr_1 shr_m orb] in *;
        rewrite Ep in H; nia.
    + change (1 / 2) with 0.
      destruct r, s; cbv [located loc_of_shr_record shr_1 shr_m orb] in *; lia.
Qed.

Lemma iter_pos_nat {A} (f : A -> A) (p : positive) (x : A) :
  SpecFloat.iter_pos f p x = Nat.iter (Pos.to_nat p) f x.
Proof.
  revert x. induction p as [p IH|p IH|]; intros x; simpl SpecFloat.iter_pos.
  - rewrite !IH, Pos2Nat.inj_xI.
    replace (S (2 * Pos.to_nat p)) with (Pos.to_nat p + (Pos.to_nat p + 1))%nat
      by lia.
    rewrite !Nat.iter_add. reflexivity.
  - rewrite !IH, Pos2Nat.inj_xO.
    replace (2 * Pos.to_nat p)%nat with (Pos.to_nat p + Pos.to_nat p)%nat by lia.
    rewrite Nat.iter_add. reflexivity.
  - reflexivity.
Qed.

Lemma nat_iter_shr_located (n : nat) :
  forall (mrs : shr_record) (num den : Z),
    0 <= shr_m mrs -> 0 < den ->
    located_rec mrs num den ->
    located_rec (Nat.iter n shr_1 mrs) num (2 ^ Z.of_nat n * den)
    /\ shr_m (Nat.iter n shr_1 mrs) = shr_m mrs / 2 ^ Z.of_nat n.
Proof.
  induction n as [|n IH]; intros mrs num den Hm Hden H.
  - change (Nat.iter 0 shr_1 mrs) with mrs. change (2 ^ Z.of_nat 0) with 1.
    rewrite Z.div_1_r, Z.mul_1_l. split; [exact H | reflexivity].
  - rewrite Nat.iter_succ.
    destruct (IH _ _ _ Hm Hden H) as [H1 E1].
    assert (Hp : 0 < 2 ^ Z.of_nat n) by (apply Z.pow_pos_nonneg; lia).
    assert (Hm1 : 0 <= shr_m (Nat.iter n shr_1 mrs))
      by (rewrite E1; apply Z.div_pos; lia).
    destruct (shr_1_located _ _ _ Hm1 (Z.mul_pos_pos _ _ Hp Hden) H1)
      as [H2 E2].
    rewrite Nat2Z.inj_succ, Z.pow_succ_r by lia.
    split.
    + replace (2 * 2 ^ Z.of_nat n * den) with (2 * (2 ^ Z.of_nat n * den)) by ring.
      exact H2.
    + rewrite E2, E1. rewrite Z.div_div by lia. f_equal. ring.
Qed.

Lemma iter_pos_shr_located (p : positive) (mrs : shr_record) (num den : Z) :
  0 <= shr_m mrs -> 0 < den ->
  located_rec mrs num den ->
  located_rec (SpecFloat.iter_pos shr_1 p mrs) num (2 ^ Z.pos p * den)
  /\ shr_m (SpecFloat.iter_pos shr_1 p mrs) = shr_m mrs / 2 ^ Z.pos p.
Proof.
  intros Hm Hden H. rewrite iter_pos_nat.
  rewrite <- (positive_nat_Z p). by apply nat_iter_shr_located.
Qed.

(** Rounding to nearest, ties to even, moves by at most half a unit. *)
Lemma round_nearest_even_located (m : Z) (l : location) (num den : Z) :
  0 < den -> located m l num den ->
  let mr := round_nearest_even m l in
  (mr = m \/ mr = m + 1)
  /\ 2 * (mr * den) - 2 * num <= den
  /\ 2 * num - 2 * (mr * den) <= den
  /\ (l = loc_Exact -> mr = m).
Proof.
  intros Hden H. unfold round_nearest_even.
  destruct l as [|[]]; simpl in H; try destruct (Z.even m);
    repeat split; try lia; discriminate.
Qed.

(** ** Digits *)

Lemma digits2_pos_bounds (p : positive) :
  2 ^ (Z.pos (digits2_pos p) - 1) <= Z.pos p < 2 ^ Z.pos (digits2_pos p).
Proof.
  induction p as [p IH|p IH|]; cbn [digits2_pos].
  - rewrite Pos2Z.inj_succ, (Pos2Z.inj_xI p).
    replace (Z.succ (Z.pos (digits2_pos p)) - 1)
      with (Z.succ (Z.pos (digits2_pos p) - 1)) by lia.
    rewrite !Z.pow_succ_r by lia.
    generalize dependent (2 ^ (Z.pos (digits2_pos p) - 1)).
    generalize dependent (2 ^ Z.pos (digits2_pos p)). lia.
  - rewrite Pos2Z.inj_succ, (Pos2Z.inj_xO p).
    replace (Z.succ (Z.pos (digits2_pos p)) - 1)
      with (Z.succ (Z.pos (digits2_pos p) - 1)) by lia.
    rewrite !Z.pow_succ_r by lia.
    generalize dependent (2 ^ (Z.pos (digits2_pos p) - 1)).
    generalize dependent (2 ^ Z.pos (digits2_pos p)). lia.
  - simpl. lia.
Qed.

Lemma Zdigits2_bounds (m : Z) :
  0 < m -> 2 ^ (Zdigits2 m - 1) <= m < 2 ^ Zdigits2 m.
Proof. destruct m as [|p|p]; try lia. intros _. apply digits2_pos_bounds. Qed.

Lemma Zdigits2_pos (m : Z) : 0 < m -> 0 < Zdigits2 m.
Proof. destruct m; simpl; lia. Qed.

Lemma Zdigits2_unique (m k : Z) :
  2 ^ (k - 1) <= m < 2 ^ k -> 0 < m -> Zdigits2 m = k.
Proof.
  intros Hk Hm. pose proof (Zdigits2_bounds m Hm) as Hd.
  pose proof (Zdigits2_pos m Hm) as Hpos.
  assert (0 < k).
  { destruct (Z.lt_ge_cases 0 k) as [|Hle]; [done|].
    assert (2 ^ k <= 2 ^ 0) by (apply Z.pow_le_mono_r; lia).
    change (2 ^ 0) with 1 in *. lia. }
  destruct (Z.lt_trichotomy (Zdigits2 m) k) as [Hlt|[->|Hgt]]; [|reflexivity|].
  - assert (2 ^ Zdigits2 m <= 2 ^ (k - 1)) by (apply Z.pow_le_mono_r; lia). lia.
  - assert (2 ^ k <= 2 ^ (Zdigits2 m - 1)) by (apply Z.pow_le_mono_r; lia). lia.
Qed.

(** ** Shifting and rounding a located mantissa *)

Lemma loc_of_shr_record_of_loc (m : Z) (l : location) :
  loc_of_shr_record (shr_record_of_loc m l) = l.
Proof. by destruct l as [|[]]. Qed.

Lemma shr_m_of_loc (m : Z) (l : location) : shr_m (shr_record_of_loc m l) = m.
Proof. by destruct l as [|[]]. Qed.

Lemma shr_located (m : Z) (l : location) (ex n num den : Z) :
  0 <= m -> 0 < den -> 0 <= n -> located m l num den ->
  located_rec (fst (shr (shr_record_of_loc m l) ex n)) num (2 ^ n * den)
  /\ shr_m (fst (shr (shr_record_of_loc m l) ex n)) = m / 2 ^ n
  /\ snd (shr (shr_record_of_loc m l) ex n) = ex + n.
Proof.
  intros Hm Hden Hn H. unfold shr. destruct n as [|p|p]; [| |lia].
  - cbn [fst snd]. change (2 ^ 0) with 1. rewrite Z.mul_1_l, Z.div_1_r, Z.add_0_r.
    unfold located_rec.
    by rewrite loc_of_shr_record_of_loc, shr_m_of_loc.
  - cbn [fst snd].
    destruct (iter_pos_shr_located p (shr_record_of_loc m l) num den)
      as [H1 H2].
    + by rewrite shr_m_of_loc.
    + done.
    + unfold located_rec. by rewrite loc_of_shr_record_of_loc, shr_m_of_loc.
    + rewrite shr_m_of_loc in H2. done.
Qed.

Local Abbreviation prec := Py.prec.
Local Abbreviation emax := Py.emax.

(** [binary_round_aux] on a positive mantissa of at least [prec] digits,
    in the range of the normal numbers: the result is the nearest double
    of [num/den * 2^ex], within half a unit of its last place. *)
Lemma binary_round_aux_spec (sx : bool) (mx ex : Z) (lx : location)
    (num den : Z) :
  0 < den -> 0 < mx -> located mx lx num den ->
  let n := Zdigits2 mx - prec in
  0 <= n -> -1074 <= ex + n -> ex + n + 1 <= emax - prec ->
  exists (m : positive) (e : Z),
    binary_round_aux prec emax sx mx ex lx = S754_finite sx m e
    /\ 2 ^ 52 <= Z.pos m < 2 ^ 53
    /\ ex + n <= e <= ex + n + 1
    /\ 2 * (Z.pos m * 2 ^ (e - ex) * den) - 2 * num <= 2 ^ n * den
    /\ 2 * num - 2 * (Z.pos m * 2 ^ (e - ex) * den) <= 2 ^ n * den.
Proof.
  intros Hden Hmx Hloc n Hn Hlo Hhi.
  pose proof (Zdigits2_bounds mx Hmx) as Hd.
  assert (Ed : Zdigits2 mx = n + 53) by (unfold n, Py.prec; lia).
  rewrite Ed in Hd. replace (n + 53 - 1) with (n + 52) in Hd by lia.
  rewrite !Z.pow_add_r in Hd by lia.
  assert (Hpn : 0 < 2 ^ n) by (apply Z.pow_pos_nonneg; lia).
  unfold binary_round_aux, shr_fexp.
  assert (Efexp : fexp prec emax (Zdigits2 mx + ex) - ex = n).
  { unfold fexp, emin, Py.prec, Py.emax in *. lia. }
  rewrite Efexp.
  destruct (shr_located mx lx ex n num den ltac:(lia) Hden Hn Hloc)
    as (H1 & E1 & Ee).
  destruct (shr (shr_record_of_loc mx lx) ex n) as [mrs1 e1].
  cbn [fst snd] in H1, E1, Ee. subst e1.
  set (m1 := shr_m mrs1) in *.
  assert (Hm1 : 2 ^ 52 <= m1 < 2 ^ 53).
  { rewrite E1. split.
    - apply Z.div_le_lower_bound; lia.
    - apply Z.div_lt_upper_bound; lia. }
  assert (Hden' : 0 < 2 ^ n * den) by lia.
  destruct (round_nearest_even_located m1 _ num _ Hden' H1)
    as (Hmr & Hup & Hdn & _).
  set (mr := round_nearest_even m1 (loc_of_shr_record mrs1)) in *.
  assert (Hmr_pos : 0 < mr) by lia.
  destruct (Z.eq_dec mr (2 ^ 53)) as [Etop|Hne].
  - (* the rounding carried into a 54th digit *)
    assert (Edig : Zdigits2 mr = 54).
    { apply Zdigits2_unique; [|lia]. rewrite Etop. simpl. lia. }
    assert (Efexp2 : fexp prec emax (Zdigits2 mr + (ex + n)) - (ex + n) = 1).
    { rewrite Edig. unfold fexp, emin, Py.prec, Py.emax in *. lia. }
    rewrite Efexp2, Etop.
    change (shr (shr_record_of_loc (2 ^ 53) loc_Exact) (ex + n) 1)
      with (Build_shr_record (2 ^ 52) false false, ex + n + 1).
    cbn [shr_m]. change (2 ^ 52) with (Z.pos 4503599627370496) at 1.
    cbv iota. rewrite (proj2 (Z.leb_le _ _) Hhi).
    exists 4503599627370496%positive, (ex + n + 1).
    split; [reflexivity|]. split; [simpl; lia|]. split; [lia|].
    replace (ex + n + 1 - ex) with (n + 1) by lia.
    rewrite Z.pow_add_r, Z.pow_1_r by lia.
    rewrite Etop in Hup, Hdn. change (2 ^ 53) with 9007199254740992 in *.
    set (P := 2 ^ n) in *. lia.
  - (* the rounded mantissa still has 53 digits *)
    assert (Edig : Zdigits2 mr = 53).
    { apply Zdigits2_unique; [|lia]. change (53 - 1) with 52. lia. }
    assert (Efexp2 : fexp prec emax (Zdigits2 mr + (ex + n)) - (ex + n) = 0).
    { rewrite Edig. unfold fexp, emin, Py.prec, Py.emax in *. lia. }
    rewrite Efexp2. cbn [shr]. rewrite shr_m_of_loc.
    destruct mr as [|m|m] eqn:Emr; [lia| |lia].
    assert (Hle : ex + n <= emax - prec) by lia.
    rewrite (proj2 (Z.leb_le _ _) Hle).
    exists m, (ex + n).
    split; [reflexivity|]. split; [lia|]. split; [lia|].
    replace (ex + n - ex) with n by lia.
    set (P := 2 ^ n) in *. lia.
Qed.

(** The same, relative to the exact value: the error is at most one part
    in [2^53]. *)
Lemma binary_round_aux_rel (sx : bool) (mx ex : Z) (lx : location)
    (num den : Z) :
  0 < den -> 0 < mx -> located mx lx num den ->
  let n := Zdigits2 mx - prec in
  0 <= n -> -1074 <= ex + n -> ex + n + 1 <= emax - prec ->
  exists (m : positive) (e : Z),
    binary_round_aux prec emax sx mx ex lx = S754_finite sx m e
    /\ 2 ^ 52 <= Z.pos m < 2 ^ 53
    /\ ex + n <= e <= ex + n + 1
    /\ (2 ^ 53 - 1) * num <= 2 ^ 53 * (Z.pos m * 2 ^ (e - ex) * den)
    /\ 2 ^ 53 * (Z.pos m * 2 ^ (e - ex) * den) <= (2 ^ 53 + 1) * num
    /\ (n = 0 -> lx = loc_Exact -> Z.pos m * 2 ^ (e - ex) = mx).
Proof.
  intros Hden Hmx Hloc n Hn Hlo Hhi.
  destruct (binary_round_aux_spec sx mx ex lx num den Hden Hmx Hloc Hn Hlo Hhi)
    as (m & e & E & Hm & He & Hup & Hdn).
  exists m, e. split; [exact E|]. split; [exact Hm|]. split; [exact He|].
  fold n in He, Hup, Hdn.
  pose proof (Zdigits2_bounds mx Hmx) as Hd.
  assert (Ed : Zdigits2 mx = n + 53) by (unfold n, Py.prec; lia).
  rewrite Ed in Hd. replace (n + 53 - 1) with (n + 52) in Hd by lia.
  rewrite !Z.pow_add_r in Hd by lia.
  assert (Hpn : 0 < 2 ^ n) by (apply Z.pow_pos_nonneg; lia).
  assert (Hnum : mx * den <= num).
  { destruct lx as [|[]]; simpl in Hloc; nia. }
  assert (Hnum2 : 2 ^ n * den * 2 ^ 52 <= num) by nia.
  set (V := Z.pos m * 2 ^ (e - ex) * den) in *.
  set (P := 2 ^ n * den) in *.
  change (2 ^ 53) with 9007199254740992.
  change (2 ^ 52) with 4503599627370496 in Hnum2.
  split; [lia|]. split; [lia|].
  intros En Hex. subst lx. simpl in Hloc. subst num.
  unfold P, V in *. rewrite En in *. change (2 ^ 0) with 1 in *.
  assert (Z.pos m * 2 ^ (e - ex) = mx); [|done].
  nia.
Qed.

(** ** Division and multiplication *)

Lemma new_location_located (q r num den : Z) :
  0 < den -> num = den * q + r -> 0 <= r < den ->
  located q (new_location den r) num den.
Proof.
  intros Hden -> Hr. unfold new_location, new_location_even, new_location_odd.
  destruct (Z.even den) eqn:Heven.
  - destruct (Z.eqb_spec r 0) as [->|Hr0]; [simpl; lia|].
    destruct (Z.compare_spec (2 * r) den); simpl; lia.
  - destruct (Z.eqb_spec r 0) as [->|Hr0]; [simpl; lia|].
    assert (Hodd : Z.odd den = true) by (rewrite <- Z.negb_even, Heven; done).
    apply Z.odd_spec in Hodd as [k Hk].
    destruct (Z.compare_spec (2 * r + 1) den); simpl; lia.
Qed.

(** The quotient that [SFdiv] hands to the rounding: at least [prec]
    digits of [mx * 2^s / my], located against the exact quotient. *)
Lemma SFdiv_core_binary_spec (mx ex my ey : Z) :
  0 < mx -> 0 < my ->
  let d1 := Zdigits2 mx in
  let d2 := Zdigits2 my in
  -1021 <= d1 + ex - (d2 + ey) ->
  let s := Z.max (prec - d1 + d2) 0 in
  exists q l,
    SFdiv_core_binary prec emax mx ex my ey = (q, ex - ey - s, l)
    /\ located q l (mx * 2 ^ s) my
    /\ 2 ^ 52 <= q
    /\ d1 + s - d2 <= Zdigits2 q <= d1 + s - d2 + 1.
Proof.
  intros Hmx Hmy d1 d2 Ht s.
  unfold SFdiv_core_binary. fold d1 d2.
  assert (Ee : Z.min (fexp prec emax (d1 + ex - (d2 + ey))) (ex - ey)
               = ex - ey - s).
  { unfold fexp, emin, s, Py.prec, Py.emax in *. lia. }
  rewrite Ee. replace (ex - ey - (ex - ey - s)) with s by lia.
  assert (Hs : 0 <= s) by (unfold s; lia).
  assert (Em : match s with
               | 0 => mx
               | Z.pos _ => Z.shiftl mx s
               | Z.neg _ => 0
               end = mx * 2 ^ s).
  { destruct s as [|p|p]; [|by rewrite Z.shiftl_mul_pow2|lia].
    change (2 ^ 0) with 1. lia. }
  rewrite Em.
  pose proof (Z_div_mod (mx * 2 ^ s) my ltac:(lia)) as Hdiv.
  destruct (Z.div_eucl (mx * 2 ^ s) my) as [q r].
  destruct Hdiv as [Hqr Hr].
  exists q, (new_location my r). split; [reflexivity|].
  split; [by apply new_location_located|].
  pose proof (Zdigits2_bounds mx Hmx) as Hd1. fold d1 in Hd1.
  pose proof (Zdigits2_bounds my Hmy) as Hd2. fold d2 in Hd2.
  pose proof (Zdigits2_pos mx Hmx) as Hp1. fold d1 in Hp1.
  pose proof (Zdigits2_pos my Hmy) as Hp2. fold d2 in Hp2.
  assert (Hps : 0 < 2 ^ s) by (apply Z.pow_pos_nonneg; lia).
  (* 2^(52 + d2) <= mx * 2^s *)
  assert (Hlow : 2 ^ 52 * 2 ^ d2 <= mx * 2 ^ s).
  { rewrite <- Z.pow_add_r by lia.
    apply Z.le_trans with (2 ^ (d1 - 1) * 2 ^ s); [|nia].
    rewrite <- Z.pow_add_r by lia. apply Z.pow_le_mono_r; unfold s, Py.prec; lia. }
  assert (Hq52 : 2 ^ 52 <= q).
  { destruct (Z.le_gt_cases (2 ^ 52) q) as [|Hlt]; [done|].
    assert (q + 1 <= 2 ^ 52) by lia.
    assert (mx * 2 ^ s < my * (q + 1)) by lia.
    assert (my * (q + 1) <= my * 2 ^ 52) by (apply Z.mul_le_mono_nonneg_l; lia).
    assert (my * 2 ^ 52 < 2 ^ d2 * 2 ^ 52)
      by (apply Z.mul_lt_mono_pos_r; [done | lia]).
    lia. }
  split; [exact Hq52|].
  assert (Hq0 : 0 < q) by lia.
  (* q < 2^(d1 + s - d2 + 1) *)
  assert (Hup : q < 2 ^ (d1 + s - d2 + 1)).
  { assert (Hexp : 0 <= d1 + s - d2 + 1) by (unfold s, Py.prec; lia).
    destruct (Z.lt_ge_cases q (2 ^ (d1 + s - d2 + 1))) as [|Hge]; [done|].
    assert (2 ^ (d2 - 1) * 2 ^ (d1 + s - d2 + 1) <= my * q) by nia.
    rewrite <- Z.pow_add_r in H by lia.
    replace (d2 - 1 + (d1 + s - d2 + 1)) with (d1 + s) in H by lia.
    rewrite Z.pow_add_r in H by lia.
    assert (mx * 2 ^ s < 2 ^ d1 * 2 ^ s)
      by (apply Z.mul_lt_mono_pos_r; [done | lia]).
    lia. }
  assert (Hlo : 2 ^ (d1 + s - d2 - 1) <= q).
  { assert (Hexp : 0 <= d1 + s - d2 - 1) by (unfold s, Py.prec; lia).
    destruct (Z.le_gt_cases (2 ^ (d1 + s - d2 - 1)) q) as [|Hlt]; [done|].
    assert (q + 1 <= 2 ^ (d1 + s - d2 - 1)) by lia.
    assert (my * (q + 1) <= my * 2 ^ (d1 + s - d2 - 1))
      by (apply Z.mul_le_mono_nonneg_l; lia).
    assert (my * 2 ^ (d1 + s - d2 - 1) < 2 ^ d2 * 2 ^ (d1 + s - d2 - 1))
      by (apply Z.mul_lt_mono_pos_r; [apply Z.pow_pos_nonneg; lia | lia]).
    rewrite <- Z.pow_add_r in H1 by lia.
    replace (d2 + (d1 + s - d2 - 1)) with (d1 - 1 + s) in H1 by lia.
    rewrite Z.pow_add_r in H1 by lia.
    assert (2 ^ (d1 - 1) * 2 ^ s <= mx * 2 ^ s)
      by (apply Z.mul_le_mono_nonneg_r; lia).
    lia. }
  pose proof (Zdigits2_bounds q Hq0) as Hdq.
  split.
  - destruct (Z.le_gt_cases (d1 + s - d2) (Zdigits2 q)) as [|Hgt]; [done|].
    assert (2 ^ Zdigits2 q <= 2 ^ (d1 + s - d2 - 1))
      by (apply Z.pow_le_mono_r; lia).
    lia.
  - destruct (Z.le_gt_cases (Zdigits2 q) (d1 + s - d2 + 1)) as [|Hgt]; [done|].
    assert (2 ^ (d1 + s - d2 + 1) <= 2 ^ (Zdigits2 q - 1))
      by (apply Z.pow_le_mono_r; lia).
    lia.
Qed.

(** [SFdiv] on two finite numbers whose quotient is a normal number:
    the quotient, within one part in [2^53]. *)
Lemma SFdiv_rel (sx : bool) (mx : positive) (ex : Z)
    (sy : bool) (my : positive) (ey : Z) :
  let t := Zdigits2 (Z.pos mx) + ex - (Zdigits2 (Z.pos my) + ey) in
  -1021 <= t <= 1022 ->
  let s := Z.max (prec - Zdigits2 (Z.pos mx) + Zdigits2 (Z.pos my)) 0 in
  let e0 := ex - ey - s in
  exists (m : positive) (e : Z),
    SFdiv prec emax (S754_finite sx mx ex) (S754_finite sy my ey)
    = S754_finite (xorb sx sy) m e
    /\ 2 ^ 52 <= Z.pos m < 2 ^ 53
    /\ t - prec <= e <= t - prec + 2
    /\ e0 <= e
    /\ (2 ^ 53 - 1) * (Z.pos mx * 2 ^ s)
       <= 2 ^ 53 * (Z.pos m * 2 ^ (e - e0) * Z.pos my)
    /\ 2 ^ 53 * (Z.pos m * 2 ^ (e - e0) * Z.pos my)
       <= (2 ^ 53 + 1) * (Z.pos mx * 2 ^ s).
Proof.
  intros t Ht s e0. unfold SFdiv.
  destruct (SFdiv_core_binary_spec (Z.pos mx) ex (Z.pos my) ey)
    as (q & l & E & Hloc & Hq & Hdq); [lia | lia | fold t; lia |].
  fold s in E, Hloc, Hdq. fold e0 in E. rewrite E.
  assert (Hq0 : 0 < q) by lia.
  destruct (binary_round_aux_rel (xorb sx sy) q e0 l _ _
              (Pos2Z.pos_is_pos my) Hq0 Hloc)
    as (m & e & Er & Hm & He & Hlo & Hhi & _).
  - unfold Py.prec in *. lia.
  - unfold e0, t, Py.prec in *. lia.
  - unfold e0, t, Py.prec, Py.emax in *. lia.
  - exists m, e. split; [done|]. split; [done|].
    split; [unfold e0, t, Py.prec in *; lia|].
    split; [unfold Py.prec in *; lia|]. done.
Qed.

(** [SFmul] on two finite numbers with full mantissas whose product is a
    normal number: the product, within one part in [2^53]. *)
Lemma SFmul_rel (sx : bool) (mx : positive) (ex : Z)
    (sy : bool) (my : positive) (ey : Z) :
  2 ^ 52 <= Z.pos mx < 2 ^ 53 -> 2 ^ 52 <= Z.pos my < 2 ^ 53 ->
  -1074 <= ex + ey + 52 -> ex + ey + 54 <= emax - prec ->
  let e0 := ex + ey in
  exists (m : positive) (e : Z),
    SFmul prec emax (S754_finite sx mx ex) (S754_finite sy my ey)
    = S754_finite (xorb sx sy) m e
    /\ 2 ^ 52 <= Z.pos m < 2 ^ 53
    /\ e0 + 52 <= e <= e0 + 54
    /\ (2 ^ 53 - 1) * (Z.pos mx * Z.pos my) <= 2 ^ 53 * (Z.pos m * 2 ^ (e - e0))
    /\ 2 ^ 53 * (Z.pos m * 2 ^ (e - e0)) <= (2 ^ 53 + 1) * (Z.pos mx * Z.pos my).
Proof.
  intros Hmx Hmy Hlo Hhi e0. unfold SFmul.
  assert (Hprod : 2 ^ 104 <= Z.pos (mx * my) < 2 ^ 106).
  { rewrite Pos2Z.inj_mul.
    change (2 ^ 104) with (2 ^ 52 * 2 ^ 52).
    change (2 ^ 106) with (2 ^ 53 * 2 ^ 53). nia. }
  assert (Hd : 105 <= Zdigits2 (Z.pos (mx * my)) <= 106).
  { pose proof (Zdigits2_bounds (Z.pos (mx * my)) ltac:(lia)) as Hb.
    split.
    - destruct (Z.le_gt_cases 105 (Zdigits2 (Z.pos (mx * my)))); [done|].
      assert (2 ^ Zdigits2 (Z.pos (mx * my)) <= 2 ^ 104)
        by (apply Z.pow_le_mono_r; lia). lia.
    - destruct (Z.le_gt_cases (Zdigits2 (Z.pos (mx * my))) 106); [done|].
      assert (2 ^ 106 <= 2 ^ (Zdigits2 (Z.pos (mx * my)) - 1))
        by (apply Z.pow_le_mono_r; lia). lia. }
  destruct (binary_round_aux_rel (xorb sx sy) (Z.pos (mx * my)) e0 loc_Exact
              (Z.pos (mx * my)) 1)
    as (m & e & Er & Hm & He & Hl & Hh & _).
  - lia.
  - lia.
  - simpl. lia.
  - unfold Py.prec. lia.
  - unfold e0, Py.prec in *. lia.
  - unfold e0, Py.prec, Py.emax in *. lia.
  - exists m, e. rewrite Pos2Z.inj_mul in *.
    rewrite !Z.mul_1_r in Hl, Hh.
    split; [done|]. split; [done|]. split; [unfold Py.prec in *; lia|]. done.
Qed.

(** ** Conversion of an integer *)

Lemma pos_iter_xO (p k : positive) :
  Z.pos (Pos.iter xO p k) = Z.pos p * 2 ^ Z.pos k.
Proof.
  induction k as [|k IH] using Pos.peano_ind.
  - simpl. lia.
  - rewrite Pos.iter_succ, Pos2Z.inj_xO, IH, Pos2Z.inj_succ.
    rewrite Z.pow_succ_r by lia. ring.
Qed.

Lemma digits_le_53 (v : Z) : 0 < v < 2 ^ 53 -> Zdigits2 v <= 53.
Proof.
  intros Hv. pose proof (Zdigits2_bounds v ltac:(lia)) as Hb.
  destruct (Z.le_gt_cases (Zdigits2 v) 53); [done|].
  assert (2 ^ 53 <= 2 ^ (Zdigits2 v - 1)) by (apply Z.pow_le_mono_r; lia). lia.
Qed.

(** [float(v)] for a positive [v] below [2^53] is [v] itself. *)
Lemma binary_normalize_exact (v : Z) :
  0 < v < 2 ^ 53 ->
  exists (m : positive) (e : Z),
    binary_normalize prec emax v 0 false = S754_finite false m e
    /\ 2 ^ 52 <= Z.pos m < 2 ^ 53
    /\ -52 <= e <= 0
    /\ Z.pos m = v * 2 ^ (- e).
Proof.
  intros Hv. destruct v as [|p|p]; try lia.
  unfold binary_normalize, binary_round.
  pose proof (digits_le_53 _ Hv) as Hd53.
  pose proof (Zdigits2_bounds (Z.pos p) ltac:(lia)) as Hb.
  pose proof (Zdigits2_pos (Z.pos p) ltac:(lia)) as Hdpos.
  cbn [Zdigits2] in Hd53, Hb, Hdpos.
  set (d := Z.pos (digits2_pos p)) in *.
  assert (Efexp : fexp prec emax (d + 0) = d - 53)
    by (unfold fexp, emin, Py.prec, Py.emax; lia).
  rewrite Efexp. unfold shl_align. rewrite Z.sub_0_r.
  (* the aligned mantissa has 53 digits *)
  assert (Hal : exists mz : positive,
            (match d - 53 with
             | Z.neg k => (Pos.iter xO p k, d - 53)
             | _ => (p, 0)
             end) = (mz, d - 53)
            /\ Z.pos mz = Z.pos p * 2 ^ (53 - d)).
  { destruct (d - 53) as [|k|k] eqn:Ek; [| lia |].
    - exists p. split; [done|]. replace (53 - d) with 0 by lia. simpl. lia.
    - exists (Pos.iter xO p k). split; [done|].
      rewrite pos_iter_xO. f_equal. f_equal. lia. }
  destruct Hal as (mz & -> & Emz).
  assert (Hmz : 2 ^ 52 <= Z.pos mz < 2 ^ 53).
  { rewrite Emz. split.
    - replace 52 with ((d - 1) + (53 - d)) by lia.
      rewrite Z.pow_add_r by lia.
      apply Z.mul_le_mono_nonneg_r; [apply Z.pow_nonneg|]; lia.
    - replace 53 with (d + (53 - d)) at 2 by lia.
      rewrite Z.pow_add_r by lia.
      apply Z.mul_lt_mono_pos_r; [apply Z.pow_pos_nonneg|]; lia. }
  assert (Edz : Zdigits2 (Z.pos mz) = 53)
    by (apply Zdigits2_unique; [change (53 - 1) with 52|]; lia).
  destruct (binary_round_aux_rel false (Z.pos mz) (d - 53) loc_Exact
              (Z.pos mz) 1)
    as (m & e & Er & Hm & He & _ & _ & Hex).
  - lia.
  - lia.
  - simpl. lia.
  - rewrite Edz. unfold Py.prec. lia.
  - rewrite Edz. unfold Py.prec. lia.
  - rewrite Edz. unfold Py.prec, Py.emax. lia.
  - rewrite Edz in Hex, He. unfold Py.prec in He.
    specialize (Hex eq_refl eq_refl).
    assert (Ee : e = d - 53).
    { destruct (Z.eq_dec e (d - 53)) as [|Hne]; [done|].
      assert (2 ^ 1 <= 2 ^ (e - (d - 53))) by (apply Z.pow_le_mono_r; lia).
      change (2 ^ 1) with 2 in *. nia. }
    subst e. rewrite Z.sub_diag in Hex. change (2 ^ 0) with 1 in Hex.
    exists m, (d - 53). split; [exact Er|]. split; [exact Hm|].
    split; [lia|]. replace (- (d - 53)) with (53 - d) by lia. lia.
Qed.

(** [float(v)] for any larger [int] that the worker can meet: [v],
    within one part in [2^53]. *)
Lemma binary_normalize_rel (v : Z) :
  2 ^ 53 <= v < 2 ^ 64 ->
  exists (m : positive) (e : Z),
    binary_normalize prec emax v 0 false = S754_finite false m e
    /\ 2 ^ 52 <= Z.pos m < 2 ^ 53
    /\ 0 <= e <= 12
    /\ (2 ^ 53 - 1) * v <= 2 ^ 53 * (Z.pos m * 2 ^ e)
    /\ 2 ^ 53 * (Z.pos m * 2 ^ e) <= (2 ^ 53 + 1) * v.
Proof.
  intros Hv. destruct v as [|p|p]; try lia.
  unfold binary_normalize, binary_round.
  pose proof (Zdigits2_bounds (Z.pos p) ltac:(lia)) as Hb.
  cbn [Zdigits2] in Hb.
  set (d := Z.pos (digits2_pos p)) in *.
  assert (Hd : 54 <= d <= 64).
  { split.
    - destruct (Z.le_gt_cases 54 d); [done|].
      assert (2 ^ d <= 2 ^ 53) by (apply Z.pow_le_mono_r; lia). lia.
    - destruct (Z.le_gt_cases d 64); [done|].
      assert (2 ^ 64 <= 2 ^ (d - 1)) by (apply Z.pow_le_mono_r; lia). lia. }
  assert (Efexp : fexp prec emax (d + 0) = d - 53)
    by (unfold fexp, emin, Py.prec, Py.emax; lia).
  rewrite Efexp. unfold shl_align. rewrite Z.sub_0_r.
  destruct (d - 53) as [|k|k] eqn:Ek; try lia.
  destruct (binary_round_aux_rel false (Z.pos p) 0 loc_Exact (Z.pos p) 1)
    as (m & e & Er & Hm & He & Hlo & Hhi & _).
  - lia.
  - lia.
  - simpl. lia.
  - cbn [Zdigits2]. fold d. unfold Py.prec. lia.
  - cbn [Zdigits2]. fold d. unfold Py.prec. lia.
  - cbn [Zdigits2]. fold d. unfold Py.prec, Py.emax. lia.
  - exists m, e. rewrite Z.sub_0_r, !Z.mul_1_r in *.
    cbn [Zdigits2] in He. fold d in He. unfold Py.prec in He.
    split; [done|]. split; [done|]. split; [lia|]. done.
Qed.

(** ** Values *)

Local Open Scope Q_scope.

Lemma pow2_pos (e : Z) : 0 < 2 ^ e.
Proof. apply Qpower_0_lt. reflexivity. Qed.

Lemma pow2_split (e e0 : Z) :
  (e0 <= e)%Z -> 2 ^ e == inject_Z (2 ^ (e - e0)) * 2 ^ e0.
Proof.
  intros H. rewrite Zpower_Qpower by lia.
  rewrite <- Qpower_plus by discriminate.
  replace (e - e0 + e0)%Z with e by lia. reflexivity.
Qed.

(** From the integer form of a rounding bound to the rational one. *)
Lemma rel_to_Q (m : positive) (e e0 N D : Z) :
  (0 < D)%Z -> (e0 <= e)%Z ->
  ((2 ^ 53 - 1) * N <= 2 ^ 53 * (Z.pos m * 2 ^ (e - e0) * D))%Z ->
  (2 ^ 53 * (Z.pos m * 2 ^ (e - e0) * D) <= (2 ^ 53 + 1) * N)%Z ->
  let V := inject_Z (Z.pos m) * 2 ^ e in
  let X := inject_Z N / inject_Z D * 2 ^ e0 in
  (1 - u) * X <= V /\ V <= (1 + u) * X.
Proof.
  intros HD He Hlo Hhi V X.
  assert (EV : V == inject_Z (Z.pos m) * inject_Z (2 ^ (e - e0)) * 2 ^ e0).
  { unfold V. rewrite (pow2_split e e0 He). ring. }
  set (W := inject_Z (Z.pos m) * inject_Z (2 ^ (e - e0))) in *.
  pose proof (pow2_pos e0) as HT. set (T := 2 ^ e0) in *.
  assert (HB : 0 < inject_Z D) by (rewrite Zlt_Qlt in HD; exact HD).
  rewrite Zle_Qle in Hlo, Hhi.
  rewrite !inject_Z_mult in Hlo, Hhi. fold W in Hlo, Hhi.
  change (inject_Z (2 ^ 53 - 1)) with (9007199254740991 # 1) in *.
  change (inject_Z (2 ^ 53 + 1)) with (9007199254740993 # 1) in *.
  change (inject_Z (2 ^ 53)) with (9007199254740992 # 1) in *.
  set (A := inject_Z N) in *. set (B := inject_Z D) in *.
  assert (EA : A == A / B * B) by (field; lra).
  set (R := A / B) in *.
  assert (H1 : (1 - u) * R <= W).
  { apply (Qmult_le_r _ _ B HB). unfold u. 
    rewrite EA in Hlo. lra. }
  assert (H2 : W <= (1 + u) * R).
  { apply (Qmult_le_r _ _ B HB). unfold u.
    rewrite EA in Hhi. lra. }
  unfold X. rewrite EV. split.
  - rewrite Qmult_assoc. apply Qmult_le_compat_r; lra.
  - rewrite Qmult_assoc. apply Qmult_le_compat_r; lra.
Qed.

Lemma digits_53 (m : positive) :
  (2 ^ 52 <= Z.pos m < 2 ^ 53)%Z -> Zdigits2 (Z.pos m) = 53%Z.
Proof. intros H. apply Zdigits2_unique; [change (53 - 1)%Z with 52%Z|]; lia. Qed.

Lemma F2Q_pos (m : positive) (e : Z) : 0 < F2Q (S754_finite false m e).
Proof.
  unfold F2Q. pose proof (pow2_pos e).
  assert (0 < inject_Z (Z.pos m)) by reflexivity.
  rewrite Qmult_1_l. by apply Qmult_lt_0_compat.
Qed.

(** [x / y] on two positive doubles: the quotient, within [u]. *)
Lemma SFdiv_Q (mx : positive) (ex : Z) (my : positive) (ey : Z) :
  (2 ^ 52 <= Z.pos mx < 2 ^ 53)%Z -> (2 ^ 52 <= Z.pos my < 2 ^ 53)%Z ->
  (-1021 <= ex - ey <= 1022)%Z ->
  let x := S754_finite false mx ex in
  let y := S754_finite false my ey in
  exists (m : positive) (e : Z),
    SFdiv prec emax x y = S754_finite false m e
    /\ (2 ^ 52 <= Z.pos m < 2 ^ 53)%Z
    /\ (ex - ey - 53 <= e <= ex - ey - 51)%Z
    /\ (1 - u) * (F2Q x / F2Q y) <= F2Q (S754_finite false m e)
    /\ F2Q (S754_finite false m e) <= (1 + u) * (F2Q x / F2Q y).
Proof.
  intros Hmx Hmy Ht x y.
  pose proof (SFdiv_rel false mx ex false my ey) as H.
  rewrite (digits_53 mx Hmx), (digits_53 my Hmy) in H. cbn zeta in H.
  replace (53 + ex - (53 + ey))%Z with (ex - ey)%Z in H by lia.
  change (Z.max (prec - 53 + 53) 0) with 53%Z in H.
  destruct (H Ht) as (m & e & E & Hm & He & He0 & Hlo & Hhi).
  exists m, e. split; [exact E|]. split; [exact Hm|].
  split; [unfold Py.prec in He; lia|].
  destruct (rel_to_Q m e (ex - ey - 53) (Z.pos mx * 2 ^ 53) (Z.pos my)
              ltac:(lia) He0 Hlo Hhi) as [H1 H2].
  assert (EX : inject_Z (Z.pos mx * 2 ^ 53) / inject_Z (Z.pos my)
               * 2 ^ (ex - ey - 53) == F2Q x / F2Q y).
  { unfold x, y, F2Q. rewrite inject_Z_mult.
    replace (ex - ey - 53)%Z with (ex + (- ey + - (53)))%Z by lia.
    rewrite !Qpower_plus by discriminate. rewrite !Qpower_opp.
    change (inject_Z (2 ^ 53)) with (2 ^ 53).
    pose proof (pow2_pos ey). pose proof (pow2_pos 53).
    assert (0 < inject_Z (Z.pos my)) by reflexivity.
    field. repeat split; lra. }
  assert (EV : F2Q (S754_finite false m e) == inject_Z (Z.pos m) * 2 ^ e)
    by (unfold F2Q; ring).
  rewrite EV, <- EX. split; assumption.
Qed.

(** [x * y] on two positive doubles: the product, within [u]. *)
Lemma SFmul_Q (mx : positive) (ex : Z) (my : positive) (ey : Z) :
  (2 ^ 52 <= Z.pos mx < 2 ^ 53)%Z -> (2 ^ 52 <= Z.pos my < 2 ^ 53)%Z ->
  (-1126 <= ex + ey <= 917)%Z ->
  let x := S754_finite false mx ex in
  let y := S754_finite false my ey in
  exists (m : positive) (e : Z),
    SFmul prec emax x y = S754_finite false m e
    /\ (2 ^ 52 <= Z.pos m < 2 ^ 53)%Z
    /\ (ex + ey + 52 <= e <= ex + ey + 54)%Z
    /\ (1 - u) * (F2Q x * F2Q y) <= F2Q (S754_finite false m e)
    /\ F2Q (S754_finite false m e) <= (1 + u) * (F2Q x * F2Q y).
Proof.
  intros Hmx Hmy Ht x y.
  destruct (SFmul_rel false mx ex false my ey Hmx Hmy)
    as (m & e & E & Hm & He & Hlo & Hhi); [lia | unfold Py.prec, Py.emax; lia |].
  exists m, e. split; [exact E|]. split; [exact Hm|]. split; [exact He|].
  destruct (rel_to_Q m e (ex + ey) (Z.pos mx * Z.pos my) 1)
    as [H1 H2]; [lia | lia | lia | lia |].
  assert (EX : inject_Z (Z.pos mx * Z.pos my) / inject_Z 1 * 2 ^ (ex + ey)
               == F2Q x * F2Q y).
  { unfold x, y, F2Q. rewrite inject_Z_mult.
    rewrite Qpower_plus by discriminate.
    change (inject_Z 1) with 1. field. }
  assert (EV : F2Q (S754_finite false m e) == inject_Z (Z.pos m) * 2 ^ e)
    by (unfold F2Q; ring).
  rewrite EV, <- EX. split; assumption.
Qed.

(** [float(v)] for a positive [int] below [2^53]: [v] itself. *)
Lemma float_of_int_small (v : Z) :
  (0 < v < 2 ^ 53)%Z ->
  exists (m : positive) (e : Z),
    Py.float_of_int v = Ok (S754_finite false m e)
    /\ (2 ^ 52 <= Z.pos m < 2 ^ 53)%Z
    /\ (-52 <= e <= 0)%Z
    /\ F2Q (S754_finite false m e) == inject_Z v.
Proof.
  intros Hv. unfold Py.float_of_int.
  destruct (binary_normalize_exact v Hv) as (m & e & E & Hm & He & Em).
  exists m, e. rewrite E. split; [done|]. split; [done|]. split; [lia|].
  unfold F2Q. rewrite Em, inject_Z_mult, Zpower_Qpower by lia.
  rewrite Qpower_opp. change (inject_Z 2) with 2.
  pose proof (pow2_pos e). field. lra.
Qed.

(** [float(v)] for a positive [int] below [2^64]: [v], within [u]. *)
Lemma float_of_int_Q (v : Z) :
  (0 < v < 2 ^ 64)%Z ->
  exists (m : positive) (e : Z),
    Py.float_of_int v = Ok (S754_finite false m e)
    /\ (2 ^ 52 <= Z.pos m < 2 ^ 53)%Z
    /\ (-52 <= e <= 12)%Z
    /\ (1 - u) * inject_Z v <= F2Q (S754_finite false m e)
    /\ F2Q (S754_finite false m e) <= (1 + u) * inject_Z v.
Proof.
  intros Hv.
  assert (HV : 0 < inject_Z v) by (rewrite Zlt_Qlt in Hv; apply Hv).
  destruct (Z.lt_ge_cases v (2 ^ 53)) as [Hs|Hl].
  - destruct (float_of_int_small v ltac:(lia)) as (m & e & E & Hm & He & EV).
    exists m, e. split; [done|]. split; [done|]. split; [lia|].
    rewrite EV. unfold u. split; lra.
  - unfold Py.float_of_int.
    destruct (binary_normalize_rel v ltac:(lia))
      as (m & e & E & Hm & He & Hlo & Hhi).
    exists m, e. rewrite E. split; [done|]. split; [done|]. split; [lia|].
    destruct (rel_to_Q m e 0 v 1) as [H1 H2].
    + lia.
    + lia.
    + rewrite Z.sub_0_r, Z.mul_1_r. exact Hlo.
    + rewrite Z.sub_0_r, Z.mul_1_r. exact Hhi.
    + assert (EX : inject_Z v / inject_Z 1 * 2 ^ 0 == inject_Z v)
        by (change (inject_Z 1) with 1; change (2 ^ 0) with 1; field).
      assert (EV : F2Q (S754_finite false m e) == inject_Z (Z.pos m) * 2 ^ e)
        by (unfold F2Q; ring).
      rewrite EV, <- EX. split; assumption.
Qed.

(** [int(x)] on a positive double is the floor of its value. *)
Lemma int_of_float_floor (m : positive) (e : Z) :
  exists z : Z,
    Py.int_of_float (S754_finite false m e) = Ok z
    /\ inject_Z z <= F2Q (S754_finite false m e)
    /\ F2Q (S754_finite false m e) < inject_Z z + 1.
Proof.
  assert (EV : F2Q (S754_finite false m e) == inject_Z (Z.pos m) * 2 ^ e)
    by (unfold F2Q; ring).
  unfold Py.int_of_float.
  destruct (0 <=? e)%Z eqn:E.
  - apply Z.leb_le in E. eexists. split; [reflexivity|].
    rewrite EV, Z.shiftl_mul_pow2 by done.
    rewrite inject_Z_mult, Zpower_Qpower by done.
    change (inject_Z 2) with 2. split; lra.
  - apply Z.leb_gt in E. eexists. split; [reflexivity|].
    rewrite EV, Z.shiftr_div_pow2 by lia.
    assert (Hk : (0 < 2 ^ (- e))%Z) by (apply Z.pow_pos_nonneg; lia).
    pose proof (Z.div_mod (Z.pos m) (2 ^ (- e)) ltac:(lia)) as Hdm.
    pose proof (Z.mod_pos_bound (Z.pos m) (2 ^ (- e)) Hk) as Hr.
    set (z := (Z.pos m / 2 ^ (- e))%Z) in *.
    set (r := (Z.pos m mod 2 ^ (- e))%Z) in *.
    assert (EK : 2 ^ e == / inject_Z (2 ^ (- e))).
    { rewrite Zpower_Qpower by lia. rewrite Qpower_opp, Qinv_involutive.
      reflexivity. }
    rewrite EK, Hdm, inject_Z_plus, inject_Z_mult.
    assert (HK : 0 < inject_Z (2 ^ (- e))) by (rewrite Zlt_Qlt in Hk; apply Hk).
    assert (Hr0 : 0 <= inject_Z r) by (rewrite Zle_Qle in Hr; apply Hr).
    assert (Hr1 : inject_Z r < inject_Z (2 ^ (- e)))
      by (rewrite Zlt_Qlt in Hr; apply Hr).
    set (K := inject_Z (2 ^ (- e))) in *. set (R := inject_Z r) in *.
    set (Zq := inject_Z z) in *.
    assert (EQ : (K * Zq + R) * / K * K == K * Zq + R) by (field; lra).
    split.
    + apply (Qmult_le_r _ _ K HK). rewrite EQ. lra.
    + apply (Qmult_lt_r _ _ K HK). rewrite EQ. lra.
Qed.

(** The error of the four roundings of [volume / (capacity * 0.5) * 100]. *)
Lemma four_roundings (V C X Fv T R P Qq : Q) :
  0 < V -> 0 < C -> X * C == V -> R * T == Fv -> 0 < T ->
  (1 - u) * V <= Fv -> Fv <= (1 + u) * V ->
  (1 - u) * (C * (1 # 2)) <= T -> T <= (1 + u) * (C * (1 # 2)) ->
  (1 - u) * R <= Qq -> Qq <= (1 + u) * R ->
  (1 - u) * (Qq * 100) <= P -> P <= (1 + u) * (Qq * 100) ->
  (1 - (1 # 1125899906842624)) * (200 * X) <= P
  /\ P <= (1 + (1 # 1125899906842624)) * (200 * X).
Proof.
  unfold u. intros HV HC EX ER HT V1 V2 T1 T2 Q1 Q2 P1 P2.
  assert (HX : 0 < X).
  { destruct (Qlt_le_dec 0 X) as [|HX]; [done|].
    assert (X * C <= 0 * C) by (apply Qmult_le_compat_r; lra). lra. }
  assert (XT1 : X * ((1 - (1 # 9007199254740992)) * (C * (1 # 2))) <= X * T)
    by (apply Qmult_le_l; lra).
  assert (XT2 : X * T <= X * ((1 + (1 # 9007199254740992)) * (C * (1 # 2))))
    by (apply Qmult_le_l; lra).
  assert (R1 : 2 * (1 - (2 # 9007199254740992)) * X <= R).
  { apply (Qmult_le_r _ _ T HT). lra. }
  assert (R2 : R <= 2 * (1 + (3 # 9007199254740992)) * X).
  { apply (Qmult_le_r _ _ T HT). lra. }
  split; lra.
Qed.

Lemma F2Q_half : F2Q Py.half == 1 # 2.
Proof. reflexivity. Qed.

Lemma float_of_int_100 :
  Py.float_of_int 100 = Ok (S754_finite false 7036874417766400 (-46)).
Proof. vm_compute. reflexivity. Qed.

Lemma F2Q_100 : F2Q (S754_finite false 7036874417766400 (-46)) == 100.
Proof. reflexivity. Qed.

(** The score of [/scores] for a venue that sold something. *)
Lemma scaled_score_positive (capacity volume : Z) :
  (0 < capacity < 2 ^ 31)%Z -> (0 < volume < 2 ^ 63)%Z ->
  exists z : Z,
    Scores.scaled_score capacity volume = Ok (Z.min 100 (Z.max 0 z))
    /\ (1 - (1 # 1125899906842624))
         * (200 * (inject_Z volume / inject_Z capacity)) < inject_Z z + 1
    /\ inject_Z z
         <= (1 + (1 # 1125899906842624))
            * (200 * (inject_Z volume / inject_Z capacity)).
Proof.
  intros Hc Hv. unfold Scores.scaled_score, Py.int_mul_float.
  destruct (float_of_int_small capacity) as (mc & ec & Ec & Hmc & Hec & EC);
    [lia|].
  rewrite Ec. cbn [rbind]. unfold Py.float_mul.
  destruct (SFmul_Q mc ec 4503599627370496 (-53))
    as (mt & et & Et & Hmt & Het & T1 & T2); [lia | lia | lia |].
  change (S754_finite false 4503599627370496 (-53)) with Py.half in *.
  rewrite Et. cbn [rbind].
  change (Py.float_gt0 (S754_finite false mt et)) with true. cbn match.
  unfold Py.int_truediv_float.
  destruct (float_of_int_Q volume) as (mv & ev & Ev & Hmv & Hev & V1 & V2);
    [lia|].
  rewrite Ev. cbn [rbind]. unfold Py.float_truediv. cbn [Py.is_zero].
  destruct (SFdiv_Q mv ev mt et)
    as (mq & eq & Eq & Hmq & Heq & Q1 & Q2); [lia | lia | lia |].
  rewrite Eq. cbn [rbind]. unfold Py.float_mul_int.
  rewrite float_of_int_100. cbn [rbind]. unfold Py.float_mul.
  destruct (SFmul_Q mq eq 7036874417766400 (-46))
    as (mp & ep & Ep & Hmp & Hep & P1 & P2); [lia | lia | lia |].
  rewrite Ep.
  destruct (int_of_float_floor mp ep) as (z & Ez & Z1 & Z2).
  rewrite Ez. cbn [rbind]. exists z. split; [reflexivity|].
  rewrite F2Q_100 in P1, P2. rewrite F2Q_half, EC in T1, T2.
  pose proof (F2Q_pos mt et) as HT.
  assert (HV : 0 < inject_Z volume) by (rewrite Zlt_Qlt in Hv; apply Hv).
  assert (HC : 0 < inject_Z capacity) by (rewrite Zlt_Qlt in Hc; apply Hc).
  destruct (four_roundings (inject_Z volume) (inject_Z capacity)
              (inject_Z volume / inject_Z capacity)
              (F2Q (S754_finite false mv ev)) (F2Q (S754_finite false mt et))
              (F2Q (S754_finite false mv ev) / F2Q (S754_finite false mt et))
              (F2Q (S754_finite false mp ep)) (F2Q (S754_finite false mq eq)))
    as [L U]; try assumption.
  - field. lra.
  - field. lra.
  - split; lra.
Qed.

(** ** Signs *)

Lemma binary_normalize_neg (p : positive) :
  binary_normalize prec emax (Z.neg p) 0 false
  = SFopp (binary_normalize prec emax (Z.pos p) 0 false).
Proof.
  unfold binary_normalize, binary_round, binary_round_aux.
  destruct (shl_align p 0 _) as [mz ez].
  destruct (shr_fexp prec emax (Z.pos mz) ez loc_Exact) as [mrs e'].
  destruct (shr_fexp prec emax _ e' loc_Exact) as [mrs' e''].
  destruct (shr_m mrs') as [|m|m]; [done | | done].
  by destruct (e'' <=? emax - prec)%Z.
Qed.

(** [float(v)] for a negative [int] above [-2^64]. *)
Lemma float_of_int_neg (v : Z) :
  (- 2 ^ 64 < v < 0)%Z ->
  exists (m : positive) (e : Z),
    Py.float_of_int v = Ok (S754_finite true m e)
    /\ (2 ^ 52 <= Z.pos m < 2 ^ 53)%Z
    /\ (-52 <= e <= 12)%Z.
Proof.
  intros Hv. destruct v as [|p|p]; try lia.
  destruct (float_of_int_Q (Z.pos p)) as (m & e & E & Hm & He & _); [lia|].
  exists m, e. split; [|done].
  unfold Py.float_of_int in *. rewrite binary_normalize_neg.
  destruct (binary_normalize prec emax (Z.pos p) 0 false); try discriminate.
  by injection E as -> -> ->.
Qed.

(** Quotient and product of two normal doubles of any sign. *)
Lemma SFdiv_shape (sx : bool) (mx : positive) (ex : Z)
    (sy : bool) (my : positive) (ey : Z) :
  (2 ^ 52 <= Z.pos mx < 2 ^ 53)%Z -> (2 ^ 52 <= Z.pos my < 2 ^ 53)%Z ->
  (-1021 <= ex - ey <= 1022)%Z ->
  exists (m : positive) (e : Z),
    SFdiv prec emax (S754_finite sx mx ex) (S754_finite sy my ey)
    = S754_finite (xorb sx sy) m e
    /\ (2 ^ 52 <= Z.pos m < 2 ^ 53)%Z
    /\ (ex - ey - 53 <= e <= ex - ey - 51)%Z.
Proof.
  intros Hmx Hmy Ht.
  pose proof (SFdiv_rel sx mx ex sy my ey) as H.
  rewrite (digits_53 mx Hmx), (digits_53 my Hmy) in H. cbn zeta in H.
  replace (53 + ex - (53 + ey))%Z with (ex - ey)%Z in H by lia.
  destruct (H Ht) as (m & e & E & Hm & He & _).
  exists m, e. split; [exact E|]. split; [exact Hm|].
  unfold Py.prec in He. lia.
Qed.

Lemma SFmul_shape (sx : bool) (mx : positive) (ex : Z)
    (sy : bool) (my : positive) (ey : Z) :
  (2 ^ 52 <= Z.pos mx < 2 ^ 53)%Z -> (2 ^ 52 <= Z.pos my < 2 ^ 53)%Z ->
  (-1126 <= ex + ey <= 917)%Z ->
  exists (m : positive) (e : Z),
    SFmul prec emax (S754_finite sx mx ex) (S754_finite sy my ey)
    = S754_finite (xorb sx sy) m e
    /\ (2 ^ 52 <= Z.pos m < 2 ^ 53)%Z.
Proof.
  intros Hmx Hmy Ht.
  destruct (SFmul_rel sx mx ex sy my ey Hmx Hmy)
    as (m & e & E & Hm & _); [lia | unfold Py.prec, Py.emax; lia |].
  by exists m, e.
Qed.

(** [int(x)] on a negative double is not positive. *)
Lemma int_of_float_neg (m : positive) (e : Z) :
  exists z : Z,
    Py.int_of_float (S754_finite true m e) = Ok z /\ (z <= 0)%Z.
Proof.
  unfold Py.int_of_float. eexists. split; [reflexivity|].
  destruct (0 <=? e)%Z eqn:E.
  - apply Z.leb_le in E. rewrite Z.shiftl_mul_pow2 by done.
    pose proof (Z.pow_nonneg 2 e). nia.
  - apply Z.leb_gt in E. rewrite Z.shiftr_div_pow2 by lia.
    assert (0 <= Z.pos m / 2 ^ (- e))%Z; [|lia].
    apply Z.div_pos; [lia|]. apply Z.pow_pos_nonneg; lia.
Qed.

(** The score of [/scores] when the window sums to less than nothing. *)
Lemma scaled_score_negative (capacity volume : Z) :
  (0 < capacity < 2 ^ 31)%Z -> (- 2 ^ 63 <= volume < 0)%Z ->
  Scores.scaled_score capacity volume = Ok 0%Z.
Proof.
  intros Hc Hv. unfold Scores.scaled_score, Py.int_mul_float.
  destruct (float_of_int_small capacity) as (mc & ec & Ec & Hmc & Hec & _);
    [lia|].
  rewrite Ec. cbn [rbind]. unfold Py.float_mul.
  destruct (SFmul_Q mc ec 4503599627370496 (-53))
    as (mt & et & Et & Hmt & Het & _); [lia | lia | lia |].
  change (S754_finite false 4503599627370496 (-53)) with Py.half in *.
  rewrite Et. cbn [rbind].
  change (Py.float_gt0 (S754_finite false mt et)) with true. cbn match.
  unfold Py.int_truediv_float.
  destruct (float_of_int_neg volume) as (mv & ev & Ev & Hmv & Hev); [lia|].
  rewrite Ev. cbn [rbind]. unfold Py.float_truediv. cbn [Py.is_zero].
  destruct (SFdiv_shape true mv ev false mt et)
    as (mq & eq & Eq & Hmq & Heq); [lia | lia | lia |].
  rewrite Eq. cbn [rbind xorb]. unfold Py.float_mul_int.
  rewrite float_of_int_100. cbn [rbind]. unfold Py.float_mul.
  destruct (SFmul_shape true mq eq false 7036874417766400 (-46))
    as (mp & ep & Ep & Hmp); [lia | lia | lia |].
  rewrite Ep. cbn [xorb].
  destruct (int_of_float_neg mp ep) as (z & Ez & Hz).
  rewrite Ez. cbn [rbind]. f_equal. lia.
Qed.

(** The score of [/scores] when the window is empty of sales. *)
Lemma scaled_score_zero (capacity : Z) :
  (0 < capacity < 2 ^ 31)%Z -> Scores.scaled_score capacity 0 = Ok 0%Z.
Proof.
  intros Hc. unfold Scores.scaled_score, Py.int_mul_float.
  destruct (float_of_int_small capacity) as (mc & ec & Ec & Hmc & Hec & _);
    [lia|].
  rewrite Ec. cbn [rbind]. unfold Py.float_mul.
  destruct (SFmul_Q mc ec 4503599627370496 (-53))
    as (mt & et & Et & Hmt & Het & _); [lia | lia | lia |].
  change (S754_finite false 4503599627370496 (-53)) with Py.half in *.
  rewrite Et. reflexivity.
Qed.

(** The score of [/scores], in integers: the floor of
    [200 * volume / capacity] between 0 and 100, or one less when the
    division is exact. *)
Lemma scaled_score_floor (capacity volume : Z) :
  (0 < capacity < 2 ^ 31)%Z -> (- 2 ^ 63 <= volume < 2 ^ 63)%Z ->
  let E := Z.min 100 (Z.max 0 (200 * volume / capacity)) in
  exists s : Z,
    Scores.scaled_score capacity volume = Ok s
    /\ (s = E \/ (s = (E - 1)%Z /\ ((200 * volume) mod capacity = 0)%Z)).
Proof.
  intros Hc Hv E.
  destruct (Z.lt_trichotomy volume 0) as [Hneg | [-> | Hpos]].
  - exists 0%Z. split; [apply scaled_score_negative; lia|]. left.
    assert (200 * volume / capacity < 0)%Z
      by (apply Z.div_lt_upper_bound; lia).
    unfold E. lia.
  - exists 0%Z. split; [by apply scaled_score_zero|]. left.
    unfold E. rewrite Z.mul_0_r, Z.div_0_l by lia. reflexivity.
  - destruct (scaled_score_positive capacity volume Hc ltac:(lia))
      as (z & Ez & L & U).
    eexists. split; [exact Ez|].
    pose proof (Z.div_mod (200 * volume) capacity ltac:(lia)) as Hdm.
    pose proof (Z.mod_pos_bound (200 * volume) capacity ltac:(lia)) as Hr.
    assert (Hn : (0 <= 200 * volume / capacity)%Z)
      by (apply Z.div_pos; lia).
    set (n := (200 * volume / capacity)%Z) in *.
    set (r := ((200 * volume) mod capacity)%Z) in *.
    assert (HC : 0 < inject_Z capacity) by (rewrite Zlt_Qlt in Hc; apply Hc).
    assert (HC' : inject_Z capacity <= 2147483648 - 1).
    { assert (capacity <= 2147483647)%Z as Hle by lia.
      rewrite Zle_Qle in Hle. exact Hle. }
    assert (EX : 200 * (inject_Z volume / inject_Z capacity)
                 == inject_Z n + inject_Z r / inject_Z capacity).
    { assert (Hq : inject_Z (200 * volume)
                   == inject_Z (capacity * n + r)) by (by rewrite <- Hdm).
      rewrite inject_Z_plus, !inject_Z_mult in Hq.
      change (inject_Z 200) with 200 in Hq.
      assert (EV : 200 * (inject_Z volume / inject_Z capacity)
                   == 200 * inject_Z volume / inject_Z capacity)
        by (field; lra).
      rewrite EV, Hq. field. lra. }
    rewrite EX in L, U.
    assert (Hr0 : 0 <= inject_Z r) by (rewrite Zle_Qle in Hr; apply Hr).
    assert (Hn0 : 0 <= inject_Z n) by (rewrite Zle_Qle in Hn; apply Hn).
    assert (Hr1 : inject_Z r / inject_Z capacity <= 1 - (1 # 2147483648)).
    { apply Qle_shift_div_r; [done|].
      assert (r + 1 <= capacity)%Z as Hle by lia.
      rewrite Zle_Qle in Hle. rewrite inject_Z_plus in Hle.
      change (inject_Z 1) with 1 in Hle. lra. }
    assert (Hr2 : 0 <= inject_Z r / inject_Z capacity).
    { apply Qle_shift_div_l; [done|]. lra. }
    set (rho := inject_Z r / inject_Z capacity) in *.
    destruct (Z.le_gt_cases 101 n) as [Hbig | Hsmall].
    + (* saturated *)
      left. assert (100 <= z)%Z; [|unfold E; lia].
      assert (Hq : 101 <= inject_Z n)
        by (rewrite Zle_Qle in Hbig; exact Hbig).
      assert (inject_Z 100 < inject_Z z + 1) as Hlt.
      { change (inject_Z 100) with 100. lra. }
      change 1 with (inject_Z 1) in Hlt. rewrite <- inject_Z_plus in Hlt.
      rewrite <- Zlt_Qlt in Hlt. lia.
    + assert (Hq : inject_Z n <= 100).
      { assert (n <= 100)%Z as Hle by lia. rewrite Zle_Qle in Hle.
        exact Hle. }
      assert (Hzn : (z <= n)%Z).
      { assert (inject_Z z < inject_Z n + 1) as Hlt by lra.
        change 1 with (inject_Z 1) in Hlt. rewrite <- inject_Z_plus in Hlt.
        rewrite <- Zlt_Qlt in Hlt. lia. }
      destruct (Z.eq_dec r 0%Z) as [Hr0' | Hrpos].
      * (* the division is exact *)
        assert (0 < n)%Z by nia.
        assert (Hnz : (n - 1 <= z)%Z).
        { assert (inject_Z n < inject_Z z + 1 + 1) as Hlt by lra.
          change 1 with (inject_Z 1) in Hlt.
          rewrite <- !inject_Z_plus in Hlt.
          rewrite <- Zlt_Qlt in Hlt. lia. }
        unfold E. destruct (Z.eq_dec z n); [left; lia | right; lia].
      * left. assert (Hnz : (n <= z)%Z); [|unfold E; lia].
        assert (Hrho : (1 # 2147483648) <= rho).
        { apply Qle_shift_div_l; [done|].
          assert (1 <= r)%Z as Hle by lia. rewrite Zle_Qle in Hle.
          change (inject_Z 1) with 1 in Hle. lra. }
        assert (inject_Z n < inject_Z z + 1) as Hlt by lra.
        change 1 with (inject_Z 1) in Hlt. rewrite <- inject_Z_plus in Hlt.
        rewrite <- Zlt_Qlt in Hlt. lia.
Qed.

End Rounding.

(* ===================================================================== *)
(** * Properties of the score query boundary *)
(* ===================================================================== *)

Module ScoresFacts.
Import Scores.

Lemma all_zero_fold (vs : list DB.Venue) (m : gmap string Z) (k : string) :
  fold_left (fun m v => <[DB.v_id v := 0]> m) vs m !! k
  = if bool_decide (k ∈ map DB.v_id vs) then Some 0 else m !! k.
Proof.
  revert m. induction vs as [|v vs IH]; intros m.
  - done.
  - cbn [fold_left map]. rewrite IH. destruct (decide (k ∈ map DB.v_id vs)) as [Hin|Hin].
    + rewrite !bool_decide_eq_true_2; [done | by right | done].
    + rewrite (bool_decide_eq_false_2 _ Hin).
      destruct (decide (k = DB.v_id v)) as [->|Hne].
      * rewrite lookup_insert_eq.
        rewrite bool_decide_eq_true_2; [done | by left].
      * rewrite lookup_insert_ne by done.
        rewrite bool_decide_eq_false_2; [done |].
        intros [?|?]%elem_of_cons; done.
Qed.

Lemma all_zero_lookup (vs : list DB.Venue) (k : string) :
  all_zero vs !! k = if bool_decide (k ∈ map DB.v_id vs) then Some 0 else None.
Proof. unfold all_zero. by rewrite all_zero_fold, lookup_empty. Qed.

Lemma max_timestamp_empty (db : DB.t) :
  DB.transactions db = [] -> DB.max_timestamp db = None.
Proof. unfold DB.max_timestamp. by intros ->. Qed.

(** C10.  With no persisted transaction, [get_scores] answers 0 for every
    venue (and has no other key), and the only statements it sends are
    the listing of the venues and the [MAX(timestamp)] one: no per-venue
    window statement. *)
Theorem get_scores_no_transactions (db : DB.t) :
  DB.transactions db = [] ->
  exists scores,
    get_scores db = ([QVenuesAll; QVirtualNow], Ok scores)
    /\ (forall v, v ∈ DB.venues db -> scores !! DB.v_id v = Some 0)
    /\ (forall k s, scores !! k = Some s ->
          s = 0 /\ exists v, v ∈ DB.venues db /\ DB.v_id v = k).
Proof.
  intros Hempty. exists (all_zero (DB.venues db)).
  unfold get_scores. rewrite (max_timestamp_empty db Hempty).
  split; [reflexivity|]. split.
  - intros v Hv. rewrite all_zero_lookup.
    rewrite bool_decide_eq_true_2; [done|].
    apply list_elem_of_fmap. by exists v.
  - intros k s. rewrite all_zero_lookup. case_bool_decide as Hin; [|done].
    intros [= <-]. split; [done|].
    apply list_elem_of_fmap in Hin as (v & -> & Hv). by exists v.
Qed.

Lemma venue_entry_no_capacity (db : DB.t) (virtual_now : Z) (v : DB.Venue) :
  DB.v_capacity v <= 0 -> venue_entry db virtual_now v = ([], Ok 0).
Proof.
  intros H. unfold venue_entry.
  by rewrite (proj2 (Z.leb_le _ _) H).
Qed.

Lemma venue_entry_capacity (db : DB.t) (virtual_now : Z) (v : DB.Venue) :
  0 < DB.v_capacity v ->
  snd (venue_entry db virtual_now v)
  = scaled_score (DB.v_capacity v)
                 (window_volume db (DB.v_id v) virtual_now).
Proof.
  intros H. unfold venue_entry.
  by rewrite (proj2 (Z.leb_gt _ _) H).
Qed.

(** The loop stores each venue's entry under its id. *)
Lemma score_loop_lookup (db : DB.t) (virtual_now : Z) (vs : list DB.Venue)
    (acc : gmap string Z) :
  NoDup (map DB.v_id vs) ->
  (forall v, v ∈ vs -> is_ok (snd (venue_entry db virtual_now v)) = true) ->
  exists scores,
    snd (score_loop db virtual_now vs acc) = Ok scores
    /\ (forall v s, v ∈ vs ->
          snd (venue_entry db virtual_now v) = Ok s ->
          scores !! DB.v_id v = Some s)
    /\ (forall k, k ∉ map DB.v_id vs -> scores !! k = acc !! k).
Proof.
  revert acc. induction vs as [|v vs IH]; intros acc Hnd Hok.
  - exists acc. split; [done|]. split; [|done].
    intros v s Hv. by apply elem_of_nil in Hv.
  - cbn [map] in Hnd. apply NoDup_cons in Hnd as [Hfresh Hnd].
    pose proof (Hok v (list_elem_of_here _ _)) as Hv.
    cbn [score_loop].
    destruct (venue_entry db virtual_now v) as [qs [s|e]] eqn:Ev;
      [|discriminate].
    destruct (IH (<[DB.v_id v := s]> acc) Hnd) as (scores & El & Hin & Hout).
    { intros w Hw. apply Hok. by apply list_elem_of_further. }
    destruct (score_loop db virtual_now vs _) as [qs' r].
    simpl in El. subst r. exists scores. split; [done|]. split.
    + intros w sw Hw Hsw. apply elem_of_cons in Hw as [-> | Hw].
      * rewrite Ev in Hsw. injection Hsw as <-.
        rewrite Hout by done. by rewrite lookup_insert_eq.
      * by apply Hin.
    + intros k Hk. cbn [map] in Hk. apply not_elem_of_cons in Hk as [Hne Hk].
      rewrite Hout by done. by rewrite lookup_insert_ne.
Qed.


Lemma scaled_score_scenario : scaled_score 100 25 = Ok 50.
Proof. vm_compute. reflexivity. Qed.

(** The lower value occurs: 29 sold at capacity 200 is
    [29 / 100.0 * 100], the double [28.999999999999996]. *)
Lemma scaled_score_below_exact : scaled_score 200 29 = Ok 28.
Proof. vm_compute. reflexivity. Qed.

(** C1, as the code has it.  [/scores] on a store with transactions: for
    every venue whose capacity is positive (and fits the 32-bit column)
    and whose window sum fits 64 bits, the score stored under the venue's
    id is
    [floor(100 * sum / (capacity * 0.5))] kept between 0 and 100, that is
    [200 * sum / capacity] rounded down, or one less than that, which can
    only happen when [200 * sum] is an exact multiple of the capacity.
    For capacity 100 and window sum 25 it is 50. *)
Theorem get_scores_floor (db : DB.t) (virtual_now : Z) :
  DB.max_timestamp db = Some virtual_now ->
  NoDup (map DB.v_id (DB.venues db)) ->
  (forall v, v ∈ DB.venues db ->
     DB.v_capacity v < 2 ^ 31
     /\ - 2 ^ 63 <= window_volume db (DB.v_id v) virtual_now < 2 ^ 63) ->
  exists scores,
    snd (get_scores db) = Ok scores
    /\ forall v, v ∈ DB.venues db -> 0 < DB.v_capacity v ->
         let capacity := DB.v_capacity v in
         let volume := window_volume db (DB.v_id v) virtual_now in
         let floor := Z.min 100 (Z.max 0 (200 * volume / capacity)) in
         exists s,
           scores !! DB.v_id v = Some s
           /\ (s = floor
               \/ (s = floor - 1 /\ (200 * volume) mod capacity = 0))
           /\ (capacity = 100 -> volume = 25 -> s = 50).
Proof.
  intros Hnow Hnd Hrange.
  assert (Hentry : forall v, v ∈ DB.venues db -> 0 < DB.v_capacity v ->
            exists s,
              snd (venue_entry db virtual_now v) = Ok s
              /\ (s = Z.min 100 (Z.max 0
                        (200 * window_volume db (DB.v_id v) virtual_now
                         / DB.v_capacity v))
                  \/ (s = Z.min 100 (Z.max 0
                        (200 * window_volume db (DB.v_id v) virtual_now
                         / DB.v_capacity v)) - 1
                      /\ (200 * window_volume db (DB.v_id v) virtual_now)
                         mod DB.v_capacity v = 0))).
  { intros v Hv Hc. destruct (Hrange v Hv) as [Hc' Hvol].
    rewrite venue_entry_capacity by done.
    apply Rounding.scaled_score_floor; [lia | done]. }
  destruct (score_loop_lookup db virtual_now (DB.venues db) ∅ Hnd)
    as (scores & El & Hin & _).
  { intros v Hv. destruct (Z.le_gt_cases (DB.v_capacity v) 0) as [Hc|Hc].
    - by rewrite venue_entry_no_capacity.
    - destruct (Hentry v Hv Hc) as (s & -> & _). reflexivity. }
  exists scores. split.
  - unfold get_scores. rewrite Hnow.
    destruct (score_loop db virtual_now (DB.venues db) ∅) as [qs r].
    exact El.
  - intros v Hv Hc capacity volume floor.
    destruct (Hentry v Hv Hc) as (s & Es & Hs).
    exists s. split; [by apply Hin|]. split; [exact Hs|].
    intros E100 E25. rewrite venue_entry_capacity in Es by done.
    fold capacity volume in Es. rewrite E100, E25 in Es.
    rewrite scaled_score_scenario in Es. by injection Es.
Qed.

Import Sample.

Lemma get_scores_no_transactions_witness :
  DB.transactions (DB.mk seeded_venues []) = []
  /\ exists scores,
       get_scores (DB.mk seeded_venues []) = ([QVenuesAll; QVirtualNow], Ok scores)
       /\ (forall v, v ∈ DB.venues (DB.mk seeded_venues []) ->
             scores !! DB.v_id v = Some 0)
       /\ (forall k s, scores !! k = Some s ->
             s = 0 /\ exists v, v ∈ DB.venues (DB.mk seeded_venues [])
                                /\ DB.v_id v = k).
Proof.
  split; [reflexivity|].
  apply (get_scores_no_transactions (DB.mk seeded_venues [])). reflexivity.
Defined.

Lemma get_scores_floor_witness :
  exists scores,
    snd (get_scores scenario) = Ok scores /\ scores !! joe = Some 50.
Proof.
  assert (Hnow : DB.max_timestamp scenario = Some nine_pm) by reflexivity.
  assert (Hnd : NoDup (map DB.v_id (DB.venues scenario)))
    by apply NoDup_singleton.
  assert (Hrange : forall v, v ∈ DB.venues scenario ->
            DB.v_capacity v < 2 ^ 31
            /\ - 2 ^ 63 <= window_volume scenario (DB.v_id v) nine_pm
               < 2 ^ 63).
  { intros v Hv. apply list_elem_of_singleton in Hv. subst v.
    vm_compute. repeat split; discriminate. }
  destruct (get_scores_floor scenario nine_pm Hnow Hnd Hrange)
    as (scores & E & Hall).
  exists scores. split; [exact E|].
  destruct (Hall (DB.mkVenue joe "Joe Kool's" 100 "secret_joe"))
    as (s & Es & _ & H50).
  - apply list_elem_of_here.
  - reflexivity.
  - cbn [DB.v_id] in Es. rewrite Es. f_equal. apply H50; reflexivity.
Defined.

(** C1 as stated fails: two sold at a venue of capacity 150 make
    [200 * 2 / 150], 2.67, which the rule rounds to 3 and [/scores] cuts
    to 2. *)
Lemma scores_cut_not_rounded :
  exists scores,
    snd (get_scores quiet_night) = Ok scores
    /\ scores !! joe = Some 2
    /\ Spec.score 150 2 = 3.
Proof.
  eexists. split; [vm_compute; reflexivity|].
  split; vm_compute; reflexivity.
Qed.

End ScoresFacts.

(* ===================================================================== *)
(** * Properties of the worker's score *)
(* ===================================================================== *)

Module HotnessFacts.
Import Hotness Sample.

Lemma hotness_no_capacity (total_txns : Z) : hotness 0 total_txns = Ok 0.
Proof. reflexivity. Qed.

(** The worker divides by the whole capacity: 25 sold at capacity 100 is
    scored 25. *)
Lemma hotness_unscaled : hotness 100 25 = Ok 25.
Proof. vm_compute. reflexivity. Qed.

(** C5.  A venue without capacity in [/scores]: capacity zero or below
    gives the entry 0 and no window statement, hence no division.  In the
    worker only capacity zero is set apart: a venue whose capacity is
    [-10] with 5 sold in the window is divided like any other and
    scored [-50]. *)
Theorem worker_divides_by_negative_capacity :
  calculate_hotness negative_capacity nine_pm joe = Ok (-50)
  /\ snd (Scores.get_scores negative_capacity) = Ok {[ joe := 0 ]}
  /\ (forall total_txns, hotness 0 total_txns = Ok 0)
  /\ (forall db virtual_now v,
        DB.v_capacity v <= 0 ->
        Scores.venue_entry db virtual_now v = ([], Ok 0)).
Proof.
  split; [vm_compute; reflexivity|].
  split; [vm_compute; reflexivity|].
  split; [reflexivity|].
  intros db virtual_now v. apply ScoresFacts.venue_entry_no_capacity.
Qed.

End HotnessFacts.

(* ===================================================================== *)
(** * Properties of [ensure_group] *)
(* ===================================================================== *)

Module GroupFacts.
Import Worker.

Lemma group_of_with_streams key grp (s : Redis.stream) (r : Redis.t) :
  Redis.group_of key grp (Redis.with_streams (insert key s) r)
  = Redis.groups s !! grp.
Proof.
  unfold Redis.group_of, Redis.with_streams; simpl.
  by rewrite lookup_insert_eq.
Qed.

Lemma ensure_group_absent (r : Redis.t) :
  Redis.group_of STREAM_KEY GROUP_NAME r = None ->
  exists r1,
    ensure_group r = (r1, Ok tt)
    /\ Redis.group_of STREAM_KEY GROUP_NAME r1 = Some (Redis.mkGroup "0" ∅)
    /\ Redis.stream_entries STREAM_KEY r1 = Redis.stream_entries STREAM_KEY r.
Proof.
  unfold ensure_group, Redis.xgroup_create, Redis.group_of, Redis.stream_entries.
  destruct (Redis.streams r !! STREAM_KEY) as [s|] eqn:Hs.
  - intros Hg. rewrite Hg. eexists. split; [reflexivity|].
    simpl. rewrite lookup_insert_eq. simpl.
    by rewrite lookup_insert_eq.
  - intros _. eexists. split; [reflexivity|].
    simpl. rewrite lookup_insert_eq. simpl.
    by rewrite lookup_singleton_eq.
Qed.

Lemma ensure_group_present (r : Redis.t) (g : Redis.group) :
  Redis.group_of STREAM_KEY GROUP_NAME r = Some g ->
  ensure_group r = (r, Ok tt).
Proof.
  unfold ensure_group, Redis.xgroup_create, Redis.group_of.
  destruct (Redis.streams r !! STREAM_KEY) as [s|]; [|done].
  intros ->. reflexivity.
Qed.

(** C9.  [ensure_group] never raises on a reachable store; an absent
    group is created at the start of the stream (cursor ["0"], nothing
    pending, the entries untouched); an existing group makes the call a
    no-op, cursor included; and a second call changes nothing. *)
Theorem ensure_group_idempotent (r : Redis.t) :
  exists r1,
    ensure_group r = (r1, Ok tt)
    /\ ensure_group r1 = (r1, Ok tt)
    /\ match Redis.group_of STREAM_KEY GROUP_NAME r with
       | None =>
           Redis.group_of STREAM_KEY GROUP_NAME r1
           = Some (Redis.mkGroup "0" ∅)
           /\ Redis.stream_entries STREAM_KEY r1
              = Redis.stream_entries STREAM_KEY r
       | Some g => r1 = r
       end.
Proof.
  destruct (Redis.group_of STREAM_KEY GROUP_NAME r) as [g|] eqn:Hg.
  - exists r. pose proof (ensure_group_present r g Hg) as H. auto.
  - destruct (ensure_group_absent r Hg) as (r1 & H1 & H2 & H3).
    exists r1. split; [done|]. split; [|done].
    by apply (ensure_group_present r1 _ H2).
Qed.

End GroupFacts.

(* ===================================================================== *)
(** * Properties of the signature *)
(* ===================================================================== *)

Module HexFacts.
Import Hex.

Lemma undigit_digit (n : N) : (n < 16)%N -> undigit (digit n) = n.
Proof.
  intros H. destruct n as [|p]; [reflexivity|].
  do 4 (try (destruct p as [p|p|]; try reflexivity)); lia.
Qed.

Lemma hex_inj (a b : string) : hex a = hex b -> a = b.
Proof.
  revert b. induction a as [|c a IH]; intros [|d b]; try discriminate.
  - reflexivity.
  - cbn [hex]. intros [= Hhi Hlo Hrest]. f_equal; [|by apply IH].
    apply (f_equal undigit) in Hhi, Hlo.
    pose proof (N_ascii_bounded c) as Hc. pose proof (N_ascii_bounded d) as Hd.
    rewrite !undigit_digit in Hhi, Hlo
      by (try (apply N.mod_lt; lia); apply N.Div0.div_lt_upper_bound; lia).
    rewrite <- (ascii_N_embedding c), <- (ascii_N_embedding d). f_equal.
    rewrite (N.div_mod (N_of_ascii c) 16), (N.div_mod (N_of_ascii d) 16) by lia.
    congruence.
Qed.

End HexFacts.

(* ===================================================================== *)
(** * Properties of the ingestion boundary *)
(* ===================================================================== *)

Module IngestFacts.
Import Ingest.

Lemma stream_entries_xadd key id fields (r : Redis.t) :
  Redis.stream_entries key (Redis.xadd key id fields r)
  = Redis.stream_entries key r ++ [(id, fields)].
Proof.
  unfold Redis.stream_entries, Redis.xadd, Redis.with_streams; simpl.
  rewrite lookup_insert_eq. simpl.
  by destruct (Redis.streams r !! key).
Qed.

Section Facts.

Variable parse_payload : string -> option IngestionPayload.
Variable hmac_sha256 : string -> string -> string.
Variable isoformat : Z -> string.
Variable utf8_decode : string -> option string.

Local Abbreviation ingest_data :=
  (Ingest.ingest_data parse_payload hmac_sha256 isoformat utf8_decode).
Local Abbreviation sign := (Ingest.sign hmac_sha256).
Local Abbreviation verify := (Ingest.verify hmac_sha256).
Local Abbreviation stream_data := (Ingest.stream_data isoformat).

Lemma digit_isascii (n : N) : (N_of_ascii (Hex.digit n) <? 128)%N = true.
Proof.
  destruct n as [|p]; [reflexivity|].
  do 4 (try destruct p as [p|p|]); reflexivity.
Qed.

(** A hexadecimal digest is an ASCII text. *)
Lemma hex_isascii (bytes : string) : isascii (Hex.hex bytes) = true.
Proof.
  unfold isascii. induction bytes as [|c rest IH]; [reflexivity|].
  cbn [Hex.hex list_ascii_of_string forallb].
  by rewrite !digit_isascii, IH.
Qed.

Lemma verify_iff (x body secret : string) :
  verify x body secret = Ok true <-> x = sign secret body.
Proof.
  unfold Ingest.verify, Ingest.compare_digest, Ingest.sign, Ingest.hexdigest.
  rewrite hex_isascii. cbn [andb]. split.
  - destruct (isascii x); [|done]. intros [= H].
    apply String.eqb_eq in H. congruence.
  - intros ->. by rewrite hex_isascii, String.eqb_refl.
Qed.

(** The signature of a body under a secret is accepted for that body and
    that secret. *)
Lemma verify_sign (body secret : string) :
  verify (sign secret body) body secret = Ok true.
Proof. by apply verify_iff. Qed.

(** Any other signature is refused if it is an ASCII text; the
    comparison raises on any other. *)
Lemma verify_other_signature (x body secret : string) :
  x <> sign secret body ->
  verify x body secret
  = if isascii x then Ok false
    else Raise "TypeError: comparing strings with non-ASCII characters is not supported".
Proof.
  intros H. unfold Ingest.verify, Ingest.compare_digest, Ingest.hexdigest.
  rewrite hex_isascii. cbn [andb]. destruct (isascii x); [|done].
  rewrite (proj2 (String.eqb_neq _ _)); [done|].
  intros E. apply H. by rewrite <- E.
Qed.

(** A signature made for one body is accepted for another exactly when
    the two bodies have the same MAC under the secret. *)
Lemma verify_other_body (body body' secret : string) :
  verify (sign secret body) body' secret = Ok true
  <-> hmac_sha256 secret body' = hmac_sha256 secret body.
Proof.
  rewrite verify_iff. unfold Ingest.sign, Ingest.hexdigest. split.
  - intros H. symmetry. by apply HexFacts.hex_inj.
  - by intros ->.
Qed.

(** The checks of [ingest_data] in the order the code makes them: no
    signature header (or an empty one) is answered 401; then a body
    that is not a valid payload 400; then an unknown venue 404; then a
    signature that is not the venue's signature of the body 403 if it
    is an ASCII text, and 500 if it is not.  In each of these cases the
    store is returned as it was.  The stream changes only with the
    answer [Queued], and then by exactly the one appended entry. *)
Lemma ingest_data_rejects_without_side_effects
    (x_signature : option string) (body : string) (db : DB.t)
    (queue : result string) (r : Redis.t) :
  let out := ingest_data x_signature body db queue r in
  (x_signature = None \/ x_signature = Some ""%string ->
     out = (r, HTTPException 401 "Missing X-Signature header"))
  /\ (forall x, x_signature = Some x -> x <> ""%string ->
        (parse_payload body = None ->
           out = (r, HTTPException 400 "Invalid JSON or Schema"))
        /\ (forall payload, parse_payload body = Some payload ->
              (DB.venue_by_id db (venue_id payload) = None ->
                 out = (r, HTTPException 404 "Venue not found"))
              /\ (forall venue,
                    DB.venue_by_id db (venue_id payload) = Some venue ->
                    (x <> sign (DB.v_secret_key_hash venue) body ->
                       out = (r, if isascii x
                                 then HTTPException 403 "Invalid Signature"
                                 else HTTPException 500
                                        "Internal Server Error"))
                    /\ (x = sign (DB.v_secret_key_hash venue) body ->
                        forall raw id,
                          utf8_decode body = Some raw -> queue = Ok id ->
                          out = (Redis.xadd "stream:incoming_txns" id
                                   (stream_data payload raw) r, Queued)))))
  /\ (snd out <> Queued -> fst out = r)
  /\ (snd out = Queued ->
        exists id fields,
          queue = Ok id
          /\ Redis.stream_entries "stream:incoming_txns" (fst out)
             = Redis.stream_entries "stream:incoming_txns" r
               ++ [(id, fields)]).
Proof.
  unfold Ingest.ingest_data. cbn zeta.
  repeat split.
  - intros [->| ->]; reflexivity.
  - intros Hp. subst. apply String.eqb_neq in H0. rewrite H0, Hp. reflexivity.
  - intros Hv. subst. apply String.eqb_neq in H0. rewrite H0, H1, Hv.
    reflexivity.
  - intros Hx. subst. apply String.eqb_neq in H0. rewrite H0, H1, H2.
    rewrite (verify_other_signature _ _ _ Hx). by destruct (isascii x).
  - intros Hx raw id Hraw Hq. subst x_signature.
    apply String.eqb_neq in H0. rewrite H0, H1, H2.
    apply verify_iff in Hx. rewrite Hx, Hraw, Hq. reflexivity.
  - destruct x_signature as [x|]; [|done].
    destruct (String.eqb x ""); [done|].
    destruct (parse_payload body); [|done].
    destruct (DB.venue_by_id db _); [|done].
    destruct (verify _ _ _) as [[|]|]; [|done|done].
    destruct (utf8_decode body); [|done].
    destruct queue; [|done]. simpl. congruence.
  - destruct x_signature as [x|]; [|done].
    destruct (String.eqb x ""); [done|].
    destruct (parse_payload body) as [payload|]; [|done].
    destruct (DB.venue_by_id db _); [|done].
    destruct (verify _ _ _) as [[|]|]; [|done|done].
    destruct (utf8_decode body) as [raw|]; [|done].
    destruct queue as [id|]; [|done]. simpl. intros _.
    exists id, (stream_data payload raw). split; [done|].
    apply stream_entries_xadd.
Qed.

(** C7, where the code leaves it.  A signature with a character beyond
    ASCII, on a body that is a valid payload for a known venue, is not
    answered with the 403 of a bad signature: [hmac.compare_digest]
    raises, and the answer is 500.  The stream is not touched. *)
Theorem non_ascii_signature_is_a_server_error
    (x : string) (body : string) (db : DB.t) (queue : result string)
    (r : Redis.t) (payload : IngestionPayload) (venue : DB.Venue) :
  isascii x = false ->
  parse_payload body = Some payload ->
  DB.venue_by_id db (venue_id payload) = Some venue ->
  ingest_data (Some x) body db queue r
  = (r, HTTPException 500 "Internal Server Error").
Proof.
  intros Hx Hp Hv. unfold Ingest.ingest_data.
  destruct (String.eqb_spec x "") as [->|_]; [done|].
  rewrite Hp, Hv.
  unfold Ingest.verify, Ingest.compare_digest. rewrite Hx.
  by rewrite andb_false_r.
Qed.

End Facts.

(** The header [X-Signature: é], on the sample body signed for Joe
    Kool's, with the store as [init_db] leaves it. *)
Lemma non_ascii_signature_is_a_server_error_witness :
  Ingest.ingest_data Fixtures.parse_payload Fixtures.mac
    Fixtures.isoformat Sample.utf8_decode
    (Some (String "195" (String "169" ""))) Fixtures.body
    (Worker.db Fixtures.idle) (Ok Sample.entry) (Worker.rds Fixtures.idle)
  = (Worker.rds Fixtures.idle,
     HTTPException 500 "Internal Server Error").
Proof.
  apply (non_ascii_signature_is_a_server_error Fixtures.parse_payload
           Fixtures.mac Fixtures.isoformat Sample.utf8_decode
           (String "195" (String "169" "")) Fixtures.body
           (Worker.db Fixtures.idle) (Ok Sample.entry)
           (Worker.rds Fixtures.idle) Fixtures.payload
           (DB.mkVenue Sample.joe "Joe Kool's" 150 "secret_joe")).
  - vm_compute. reflexivity.
  - vm_compute. reflexivity.
  - vm_compute. reflexivity.
Defined.

End IngestFacts.

(* ===================================================================== *)
(** * Properties of the worker *)
(* ===================================================================== *)

Module WorkerFacts.
Import Worker.

Local Open Scope string_scope.

(** ** What is observed of a world *)

Definition dlq (r : Redis.t) : list json :=
  default [] (Redis.lists r !! DLQ_KEY).

Definition is_pending (id : text) (r : Redis.t) : bool :=
  Redis.redeliverable STREAM_KEY GROUP_NAME (wire id) r.

(** Two stores that agree on the dead-letter list, the stream, the ids
    acknowledged and one integer key. *)
Definition same_queue (key : string) (r r' : Redis.t) : Prop :=
  Redis.lists r' !! DLQ_KEY = Redis.lists r !! DLQ_KEY
  /\ Redis.streams r' !! STREAM_KEY = Redis.streams r !! STREAM_KEY
  /\ Redis.ints r' !! key = Redis.ints r !! key
  /\ Redis.acked r' = Redis.acked r.

Lemma same_queue_refl key r : same_queue key r r.
Proof. by repeat split. Qed.

Lemma same_queue_trans key r1 r2 r3 :
  same_queue key r1 r2 -> same_queue key r2 r3 -> same_queue key r1 r3.
Proof.
  intros (?&?&?&?) (?&?&?&?). repeat split; congruence.
Qed.

Lemma same_queue_dlq key r r' : same_queue key r r' -> dlq r' = dlq r.
Proof. intros (H&_). unfold dlq. by rewrite H. Qed.

Lemma same_queue_pending key r r' :
  same_queue key r r' ->
  Redis.pending STREAM_KEY GROUP_NAME r' = Redis.pending STREAM_KEY GROUP_NAME r.
Proof. intros (_&H&_). unfold Redis.pending. by rewrite H. Qed.

Lemma same_queue_is_pending key id r r' :
  same_queue key r r' -> is_pending id r' = is_pending id r.
Proof.
  intros H. unfold is_pending, Redis.redeliverable.
  by rewrite (same_queue_pending _ _ _ H).
Qed.

Lemma venue_key_not_retry a b c : "venue:" ++ a ++ c <> "retry:" ++ b.
Proof. discriminate. Qed.

Lemma same_queue_set key v score r :
  key <> "venue:" ++ v ++ ":score" ->
  same_queue key r (Redis.set ("venue:" ++ v ++ ":score") score r).
Proof.
  intros Hne. unfold same_queue, Redis.set; simpl.
  rewrite !lookup_delete_ne by discriminate.
  rewrite lookup_insert_ne by congruence. done.
Qed.

Lemma same_queue_publish key ch m r :
  same_queue key r (Redis.publish ch m r).
Proof. by repeat split. Qed.

(** ** Redis commands on the queue *)

Lemma pending_xack id r :
  Redis.pending STREAM_KEY GROUP_NAME (Redis.xack STREAM_KEY GROUP_NAME id r)
  = Redis.pending STREAM_KEY GROUP_NAME r ∖ {[id]}.
Proof.
  unfold Redis.pending, Redis.xack.
  destruct (Redis.streams r !! STREAM_KEY) as [s|] eqn:Hs;
    [|rewrite Hs; set_solver].
  destruct (Redis.groups s !! GROUP_NAME) as [g|] eqn:Hg;
    [|rewrite Hs, Hg; set_solver].
  case_bool_decide as Hin.
  - simpl. rewrite lookup_insert_eq. simpl. by rewrite lookup_insert_eq.
  - rewrite Hs, Hg. set_solver.
Qed.

Lemma acked_xack id r :
  Redis.acked (Redis.xack STREAM_KEY GROUP_NAME id r)
  = (Redis.acked r
     ++ if Redis.redeliverable STREAM_KEY GROUP_NAME id r then [id] else [])%list.
Proof.
  unfold Redis.redeliverable, Redis.pending, Redis.xack.
  destruct (Redis.streams r !! STREAM_KEY) as [s|] eqn:Hs.
  2: { rewrite bool_decide_eq_false_2 by apply not_elem_of_empty.
       by rewrite app_nil_r. }
  destruct (Redis.groups s !! GROUP_NAME) as [g|] eqn:Hg.
  2: { rewrite bool_decide_eq_false_2 by apply not_elem_of_empty.
       by rewrite app_nil_r. }
  case_bool_decide; [done | by rewrite app_nil_r].
Qed.

Lemma lists_xack key grp id r :
  Redis.lists (Redis.xack key grp id r) = Redis.lists r.
Proof.
  unfold Redis.xack. destruct (Redis.streams r !! key) as [s|]; [|done].
  destruct (Redis.groups s !! grp); [|done]. by case_bool_decide.
Qed.

Lemma ints_xack key grp id r :
  Redis.ints (Redis.xack key grp id r) = Redis.ints r.
Proof.
  unfold Redis.xack. destruct (Redis.streams r !! key) as [s|]; [|done].
  destruct (Redis.groups s !! grp); [|done]. by case_bool_decide.
Qed.

Lemma pending_delete key r :
  key <> STREAM_KEY ->
  Redis.pending STREAM_KEY GROUP_NAME (Redis.delete key r)
  = Redis.pending STREAM_KEY GROUP_NAME r.
Proof.
  intros Hne. unfold Redis.pending, Redis.delete; simpl.
  by rewrite lookup_delete_ne.
Qed.

Lemma pending_with_ints f r :
  Redis.pending STREAM_KEY GROUP_NAME (Redis.with_ints f r)
  = Redis.pending STREAM_KEY GROUP_NAME r.
Proof. reflexivity. Qed.

Lemma pending_lpush key x r :
  Redis.pending STREAM_KEY GROUP_NAME (Redis.lpush key x r)
  = Redis.pending STREAM_KEY GROUP_NAME r.
Proof. reflexivity. Qed.

(** ** Stepping through a program *)

Lemma bind_raise {A B} (m : prog A) (k : A -> prog B) st st' e :
  bind m k st = (st', Raise e) ->
  m st = (st', Raise e)
  \/ exists a st1, m st = (st1, Ok a) /\ k a st1 = (st', Raise e).
Proof.
  unfold bind. destruct (m st) as [st1 [a|e1]]; intros H.
  - right. exists a, st1. by split.
  - injection H as -> ->. by left.
Qed.

Lemma on_redis_ok f st st' (res : result unit) :
  on_redis f st = (st', res) ->
  res = Ok tt /\ st' = mkState (store st) (session_new st) (f (redis st)).
Proof. unfold on_redis. by intros [= <- <-]. Qed.

(** A program whose start and end stores are related by [R], whatever
    it returns. *)
Definition keeps {A} (R : relation Redis.t) (m : prog A) : Prop :=
  forall st st' res, m st = (st', res) -> R (redis st) (redis st').

Section Keeps.

Variable R : relation Redis.t.
Hypothesis R_refl : forall r, R r r.
Hypothesis R_trans : forall r1 r2 r3, R r1 r2 -> R r2 r3 -> R r1 r3.

Lemma keeps_lift {A} (r : result A) : keeps R (lift r).
Proof. intros st st' res [= <- _]. apply R_refl. Qed.

Lemma keeps_external {A} fl c (m : prog A) :
  keeps R m -> keeps R (external fl c m).
Proof.
  intros Hm st st' res. unfold external. destruct (fl c).
  - intros [= <- _]. apply R_refl.
  - apply Hm.
Qed.

Lemma keeps_bind {A B} (m : prog A) (k : A -> prog B) :
  keeps R m -> (forall a, keeps R (k a)) -> keeps R (bind m k).
Proof.
  intros Hm Hk st st' res. unfold bind.
  destruct (m st) as [st1 [a|e]] eqn:E.
  - intros H. eapply R_trans; [by eapply Hm | by eapply Hk].
  - intros [= <- _]. by eapply Hm.
Qed.

Lemma keeps_db_add x : keeps R (db_add x).
Proof. intros st st' res [= <- _]. apply R_refl. Qed.

Lemma keeps_db_commit fl : keeps R (db_commit fl).
Proof.
  apply keeps_external. intros st st' res.
  destruct (rows_of (store st) (session_new st));
    intros [= <- _]; apply R_refl.
Qed.

Lemma keeps_calculate_hotness fl utcnow v :
  keeps R (calculate_hotness fl utcnow v).
Proof.
  apply keeps_external. intros st st' res.
  destruct v; intros [= <- _]; apply R_refl.
Qed.

Lemma keeps_on_redis f : (forall r, R r (f r)) -> keeps R (on_redis f).
Proof. intros Hf st st' res [_ ->]%on_redis_ok. apply Hf. Qed.

End Keeps.

(** Two stores with the same dead-letter list. *)
Definition same_dlq (r r' : Redis.t) : Prop :=
  Redis.lists r' !! DLQ_KEY = Redis.lists r !! DLQ_KEY.

Lemma same_dlq_trans r1 r2 r3 : same_dlq r1 r2 -> same_dlq r2 r3 -> same_dlq r1 r3.
Proof. unfold same_dlq. congruence. Qed.

Section Facts.

Variable utf8_decode : string -> option string.
Variable parse_int : text -> option Z.
Variable fromisoformat : string -> option Z.
Variable repr_bytes : string -> string.
Variable str_message : message -> string.

Local Abbreviation retry_key := (Worker.retry_key repr_bytes).
Local Abbreviation new_txn_of :=
  (Worker.new_txn_of utf8_decode parse_int fromisoformat).
Local Abbreviation try_to_ack :=
  (Worker.try_to_ack utf8_decode parse_int fromisoformat).
Local Abbreviation try_block :=
  (Worker.try_block utf8_decode parse_int fromisoformat repr_bytes).
Local Abbreviation except_block :=
  (Worker.except_block repr_bytes str_message).
Local Abbreviation handle_poison_pill :=
  (Worker.handle_poison_pill str_message).
Local Abbreviation process_message :=
  (Worker.process_message utf8_decode parse_int fromisoformat repr_bytes
     str_message).

Definition retries (id : text) (r : Redis.t) : option Z :=
  Redis.ints r !! retry_key id.

(** The record [handle_poison_pill] writes for a [str] id. *)
Definition record_of (s : string) (msg : message) (e : exn) : json :=
  [("id", JStr s); ("message", JStr (str_message msg)); ("error", JStr e)].

(** Two stores with the same dead-letter list and the same retry counter
    for [id]. *)
Definition same_books (id : text) (r r' : Redis.t) : Prop :=
  same_dlq r r' /\ retries id r' = retries id r.

(** *** The [try] block *)

(** What the [try] block leaves in the store, by the stage it reaches:
    nothing until the commit goes through, the row from then on. *)
Lemma try_block_store fl utcnow id msg d r :
  let st' := fst (try_block fl utcnow id msg (mkState d [] r)) in
  DB.venues (store st') = DB.venues d
  /\ DB.transactions (store st')
     = match new_txn_of msg with
       | Raise _ => DB.transactions d
       | Ok x =>
           match fl Commit, row_of d x with
           | None, Some row => (DB.transactions d ++ [row])%list
           | _, _ => DB.transactions d
           end
       end.
Proof.
  unfold Worker.try_block, Worker.try_to_ack, bind, lift, db_add, db_commit,
    calculate_hotness, external, on_redis. cbn zeta.
  destruct (new_txn_of msg) as [x|e]; simpl; [|done].
  destruct (fl Commit); simpl; [done|].
  destruct (row_of d x) as [row|]; simpl; [|done].
  destruct (fl Query); simpl; [done|].
  destruct (match n_venue_id x with
            | Some v => _ | None => _ end) as [st1 [score|e]] eqn:E.
  - assert (st1 = mkState (DB.mk (DB.venues d) (DB.transactions d ++ [row]))
                    [] r) as ->
      by (destruct (n_venue_id x); congruence).
    destruct (fl SetScore); simpl; [done|].
    destruct (fl Publish); simpl; [done|].
    destruct (fl Xack); simpl; [done|].
    destruct (fl Delete); simpl; done.
  - assert (st1 = mkState (DB.mk (DB.venues d) (DB.transactions d ++ [row]))
                    [] r) as ->
      by (destruct (n_venue_id x); congruence).
    done.
Qed.

(** What every step of the [try] block up to the acknowledgment keeps,
    the block keeps. *)
Section TryKeeps.

Variable R : relation Redis.t.
Hypothesis R_refl : forall r, R r r.
Hypothesis R_trans : forall r1 r2 r3, R r1 r2 -> R r2 r3 -> R r1 r3.
Variable id : text.
Hypothesis R_set : forall v score r, R r (Redis.set (score_key v) score r).
Hypothesis R_publish : forall ch m r, R r (Redis.publish ch m r).
Hypothesis R_xack :
  forall r, R r (Redis.xack STREAM_KEY GROUP_NAME (wire id) r).

Lemma try_to_ack_keeps fl utcnow msg :
  keeps R (try_to_ack fl utcnow id msg).
Proof.
  unfold Worker.try_to_ack.
  apply (keeps_bind _ R_trans); [apply (keeps_lift _ R_refl)|]. intros x.
  cbn zeta.
  apply (keeps_bind _ R_trans); [apply (keeps_db_add _ R_refl)|]. intros _.
  apply (keeps_bind _ R_trans); [apply (keeps_db_commit _ R_refl)|]. intros _.
  apply (keeps_bind _ R_trans); [apply (keeps_calculate_hotness _ R_refl)|].
  intros score.
  apply (keeps_bind _ R_trans).
  { apply (keeps_external _ R_refl), keeps_on_redis. intros r. apply R_set. }
  intros _. apply (keeps_bind _ R_trans).
  { apply (keeps_external _ R_refl), keeps_on_redis. intros r.
    apply R_publish. }
  intros _. apply (keeps_external _ R_refl), keeps_on_redis. intros r.
  apply R_xack.
Qed.

End TryKeeps.

(** A [try] block that raises before the acknowledgment has gone through
    has not touched the dead-letter list, the stream, the
    acknowledgments or the retry counter. *)
Lemma try_to_ack_raise_frame fl utcnow id msg st st1 e :
  try_to_ack fl utcnow id msg st = (st1, Raise e) ->
  same_queue (retry_key id) (redis st) (redis st1).
Proof.
  intros H. unfold Worker.try_to_ack in H.
  set (k := retry_key id) in *.
  pose proof (same_queue_refl k) as Hrefl.
  pose proof (same_queue_trans k) as Htrans.
  assert (Hk : forall v, k <> score_key v)
    by (intros v; unfold k, Worker.retry_key, score_key; discriminate).
  apply bind_raise in H as [H | (x & s1 & H1 & H)];
    [by eapply (keeps_lift _ Hrefl)|].
  apply (keeps_lift _ Hrefl) in H1.
  eapply same_queue_trans; [exact H1|]. clear H1. cbn zeta in H.
  apply bind_raise in H as [H | (? & s2 & H1 & H)];
    [by eapply (keeps_db_add _ Hrefl)|].
  apply (keeps_db_add _ Hrefl) in H1.
  eapply same_queue_trans; [exact H1|]. clear H1.
  apply bind_raise in H as [H | (? & s3 & H1 & H)];
    [by eapply (keeps_db_commit _ Hrefl)|].
  apply (keeps_db_commit _ Hrefl) in H1.
  eapply same_queue_trans; [exact H1|]. clear H1.
  apply bind_raise in H as [H | (score & s4 & H1 & H)];
    [by eapply (keeps_calculate_hotness _ Hrefl)|].
  apply (keeps_calculate_hotness _ Hrefl) in H1.
  eapply same_queue_trans; [exact H1|]. clear H1.
  assert (Hset : keeps (same_queue k)
            (external fl SetScore
               (on_redis (Redis.set (score_key (n_venue_id x)) score)))).
  { apply (keeps_external _ Hrefl), keeps_on_redis.
    intros r. apply same_queue_set, Hk. }
  apply bind_raise in H as [H | (? & s5 & H1 & H)]; [by eapply Hset|].
  apply Hset in H1.
  eapply same_queue_trans; [exact H1|]. clear H1 Hset.
  match type of H with
  | bind ?m _ _ = _ =>
      assert (Hpub : keeps (same_queue k) m)
        by (apply (keeps_external _ Hrefl), keeps_on_redis;
            intros r; apply same_queue_publish)
  end.
  apply bind_raise in H as [H | (? & s6 & H1 & H)]; [by eapply Hpub|].
  apply Hpub in H1.
  eapply same_queue_trans; [exact H1|]. clear H1 Hpub.
  unfold external in H. destruct (fl Xack).
  - injection H as <- _. apply same_queue_refl.
  - by apply on_redis_ok in H as [? _].
Qed.

(** The [try] block raises before the acknowledgment has gone through,
    or in the clearing of the retry counter, which is then refused. *)
Lemma try_block_raise fl utcnow id msg st st1 e :
  try_block fl utcnow id msg st = (st1, Raise e) ->
  try_to_ack fl utcnow id msg st = (st1, Raise e)
  \/ (try_to_ack fl utcnow id msg st = (st1, Ok tt) /\ fl Delete = Some e).
Proof.
  intros H. unfold Worker.try_block in H.
  apply bind_raise in H as [H | ([] & s1 & H1 & H)]; [by left|].
  right. unfold external in H. destruct (fl Delete) as [e'|].
  - injection H as <- <-. by split.
  - by apply on_redis_ok in H as [? _].
Qed.

(** The [try] block never touches the dead-letter list. *)
Lemma try_block_dlq fl utcnow id msg :
  keeps same_dlq (try_block fl utcnow id msg).
Proof.
  assert (Hrefl : forall r, same_dlq r r) by done.
  pose proof same_dlq_trans as Htrans.
  unfold Worker.try_block.
  apply (keeps_bind _ Htrans).
  { apply (try_to_ack_keeps _ Hrefl Htrans).
    - intros v score r. unfold same_dlq, Redis.set, score_key; simpl.
      by rewrite lookup_delete_ne by discriminate.
    - by intros ch m r.
    - intros r. unfold same_dlq. by rewrite lists_xack. }
  intros _. apply (keeps_external _ Hrefl), keeps_on_redis. intros r.
  unfold same_dlq, Redis.delete; simpl.
  by rewrite lookup_delete_ne by discriminate.
Qed.

(** A [try] block that raises has left the dead-letter list and the
    retry counter as they were. *)
Lemma try_block_raise_books fl utcnow id msg st st1 e :
  try_block fl utcnow id msg st = (st1, Raise e) ->
  same_books id (redis st) (redis st1).
Proof.
  intros H.
  assert (Hkeeps : keeps (same_books id) (try_to_ack fl utcnow id msg)).
  { apply try_to_ack_keeps; unfold same_books, same_dlq, retries.
    - done.
    - intros r1 r2 r3 [H1 H1'] [H2 H2']. split; congruence.
    - intros v score r. unfold Redis.set, score_key; simpl.
      rewrite lookup_delete_ne by discriminate.
      by rewrite lookup_insert_ne
        by (unfold Worker.retry_key; destruct v; discriminate).
    - done.
    - intros r. by rewrite lists_xack, ints_xack. }
  apply try_block_raise in H as [H | [H _]]; by apply Hkeeps in H.
Qed.

(** *** The [except] block *)

Lemma retry_key_not_dlq id : retry_key id <> DLQ_KEY.
Proof. discriminate. Qed.

Lemma retry_key_not_stream id : retry_key id <> STREAM_KEY.
Proof. discriminate. Qed.

(** What the [except] block makes of the state, by the calls that are
    refused, the retry counter [c] it finds and the kind of id. *)
Lemma except_block_spec fl id msg e st :
  let c := default 0 (retries id (redis st)) in
  let r1 := Redis.with_ints (insert (retry_key id) (c + 1)%Z) (redis st) in
  except_block fl id msg e st
  = match fl Rollback with
    | Some e1 => (st, Raise e1)
    | None =>
    match fl Incr with
    | Some e2 => (mkState (store st) [] (redis st), Raise e2)
    | None =>
    if (c + 1 <=? MAX_RETRIES)%Z then (mkState (store st) [] r1, Ok tt)
    else
    match id with
    | Bytes _ =>
        (mkState (store st) [] r1,
         Raise "TypeError: Object of type bytes is not JSON serializable")
    | Str s =>
    match fl Lpush with
    | Some e3 => (mkState (store st) [] r1, Raise e3)
    | None =>
    let r2 := Redis.lpush DLQ_KEY (record_of s msg e) r1 in
    match fl XackPoison with
    | Some e4 => (mkState (store st) [] r2, Raise e4)
    | None =>
    let r3 := Redis.xack STREAM_KEY GROUP_NAME s r2 in
    match fl DeleteRetry with
    | Some e5 => (mkState (store st) [] r3, Raise e5)
    | None => (mkState (store st) [] (Redis.delete (retry_key id) r3), Ok tt)
    end end end end end end.
Proof.
  unfold Worker.except_block, db_rollback, redis_incr, Redis.incr, retries,
    Worker.handle_poison_pill, dead_letter, bind, lift, external, on_redis,
    ret.
  cbn zeta.
  destruct (fl Rollback); [done|].
  destruct (fl Incr); [done|]. simpl.
  set (c := default 0 (Redis.ints (redis st) !! retry_key id)).
  rewrite Z.gtb_ltb.
  destruct (Z.leb_spec (c + 1) MAX_RETRIES) as [Hle|Hgt];
    destruct (Z.ltb_spec MAX_RETRIES (c + 1)) as [Hlt|Hge]; try lia.
  - reflexivity.
  - destruct id as [b|s]; [reflexivity|]. simpl.
    destruct (fl Lpush); [done|]. simpl.
    destruct (fl XackPoison); [done|]. simpl.
    by destruct (fl DeleteRetry).
Qed.

(** The [except] block leaves the store as it finds it. *)
Lemma except_block_store fl id msg e st :
  store (fst (except_block fl id msg e st)) = store st.
Proof.
  rewrite except_block_spec. cbn zeta.
  destruct (fl Rollback); [done|]. destruct (fl Incr); [done|].
  destruct (_ <=? _)%Z; [done|]. destruct id; [done|].
  destruct (fl Lpush); [done|]. destruct (fl XackPoison); [done|].
  by destruct (fl DeleteRetry).
Qed.

(** *** One delivery that fails *)

(** The delivery fails with [e] before the entry is acknowledged: the
    [try] block raises [e] in one of its steps up to the [XACK]. *)
Definition fails_with (fl : faults) (utcnow : Z) (id : text)
    (msg : message) (w : world) (e : exn) : Prop :=
  snd (try_to_ack fl utcnow id msg (mkState (db w) [] (rds w))) = Raise e.

(** The failure is counted: the rollback and the [INCR] of the [except]
    block go through. *)
Definition counted (fl : faults) : Prop :=
  fl Rollback = None /\ fl Incr = None.

(** The calls of the quarantine go through: the [LPUSH] and the [XACK]
    of [handle_poison_pill], and the [DEL] of the retry counter. *)
Definition quarantine_runs (fl : faults) : Prop :=
  fl Lpush = None /\ fl XackPoison = None /\ fl DeleteRetry = None.

Lemma process_message_fails fl utcnow id msg w e :
  fails_with fl utcnow id msg w e ->
  exists st1,
    same_queue (retry_key id) (rds w) (redis st1)
    /\ process_message fl utcnow id msg w
       = (let '(st2, res) := except_block fl id msg e st1 in
          (mkWorld (store st2) (redis st2), res)).
Proof.
  unfold fails_with. intros Hraise.
  unfold Worker.process_message, Worker.try_block, bind.
  destruct (try_to_ack fl utcnow id msg _) as [st1 res] eqn:Htry.
  simpl in Hraise. subst res. exists st1. split; [|reflexivity].
  by apply (try_to_ack_raise_frame _ _ _ _ _ _ _ Htry).
Qed.

(** Within the limit, or when the rollback or the [INCR] is refused:
    nothing of the queue moves, whatever else the environment refuses. *)
Lemma failed_delivery_pending fl utcnow id msg w e :
  fails_with fl utcnow id msg w e ->
  (default 0 (retries id (rds w)) + 1 <= MAX_RETRIES)%Z
  \/ fl Rollback <> None \/ fl Incr <> None ->
  let w' := fst (process_message fl utcnow id msg w) in
  dlq (rds w') = dlq (rds w)
  /\ is_pending id (rds w') = is_pending id (rds w)
  /\ Redis.acked (rds w') = Redis.acked (rds w).
Proof.
  intros Hf Hc.
  destruct (process_message_fails _ _ _ _ _ _ Hf) as (st1 & Hq & ->).
  rewrite except_block_spec. cbn zeta.
  assert (Hc1 : default 0 (retries id (redis st1))
                = default 0 (retries id (rds w))).
  { unfold retries. destruct Hq as (_ & _ & -> & _). done. }
  rewrite Hc1.
  pose proof Hq as (Hl & Hs & _ & Ha).
  assert (Hsame : forall r,
            Redis.lists r = Redis.lists (redis st1) ->
            Redis.streams r = Redis.streams (redis st1) ->
            Redis.acked r = Redis.acked (redis st1) ->
            dlq r = dlq (rds w)
            /\ is_pending id r = is_pending id (rds w)
            /\ Redis.acked r = Redis.acked (rds w)).
  { intros r Hrl Hrs Hra. split; [unfold dlq; by rewrite Hrl, Hl|].
    split; [|congruence].
    unfold is_pending, Redis.redeliverable, Redis.pending.
    by rewrite Hrs, Hs. }
  destruct (fl Rollback) as [e1|]; [by apply Hsame|].
  destruct (fl Incr) as [e2|]; [by apply Hsame|].
  destruct Hc as [Hc | [Hc | Hc]]; [|done|done].
  rewrite (proj2 (Z.leb_le _ _) Hc). by apply Hsame.
Qed.

(** Below the limit: the counter goes up by one and nothing else of the
    queue moves. *)
Lemma failed_delivery_retry fl utcnow id msg w e :
  fails_with fl utcnow id msg w e ->
  counted fl ->
  let c := default 0 (retries id (rds w)) in
  (c + 1 <= MAX_RETRIES)%Z ->
  let '(w', res) := process_message fl utcnow id msg w in
  res = Ok tt
  /\ retries id (rds w') = Some (c + 1)%Z
  /\ dlq (rds w') = dlq (rds w)
  /\ is_pending id (rds w') = is_pending id (rds w)
  /\ Redis.acked (rds w') = Redis.acked (rds w).
Proof.
  intros Hf [HR HI] c Hc.
  pose proof (failed_delivery_pending _ _ _ _ _ _ Hf (or_introl Hc)) as Hp.
  cbn zeta in Hp. revert Hp.
  destruct (process_message_fails _ _ _ _ _ _ Hf) as (st1 & Hq & ->).
  rewrite except_block_spec. cbn zeta. rewrite HR, HI.
  assert (Hc1 : default 0 (retries id (redis st1)) = c).
  { unfold c, retries. destruct Hq as (_ & _ & -> & _). done. }
  rewrite Hc1. rewrite (proj2 (Z.leb_le _ _) Hc). simpl. intros Hp.
  split; [done|]. split; [|exact Hp].
  unfold retries. simpl. by rewrite lookup_insert_eq.
Qed.

(** Past the limit, an id that is a [str], the calls of the quarantine
    going through: one record on the dead-letter list, the entry
    acknowledged, the counter deleted. *)
Lemma failed_delivery_quarantine fl utcnow s msg w e :
  fails_with fl utcnow (Str s) msg w e ->
  counted fl ->
  quarantine_runs fl ->
  (default 0 (retries (Str s) (rds w)) + 1 > MAX_RETRIES)%Z ->
  let '(w', res) := process_message fl utcnow (Str s) msg w in
  res = Ok tt
  /\ retries (Str s) (rds w') = None
  /\ dlq (rds w') = record_of s msg e :: dlq (rds w)
  /\ is_pending (Str s) (rds w') = false
  /\ Redis.acked (rds w')
     = (Redis.acked (rds w)
        ++ if is_pending (Str s) (rds w) then [s] else [])%list.
Proof.
  intros Hf [HR HI] (HL & HX & HD) Hc.
  destruct (process_message_fails _ _ _ _ _ _ Hf) as (st1 & Hq & ->).
  rewrite except_block_spec. cbn zeta. rewrite HR, HI, HL, HX, HD.
  assert (Hc1 : default 0 (retries (Str s) (redis st1))
                = default 0 (retries (Str s) (rds w))).
  { unfold retries. destruct Hq as (_ & _ & -> & _). done. }
  rewrite Hc1. rewrite (proj2 (Z.leb_gt _ _)) by lia.
  split; [done|]. simpl.
  pose proof Hq as (Hl & Hs & _ & Ha).
  split. { unfold retries, Redis.delete. simpl. by rewrite lookup_delete_eq. }
  split.
  { unfold dlq, Redis.delete. simpl.
    rewrite lookup_delete_ne by discriminate.
    rewrite lists_xack. simpl. rewrite lookup_insert_eq. simpl.
    by rewrite Hl. }
  split.
  { unfold is_pending, Redis.redeliverable. simpl.
    rewrite pending_delete by discriminate.
    rewrite pending_xack. apply bool_decide_eq_false_2. set_solver. }
  unfold Redis.delete. simpl. rewrite acked_xack. simpl. rewrite Ha.
  f_equal. unfold is_pending, Redis.redeliverable. simpl.
  rewrite pending_lpush, pending_with_ints.
  by rewrite (same_queue_pending _ _ _ Hq).
Qed.

(** Past the limit, an id that is [bytes]: [json.dumps] raises; no
    record, no acknowledgment, and the counter stays. *)
Lemma failed_delivery_bytes fl utcnow b msg w e :
  fails_with fl utcnow (Bytes b) msg w e ->
  counted fl ->
  let c := default 0 (retries (Bytes b) (rds w)) in
  (c + 1 > MAX_RETRIES)%Z ->
  let '(w', res) := process_message fl utcnow (Bytes b) msg w in
  res = Raise "TypeError: Object of type bytes is not JSON serializable"
  /\ retries (Bytes b) (rds w') = Some (c + 1)%Z
  /\ dlq (rds w') = dlq (rds w)
  /\ is_pending (Bytes b) (rds w') = is_pending (Bytes b) (rds w)
  /\ Redis.acked (rds w') = Redis.acked (rds w).
Proof.
  intros Hf [HR HI] c Hc.
  destruct (process_message_fails _ _ _ _ _ _ Hf) as (st1 & Hq & ->).
  rewrite except_block_spec. cbn zeta. rewrite HR, HI.
  assert (Hc1 : default 0 (retries (Bytes b) (redis st1)) = c).
  { unfold c, retries. destruct Hq as (_ & _ & -> & _). done. }
  rewrite Hc1. rewrite (proj2 (Z.leb_gt _ _)) by lia.
  split; [done|]. simpl. split.
  { unfold retries. simpl. by rewrite lookup_insert_eq. }
  pose proof Hq as (Hl & Hs & _ & Ha).
  split; [unfold dlq; simpl; by rewrite Hl|].
  split; [|done].
  unfold is_pending, Redis.redeliverable.
  rewrite pending_with_ints. by rewrite (same_queue_pending _ _ _ Hq).
Qed.

(** *** Deliveries in a row *)

(** The deliveries of one entry, one after the other, each under its
    own environment (what fails, the wall clock). *)
Fixpoint deliveries (envs : list (faults * Z)) (id : text) (msg : message)
    (w : world) : world :=
  match envs with
  | [] => w
  | (fl, utcnow) :: rest =>
      deliveries rest id msg (fst (process_message fl utcnow id msg w))
  end.

(** Processing fails on every one of these deliveries before the entry
    is acknowledged, and each failure is counted. *)
Fixpoint all_fail (envs : list (faults * Z)) (id : text) (msg : message)
    (w : world) : Prop :=
  match envs with
  | [] => True
  | (fl, utcnow) :: rest =>
      (exists e, fails_with fl utcnow id msg w e)
      /\ counted fl
      /\ all_fail rest id msg (fst (process_message fl utcnow id msg w))
  end.

Lemma deliveries_app envs1 envs2 id msg w :
  deliveries (envs1 ++ envs2) id msg w
  = deliveries envs2 id msg (deliveries envs1 id msg w).
Proof.
  revert w. induction envs1 as [|[fl now] envs1 IH]; intros w; [done|].
  simpl. apply IH.
Qed.

Lemma all_fail_app envs1 envs2 id msg w :
  all_fail (envs1 ++ envs2) id msg w
  <-> all_fail envs1 id msg w
      /\ all_fail envs2 id msg (deliveries envs1 id msg w).
Proof.
  revert w. induction envs1 as [|[fl now] envs1 IH]; intros w; simpl.
  - tauto.
  - rewrite IH. tauto.
Qed.

(** While the counter stays within [MAX_RETRIES], failing deliveries
    only count up: the entry stays pending, nothing is written to the
    dead-letter list, nothing is acknowledged. *)
Lemma deliveries_below_limit envs id msg w :
  all_fail envs id msg w ->
  (default 0 (retries id (rds w)) + Z.of_nat (length envs) <= MAX_RETRIES)%Z ->
  let w' := deliveries envs id msg w in
  default 0 (retries id (rds w'))
  = (default 0 (retries id (rds w)) + Z.of_nat (length envs))%Z
  /\ dlq (rds w') = dlq (rds w)
  /\ is_pending id (rds w') = is_pending id (rds w)
  /\ Redis.acked (rds w') = Redis.acked (rds w).
Proof.
  revert w. induction envs as [|[fl now] envs IH]; intros w Hall Hlim.
  - simpl. split; [lia | done].
  - destruct Hall as ([e Hf] & Hcount & Hrest).
    cbn [deliveries length] in *.
    pose proof (failed_delivery_retry _ _ _ _ _ _ Hf Hcount) as Hstep.
    cbn zeta in Hstep.
    destruct (process_message fl now id msg w) as [w1 res] eqn:E.
    destruct Hstep as (_ & Hr & Hd & Hp & Ha); [lia|].
    simpl in Hrest |- *.
    destruct (IH w1 Hrest) as (Hr' & Hd' & Hp' & Ha').
    { rewrite Hr. simpl. lia. }
    rewrite Hr', Hd', Hp', Ha', Hr. simpl. split; [lia|done].
Qed.

(** An id that is [bytes] is never quarantined, however often its
    processing fails. *)
Lemma deliveries_bytes envs b msg w :
  all_fail envs (Bytes b) msg w ->
  let w' := deliveries envs (Bytes b) msg w in
  default 0 (retries (Bytes b) (rds w'))
  = (default 0 (retries (Bytes b) (rds w)) + Z.of_nat (length envs))%Z
  /\ dlq (rds w') = dlq (rds w)
  /\ is_pending (Bytes b) (rds w') = is_pending (Bytes b) (rds w)
  /\ Redis.acked (rds w') = Redis.acked (rds w).
Proof.
  revert w. induction envs as [|[fl now] envs IH]; intros w Hall.
  - simpl. split; [lia | done].
  - destruct Hall as ([e Hf] & Hcount & Hrest).
    cbn [deliveries length] in *.
    assert (Hstep :
      let '(w1, _) := process_message fl now (Bytes b) msg w in
      retries (Bytes b) (rds w1)
      = Some (default 0 (retries (Bytes b) (rds w)) + 1)%Z
      /\ dlq (rds w1) = dlq (rds w)
      /\ is_pending (Bytes b) (rds w1) = is_pending (Bytes b) (rds w)
      /\ Redis.acked (rds w1) = Redis.acked (rds w)).
    { destruct (Z.le_gt_cases
                  (default 0 (retries (Bytes b) (rds w)) + 1) MAX_RETRIES)
        as [Hle|Hgt].
      - pose proof (failed_delivery_retry _ _ _ _ _ _ Hf Hcount Hle) as H.
        destruct (process_message fl now (Bytes b) msg w). tauto.
      - pose proof (failed_delivery_bytes _ _ _ _ _ _ Hf Hcount) as H.
        cbn zeta in H.
        destruct (process_message fl now (Bytes b) msg w).
        apply H. lia. }
    destruct (process_message fl now (Bytes b) msg w) as [w1 res] eqn:E.
    destruct Hstep as (Hr & Hd & Hp & Ha).
    simpl in Hrest |- *.
    destruct (IH w1 Hrest) as (Hr' & Hd' & Hp' & Ha').
    rewrite Hr', Hd', Hp', Ha', Hr. simpl. split; [lia|done].
Qed.

(** *** The claims about retries and quarantine *)

Lemma default_positive (x : option Z) (n : Z) :
  default 0%Z x = n -> (0 < n)%Z -> x = Some n.
Proof. destruct x; simpl; [congruence | lia]. Qed.

(** C4, as the code has it.  With [MAX_RETRIES = 3], a pending entry
    without a retry counter, its id [bytes] or [str]: after three
    deliveries in a row that fail before the acknowledgment and are
    counted, the entry is still pending, with counter 3, no record and
    no acknowledgment.  A fourth such failure takes the quarantine; for
    an id that is a [str], its calls going through, it writes one record
    (its own error), acknowledges the entry once, deletes the counter
    and leaves nothing to deliver again. *)
Theorem quarantine_on_fourth_failure
    (envs : list (faults * Z)) (fl : faults) (utcnow : Z)
    (id : text) (msg : message) (w : world) :
  length envs = 3%nat ->
  retries id (rds w) = None ->
  is_pending id (rds w) = true ->
  all_fail (envs ++ [(fl, utcnow)]) id msg w ->
  let w3 := deliveries envs id msg w in
  let '(w4, res) := process_message fl utcnow id msg w3 in
  (retries id (rds w3) = Some 3%Z
   /\ is_pending id (rds w3) = true
   /\ dlq (rds w3) = dlq (rds w)
   /\ Redis.acked (rds w3) = Redis.acked (rds w))
  /\ (forall s, id = Str s -> quarantine_runs fl ->
      res = Ok tt
      /\ (exists e, fails_with fl utcnow id msg w3 e
                    /\ dlq (rds w4) = record_of s msg e :: dlq (rds w))
      /\ Redis.acked (rds w4) = (Redis.acked (rds w) ++ [s])%list
      /\ is_pending id (rds w4) = false
      /\ retries id (rds w4) = None).
Proof.
  intros Hlen Hr Hp Hall. cbn zeta.
  apply all_fail_app in Hall as [Hall ([e Hf] & Hcount & _)].
  destruct (deliveries_below_limit _ _ _ _ Hall) as (Hr3 & Hd3 & Hp3 & Ha3).
  { rewrite Hr, Hlen. simpl. unfold MAX_RETRIES. lia. }
  rewrite Hr, Hlen in Hr3. simpl in Hr3.
  destruct (process_message fl utcnow id msg _) as [w4 res] eqn:E4.
  split.
  - split; [by apply default_positive|]. by rewrite Hp3, Hd3, Ha3.
  - intros s -> Hruns.
    pose proof (failed_delivery_quarantine _ _ _ _ _ _ Hf Hcount Hruns) as H4.
    rewrite E4 in H4.
    destruct H4 as (Hres & Hr4 & Hd4 & Hp4 & Ha4).
    { rewrite Hr3. unfold MAX_RETRIES. lia. }
    split; [done|]. split.
    + exists e. split; [done|]. by rewrite Hd4, Hd3.
    + rewrite Ha4, Hp3, Hp, Ha3. done.
Qed.

(** C3 on an id that is [bytes]: the fourth failing delivery ends in
    the [TypeError] of [json.dumps]; no record is written, the entry is
    neither acknowledged nor taken off the pending list, and the
    counter stays (at 4). *)
Theorem bytes_id_quarantine_raises
    (envs : list (faults * Z)) (fl : faults) (utcnow : Z)
    (b : string) (msg : message) (w : world) :
  length envs = 3%nat ->
  retries (Bytes b) (rds w) = None ->
  all_fail (envs ++ [(fl, utcnow)]) (Bytes b) msg w ->
  let w3 := deliveries envs (Bytes b) msg w in
  let '(w4, res) := process_message fl utcnow (Bytes b) msg w3 in
  res = Raise "TypeError: Object of type bytes is not JSON serializable"
  /\ dlq (rds w4) = dlq (rds w)
  /\ is_pending (Bytes b) (rds w4) = is_pending (Bytes b) (rds w)
  /\ Redis.acked (rds w4) = Redis.acked (rds w)
  /\ retries (Bytes b) (rds w4) = Some 4%Z.
Proof.
  intros Hlen Hr Hall. cbn zeta.
  apply all_fail_app in Hall as [Hall ([e Hf] & Hcount & _)].
  destruct (deliveries_below_limit _ _ _ _ Hall) as (Hr3 & Hd3 & Hp3 & Ha3).
  { rewrite Hr, Hlen. simpl. unfold MAX_RETRIES. lia. }
  rewrite Hr, Hlen in Hr3. simpl in Hr3.
  pose proof (failed_delivery_bytes _ _ _ _ _ _ Hf Hcount) as H4.
  cbn zeta in H4.
  destruct (process_message fl utcnow (Bytes b) msg _) as [w4 res].
  destruct H4 as (Hres & Hr4 & Hd4 & Hp4 & Ha4).
  { rewrite Hr3. unfold MAX_RETRIES. lia. }
  rewrite Hd4, Hp4, Ha4, Hr4, Hr3. done.
Qed.

(** *** The dead-letter record *)

(** What a call of [process_message] does to the dead-letter list. *)
Lemma process_message_dead_letter fl utcnow id msg w :
  let st0 := mkState (db w) [] (rds w) in
  let w' := fst (process_message fl utcnow id msg w) in
  match snd (try_block fl utcnow id msg st0), id with
  | Raise e, Str s =>
      dlq (rds w')
      = if bool_decide (fl Rollback = None /\ fl Incr = None
                        /\ fl Lpush = None
                        /\ (default 0 (retries id (rds w)) + 1
                            > MAX_RETRIES)%Z)
        then record_of s msg e :: dlq (rds w)
        else dlq (rds w)
  | _, _ => dlq (rds w') = dlq (rds w)
  end.
Proof.
  cbn zeta. unfold Worker.process_message.
  destruct (try_block fl utcnow id msg _) as [st1 [[]|e]] eqn:Htry.
  { simpl. unfold dlq.
    by rewrite (try_block_dlq _ _ _ _ _ _ _ Htry). }
  pose proof (try_block_raise_books _ _ _ _ _ _ _ Htry) as [Hd Hr].
  unfold same_dlq in Hd. simpl in Hd, Hr.
  assert (Hsame : forall r,
            Redis.lists r !! DLQ_KEY = Redis.lists (redis st1) !! DLQ_KEY ->
            dlq r = dlq (rds w))
    by (intros r Hrl; unfold dlq; by rewrite Hrl, Hd).
  assert (Hpush : forall x r,
            Redis.lists r !! DLQ_KEY
            = Some (x :: default [] (Redis.lists (redis st1) !! DLQ_KEY)) ->
            dlq r = x :: dlq (rds w))
    by (intros x r Hrl; unfold dlq; by rewrite Hrl, Hd).
  rewrite except_block_spec. cbn zeta. rewrite Hr. simpl.
  destruct (fl Rollback) as [e1|].
  { destruct id; [by apply Hsame|].
    rewrite bool_decide_eq_false_2 by (by intros [? _]). by apply Hsame. }
  destruct (fl Incr) as [e2|].
  { destruct id; [by apply Hsame|].
    rewrite bool_decide_eq_false_2 by (by intros (_ & ? & _)).
    by apply Hsame. }
  destruct (Z.leb_spec (default 0 (retries id (rds w)) + 1) MAX_RETRIES)
    as [Hle|Hgt].
  { destruct id; [by apply Hsame|].
    rewrite bool_decide_eq_false_2 by (intros (_ & _ & _ & ?); lia).
    by apply Hsame. }
  destruct id as [b|s]; [by apply Hsame|].
  destruct (fl Lpush) as [e3|].
  { rewrite bool_decide_eq_false_2 by (by intros (_ & _ & ? & _)).
    by apply Hsame. }
  rewrite bool_decide_eq_true_2 by (repeat split; [done..|lia]).
  destruct (fl XackPoison) as [e4|].
  { apply Hpush. simpl. by rewrite lookup_insert_eq. }
  destruct (fl DeleteRetry) as [e5|]; apply Hpush; simpl.
  - rewrite lists_xack. simpl. by rewrite lookup_insert_eq.
  - rewrite lookup_delete_ne by discriminate.
    rewrite lists_xack. simpl. by rewrite lookup_insert_eq.
Qed.

(** C8, as the code has it.  An entry with a [str] id is quarantined
    when its [try] block raises, the failure is counted and the count
    passes [MAX_RETRIES]; if the [LPUSH] goes through, its record is
    then pushed at the head of the dead-letter list.  The record has
    exactly the keys [id], [message] and [error], in this order, which
    hold the entry's id, [str(message)] and the error the [try] block
    raised.  A call of [process_message] writes nothing else to the
    list. *)
Theorem dead_letter_record_fields
    (fl : faults) (utcnow : Z) (id : text) (msg : message) (w : world) :
  let st0 := mkState (db w) [] (rds w) in
  let w' := fst (process_message fl utcnow id msg w) in
  (forall s e,
      id = Str s ->
      snd (try_block fl utcnow id msg st0) = Raise e ->
      counted fl ->
      (default 0 (retries id (rds w)) + 1 > MAX_RETRIES)%Z ->
      fl Lpush = None ->
      exists record,
        dlq (rds w') = record :: dlq (rds w)
        /\ json_keys record = ["id"; "message"; "error"]
        /\ json_get "id" record = Some (JStr s)
        /\ json_get "message" record = Some (JStr (str_message msg))
        /\ json_get "error" record = Some (JStr e))
  /\ (dlq (rds w') = dlq (rds w)
      \/ exists s e record,
           id = Str s
           /\ snd (try_block fl utcnow id msg st0) = Raise e
           /\ dlq (rds w') = record :: dlq (rds w)
           /\ json_keys record = ["id"; "message"; "error"]
           /\ json_get "id" record = Some (JStr s)
           /\ json_get "message" record = Some (JStr (str_message msg))
           /\ json_get "error" record = Some (JStr e)).
Proof.
  cbn zeta.
  pose proof (process_message_dead_letter fl utcnow id msg w) as H.
  cbn zeta in H. split.
  - intros s e -> He [HR HI] Hc HL. rewrite He in H.
    rewrite bool_decide_eq_true_2 in H by done.
    by exists (record_of s msg e).
  - destruct (snd (try_block fl utcnow id msg _)) as [[]|e]; [by left|].
    destruct id as [b|s]; [by left|].
    case_bool_decide; [|by left].
    right. by exists s, e, (record_of s msg e).
Qed.

(** *** The insert and the acknowledgment *)

Lemma process_message_store fl utcnow id msg w :
  db (fst (process_message fl utcnow id msg w))
  = store (fst (try_block fl utcnow id msg (mkState (db w) [] (rds w)))).
Proof.
  unfold Worker.process_message.
  destruct (try_block fl utcnow id msg _) as [st1 [[]|e]]; [done|].
  pose proof (except_block_store fl id msg e st1) as H.
  by destruct (except_block fl id msg e st1).
Qed.

(** C2, as the code has it.  The insert is undone exactly when the
    failure comes before the commit has gone through: while the entry
    is decoded, or in the commit itself (refused by the environment or
    by the table's constraints).  Once the commit has gone through the
    row stays, whatever fails after it, in the [try] block or in the
    [except] block; and a delivery that fails before the
    acknowledgment, the retry counter it finds being below
    [MAX_RETRIES], leaves the entry unacknowledged and pending,
    committed row or not. *)
Theorem insert_undone_only_before_commit
    (fl : faults) (utcnow : Z) (id : text) (msg : message) (w : world) :
  let w' := fst (process_message fl utcnow id msg w) in
  DB.venues (db w') = DB.venues (db w)
  /\ DB.transactions (db w')
     = match new_txn_of msg with
       | Raise _ => DB.transactions (db w)
       | Ok x =>
           match fl Commit, row_of (db w) x with
           | None, Some row => (DB.transactions (db w) ++ [row])%list
           | _, _ => DB.transactions (db w)
           end
       end
  /\ (forall e,
        fails_with fl utcnow id msg w e ->
        (default 0 (retries id (rds w)) + 1 <= MAX_RETRIES)%Z ->
        is_pending id (rds w') = is_pending id (rds w)
        /\ Redis.acked (rds w') = Redis.acked (rds w)).
Proof.
  cbn zeta. rewrite process_message_store.
  pose proof (try_block_store fl utcnow id msg (db w) (rds w)) as [Hv Ht].
  split; [exact Hv|]. split; [exact Ht|].
  intros e Hf Hc.
  by destruct (failed_delivery_pending _ _ _ _ _ _ Hf (or_introl Hc))
    as (_ & ? & ?).
Qed.

End Facts.

(** ** On the concrete store *)

Section OnSample.
Import Sample.

Local Abbreviation deliveries :=
  (WorkerFacts.deliveries utf8_decode parse_int fromisoformat repr_bytes
     str_message).
Local Abbreviation all_fail :=
  (WorkerFacts.all_fail utf8_decode parse_int fromisoformat repr_bytes
     str_message).
Local Abbreviation retries := (WorkerFacts.retries repr_bytes).
Local Abbreviation process_message :=
  (Worker.process_message utf8_decode parse_int fromisoformat repr_bytes
     str_message).

(** Three deliveries with Redis and the store up. *)
Definition thrice : list (faults * Z) :=
  [(no_faults, nine_pm); (no_faults, nine_pm); (no_faults, nine_pm)].

Lemma poison_all_fail id :
  all_fail (thrice ++ [(no_faults, nine_pm)])%list id poison_message world0.
Proof.
  destruct id as [b|s]; vm_compute;
    repeat split; eexists; reflexivity.
Defined.

Lemma quarantine_on_fourth_failure_witness :
  retries (Str entry) (rds world0) = None
  /\ is_pending (Str entry) (rds world0) = true
  /\ (let w3 := deliveries thrice (Str entry) poison_message world0 in
      let '(w4, res) :=
        process_message no_faults nine_pm (Str entry) poison_message w3 in
      is_pending (Str entry) (rds w3) = true
      /\ res = Ok tt
      /\ Redis.acked (rds w4) = [entry]
      /\ is_pending (Str entry) (rds w4) = false).
Proof.
  assert (Hr : retries (Str entry) (rds world0) = None)
    by (vm_compute; reflexivity).
  assert (Hp : is_pending (Str entry) (rds world0) = true)
    by (vm_compute; reflexivity).
  split; [exact Hr|]. split; [exact Hp|].
  pose proof (quarantine_on_fourth_failure utf8_decode parse_int
                fromisoformat repr_bytes str_message thrice no_faults
                nine_pm (Str entry) poison_message world0 eq_refl Hr Hp
                (poison_all_fail (Str entry))) as H.
  cbv zeta in H |- *. revert H.
  destruct (process_message no_faults nine_pm (Str entry)
              poison_message _) as [w4 res].
  intros ((_ & Hp3 & _) & H4).
  destruct (H4 entry eq_refl (conj eq_refl (conj eq_refl eq_refl)))
    as (Hres & _ & Ha & Hp4 & _).
  repeat split; assumption.
Defined.

Lemma bytes_id_quarantine_raises_witness :
  retries (Bytes entry) (rds world0) = None
  /\ (let w3 := deliveries thrice (Bytes entry) poison_message world0 in
      let '(w4, res) :=
        process_message no_faults nine_pm (Bytes entry) poison_message w3 in
      res = Raise "TypeError: Object of type bytes is not JSON serializable"
      /\ dlq (rds w4) = dlq (rds world0)
      /\ is_pending (Bytes entry) (rds w4)
         = is_pending (Bytes entry) (rds world0)
      /\ Redis.acked (rds w4) = Redis.acked (rds world0)
      /\ retries (Bytes entry) (rds w4) = Some 4%Z).
Proof.
  assert (Hr : retries (Bytes entry) (rds world0) = None)
    by (vm_compute; reflexivity).
  split; [exact Hr|].
  exact (bytes_id_quarantine_raises utf8_decode parse_int
           fromisoformat repr_bytes str_message thrice no_faults
           nine_pm entry poison_message world0 eq_refl Hr
           (poison_all_fail (Bytes entry))).
Defined.

(** The fourth failing delivery of the poison entry under a [str] id:
    the record it leaves. *)
Lemma dead_letter_record_fields_witness :
  let w3 := deliveries thrice (Str entry) poison_message world0 in
  let w4 :=
    fst (process_message no_faults nine_pm (Str entry) poison_message w3) in
  exists record,
    dlq (rds w4) = record :: dlq (rds w3)
    /\ json_keys record = ["id"; "message"; "error"]
    /\ json_get "id" record = Some (JStr entry)
    /\ json_get "message" record = Some (JStr (str_message poison_message))
    /\ json_get "error" record
       = Some (JStr "TypeError: int() argument must be a string, a bytes-like object or a real number, not 'NoneType'").
Proof.
  cbv zeta.
  apply (proj1 (dead_letter_record_fields utf8_decode parse_int
                  fromisoformat repr_bytes str_message no_faults nine_pm
                  (Str entry) poison_message
                  (deliveries thrice (Str entry) poison_message world0))
           entry _ eq_refl).
  - vm_compute. reflexivity.
  - split; reflexivity.
  - vm_compute. reflexivity.
  - reflexivity.
Defined.

(** [PUBLISH] fails on the first delivery of the good entry: the row is
    committed, and the entry is neither acknowledged nor taken off the
    pending list. *)
Lemma insert_undone_only_before_commit_witness :
  let w1 :=
    fst (process_message publish_fails nine_pm (Bytes entry) good_message
           world0) in
  DB.transactions (db w1) = [DB.mkTransaction joe nine_pm 5]
  /\ is_pending (Bytes entry) (rds w1) = true
  /\ Redis.acked (rds w1) = [].
Proof.
  cbv zeta.
  destruct (insert_undone_only_before_commit utf8_decode parse_int
              fromisoformat repr_bytes str_message publish_fails nine_pm
              (Bytes entry) good_message world0) as (_ & Ht & Hp).
  split; [rewrite Ht; vm_compute; reflexivity|].
  destruct (Hp "ConnectionError") as [Hp1 Ha1].
  - vm_compute. reflexivity.
  - vm_compute. discriminate.
  - rewrite Hp1, Ha1. split; vm_compute; reflexivity.
Defined.

(** The field names the specification gives a dead-letter record. *)
Definition spec_record_fields : list string :=
  ["entry_id"; "original_message"; "error"].

(** C4 as stated fails: after three failing deliveries of the poison
    entry the counter is 3, and the entry is still pending, not
    acknowledged, with no record written, be its id a [str] or
    [bytes]. *)
Lemma three_failures_leave_entry_pending :
  (let w3 := deliveries thrice (Str entry) poison_message world0 in
   retries (Str entry) (rds w3) = Some 3%Z
   /\ is_pending (Str entry) (rds w3) = true
   /\ Redis.acked (rds w3) = []
   /\ dlq (rds w3) = [])
  /\ (let w3 := deliveries thrice (Bytes entry) poison_message world0 in
      retries (Bytes entry) (rds w3) = Some 3%Z
      /\ is_pending (Bytes entry) (rds w3) = true
      /\ Redis.acked (rds w3) = []
      /\ dlq (rds w3) = []).
Proof. vm_compute. repeat split; reflexivity. Qed.

(** C2 as stated fails: [PUBLISH] fails after the commit; the row is
    in the table although the entry is not acknowledged and will be
    delivered again. *)
Lemma publish_failure_keeps_row :
  let w1 :=
    fst (process_message publish_fails nine_pm (Bytes entry) good_message
           world0) in
  DB.transactions (db world0) = []
  /\ DB.transactions (db w1) = [DB.mkTransaction joe nine_pm 5]
  /\ is_pending (Bytes entry) (rds w1) = true
  /\ Redis.acked (rds w1) = []
  /\ retries (Bytes entry) (rds w1) = Some 1%Z.
Proof. vm_compute. repeat split; reflexivity. Qed.

(** C8 as stated fails: the record written for the quarantined entry
    has the keys [id], [message] and [error], not the specification's;
    and under a [bytes] id the same four deliveries leave no record. *)
Lemma dead_letter_keys_differ :
  (let w4 :=
     deliveries (thrice ++ [(no_faults, nine_pm)])%list (Str entry)
       poison_message world0 in
   map json_keys (dlq (rds w4)) = [["id"; "message"; "error"]]
   /\ map (fun record => bool_decide (json_keys record = spec_record_fields))
        (dlq (rds w4)) = [false])
  /\ (let w4 :=
        deliveries (thrice ++ [(no_faults, nine_pm)])%list (Bytes entry)
          poison_message world0 in
      retries (Bytes entry) (rds w4) = Some 4%Z /\ dlq (rds w4) = []).
Proof. vm_compute. repeat split; reflexivity. Qed.

End OnSample.

End WorkerFacts.

(* ===================================================================== *)
(** * More of the score query boundary *)
(* ===================================================================== *)

Module ScoresRangeFacts.
Import Scores.

Lemma scaled_score_range (capacity volume s : Z) :
  scaled_score capacity volume = Ok s -> 0 <= s <= 100.
Proof.
  unfold scaled_score.
  destruct (Py.int_mul_float capacity Py.half) as [threshold|e]; [|done].
  cbn [rbind].
  destruct (if Py.float_gt0 threshold then _ else _) as [score|e]; [|done].
  cbn [rbind]. intros [= <-]. lia.
Qed.

Lemma venue_entry_range (db : DB.t) (virtual_now : Z) (v : DB.Venue) (s : Z) :
  snd (venue_entry db virtual_now v) = Ok s -> 0 <= s <= 100.
Proof.
  unfold venue_entry. destruct (DB.v_capacity v <=? 0).
  - intros [= <-]. lia.
  - apply scaled_score_range.
Qed.

(** What the loop has stored when it ends without an exception. *)
Lemma score_loop_range (db : DB.t) (virtual_now : Z) (vs : list DB.Venue)
    (acc scores : gmap string Z) :
  snd (score_loop db virtual_now vs acc) = Ok scores ->
  forall k,
    (k ∈ map DB.v_id vs ->
       exists s, scores !! k = Some s /\ 0 <= s <= 100)
    /\ (k ∉ map DB.v_id vs -> scores !! k = acc !! k).
Proof.
  revert acc. induction vs as [|v vs IH]; intros acc.
  - intros [= <-] k. split; [|done]. intros Hk. by apply elem_of_nil in Hk.
  - cbn [score_loop map].
    destruct (venue_entry db virtual_now v) as [qs [s|e]] eqn:Ev; [|done].
    destruct (score_loop db virtual_now vs _) as [qs' r] eqn:El.
    intros Hr k. simpl in Hr. subst r.
    pose proof (IH (<[DB.v_id v := s]> acc)) as IH'. rewrite El in IH'.
    destruct (IH' eq_refl k) as [Hin Hout].
    assert (Hs : 0 <= s <= 100).
    { apply (venue_entry_range db virtual_now v). by rewrite Ev. }
    split.
    + intros Hk. destruct (decide (k ∈ map DB.v_id vs)) as [Hk'|Hk'].
      * by apply Hin.
      * apply elem_of_cons in Hk as [-> | Hk]; [|done].
        exists s. rewrite Hout by done. by rewrite lookup_insert_eq.
    + intros Hk. apply not_elem_of_cons in Hk as [Hne Hk].
      rewrite Hout by done. by rewrite lookup_insert_ne.
Qed.

(** Whatever the store holds, an answer of [/scores] has one entry for
    each venue id and none besides, and every score in it lies between 0
    and 100. *)
Theorem get_scores_range (db : DB.t) (scores : gmap string Z) :
  snd (get_scores db) = Ok scores ->
  (forall k, is_Some (scores !! k) <-> k ∈ map DB.v_id (DB.venues db))
  /\ (forall k s, scores !! k = Some s -> 0 <= s <= 100).
Proof.
  unfold get_scores. destruct (DB.max_timestamp db) as [virtual_now|].
  - destruct (score_loop db virtual_now (DB.venues db) ∅) as [qs r] eqn:El.
    simpl. intros ->.
    pose proof (score_loop_range db virtual_now (DB.venues db) ∅ scores) as H.
    rewrite El in H. specialize (H eq_refl).
    assert (Hkeys : forall k,
              is_Some (scores !! k) <-> k ∈ map DB.v_id (DB.venues db)).
    { intros k. destruct (H k) as [Hin Hout]. split.
      - intros Hsome.
        destruct (decide (k ∈ map DB.v_id (DB.venues db))) as [|Hk]; [done|].
        rewrite (Hout Hk), lookup_empty in Hsome. by destruct Hsome.
      - intros Hk. destruct (Hin Hk) as (s & -> & _). by eexists. }
    split; [exact Hkeys|].
    intros k s Hks. destruct (H k) as [Hin _].
    destruct Hin as (s' & Es & Hs); [apply Hkeys; by eexists|].
    congruence.
  - simpl. intros [= <-]. split.
    + intros k. rewrite ScoresFacts.all_zero_lookup.
      case_bool_decide as Hk.
      * split; [done | by eexists].
      * split; [by intros [? ?] | done].
    + intros k s. rewrite ScoresFacts.all_zero_lookup.
      case_bool_decide; [|done]. intros [= <-]. lia.
Qed.

Import Sample.

Lemma get_scores_range_witness :
  (forall k, is_Some (({[joe := 50%Z]} : gmap string Z) !! k)
             <-> k ∈ map DB.v_id (DB.venues scenario))
  /\ (forall k s, ({[joe := 50%Z]} : gmap string Z) !! k = Some s ->
        (0 <= s <= 100)%Z).
Proof.
  apply (get_scores_range scenario {[joe := 50%Z]}).
  vm_compute. reflexivity.
Defined.

End ScoresRangeFacts.

Module WindowFacts.

Lemma max_timestamp_bound (db : DB.t) (now : Z) (x : DB.Transaction) :
  DB.max_timestamp db = Some now ->
  x ∈ DB.transactions db -> DB.t_timestamp x <= now.
Proof.
  unfold DB.max_timestamp. intros Hmax Hx.
  assert (Hin : DB.t_timestamp x ∈ map DB.t_timestamp (DB.transactions db))
    by (apply list_elem_of_fmap; by exists x).
  destruct (map DB.t_timestamp (DB.transactions db)) as [|t ts]; [done|].
  injection Hmax as <-. clear Hx.
  revert Hin. generalize (DB.t_timestamp x). clear x. intros y.
  induction ts as [|t' ts IH]; simpl.
  - intros ->%list_elem_of_singleton. lia.
  - intros [-> | [-> | Hy]%elem_of_cons]%elem_of_cons.
    + assert (t <= fold_right Z.max t ts)
        by (clear; induction ts; simpl; lia).
      lia.
    + lia.
    + assert (y <= fold_right Z.max t ts)
        by (apply IH, elem_of_cons; by right).
      lia.
Qed.

Lemma filter_ext_in {A} (P Q : A -> Prop) `{!forall x, Decision (P x)}
    `{!forall x, Decision (Q x)} (l : list A) :
  (forall x, x ∈ l -> P x <-> Q x) -> filter P l = filter Q l.
Proof.
  induction l as [|x l IH]; intros Hall; [done|].
  rewrite !filter_cons.
  pose proof (Hall x (list_elem_of_here _ _)) as Hx.
  rewrite IH by (intros y Hy; apply Hall; by apply list_elem_of_further).
  destruct (decide (P x)), (decide (Q x)); tauto.
Qed.

(** Seen from the newest persisted timestamp, the window of [/scores]
    and the window of the worker hold the same rows: the upper bound of
    the [/scores] statement excludes nothing. *)
Theorem windows_agree_at_virtual_now (db : DB.t) (now : Z) (vid : string) :
  DB.max_timestamp db = Some now ->
  Scores.window_volume db vid now
  = DB.or_zero
      (DB.sum_quantity (Hotness.recent vid (now - DB.thirty_minutes)) db).
Proof.
  intros Hmax. unfold Scores.window_volume, DB.sum_quantity. f_equal.
  assert (E : filter (fun x => Scores.in_window vid now x = true)
                (DB.transactions db)
              = filter (fun x =>
                          Hotness.recent vid (now - DB.thirty_minutes) x = true)
                  (DB.transactions db)).
  { apply filter_ext_in. intros x Hx.
    pose proof (max_timestamp_bound db now x Hmax Hx) as Hle.
    unfold Scores.in_window, Hotness.recent.
    rewrite (proj2 (Z.leb_le _ _) Hle). by rewrite andb_true_r. }
  by rewrite E.
Qed.

Import Sample.

Lemma windows_agree_at_virtual_now_witness :
  Scores.window_volume scenario joe nine_pm
  = DB.or_zero
      (DB.sum_quantity
         (Hotness.recent joe (nine_pm - DB.thirty_minutes)%Z) scenario).
Proof.
  apply (windows_agree_at_virtual_now scenario nine_pm joe).
  reflexivity.
Defined.

End WindowFacts.

(* ===================================================================== *)
(** * The worker's score, rounding by rounding *)
(* ===================================================================== *)

Module WorkerScoreFacts.
Import Dyadic Rounding.

Local Abbreviation prec := Py.prec.
Local Abbreviation emax := Py.emax.

Lemma digits_le (v k : Z) : 0 < v < 2 ^ k -> 0 <= k -> Zdigits2 v <= k.
Proof.
  intros Hv Hk. pose proof (Zdigits2_bounds v ltac:(lia)) as Hb.
  destruct (Z.le_gt_cases (Zdigits2 v) k); [done|].
  assert (2 ^ k <= 2 ^ (Zdigits2 v - 1)) by (apply Z.pow_le_mono_r; lia). lia.
Qed.

Local Open Scope Q_scope.

(** [a / b] on two positive [int]s: the quotient, within [u]. *)
Lemma int_truediv_Q (a b : Z) :
  (0 < a < 2 ^ 63)%Z -> (0 < b < 2 ^ 31)%Z ->
  exists (m : positive) (e : Z),
    Py.int_truediv a b = Ok (S754_finite false m e)
    /\ (2 ^ 52 <= Z.pos m < 2 ^ 53)%Z
    /\ (-83 <= e <= 11)%Z
    /\ (1 - u) * (inject_Z a / inject_Z b) <= F2Q (S754_finite false m e)
    /\ F2Q (S754_finite false m e) <= (1 + u) * (inject_Z a / inject_Z b).
Proof.
  intros Ha Hb. unfold Py.int_truediv.
  rewrite (proj2 (Z.eqb_neq b 0)) by lia.
  destruct a as [|pa|pa]; try lia. destruct b as [|pb|pb]; try lia.
  cbn [Py.exact_of_int].
  pose proof (digits_le (Z.pos pa) 63 Ha ltac:(lia)) as Hda.
  pose proof (digits_le (Z.pos pb) 31 Hb ltac:(lia)) as Hdb.
  pose proof (Zdigits2_pos (Z.pos pa) ltac:(lia)) as Hda0.
  pose proof (Zdigits2_pos (Z.pos pb) ltac:(lia)) as Hdb0.
  pose proof (SFdiv_rel false pa 0 false pb 0) as H. cbn zeta in H.
  set (da := Zdigits2 (Z.pos pa)) in *. set (db := Zdigits2 (Z.pos pb)) in *.
  destruct H as (m & e & E & Hm & He & He0 & Hlo & Hhi); [lia|].
  exists m, e. rewrite E. split; [reflexivity|]. split; [exact Hm|].
  split; [unfold Py.prec in He; lia|].
  set (s := Z.max (Py.prec - da + db) 0) in *.
  assert (Hs : (0 <= s)%Z) by (unfold s; lia).
  destruct (rel_to_Q m e (0 - 0 - s) (Z.pos pa * 2 ^ s) (Z.pos pb)
              ltac:(lia) He0 Hlo Hhi) as [H1 H2].
  assert (EX : inject_Z (Z.pos pa * 2 ^ s) / inject_Z (Z.pos pb)
               * 2 ^ (0 - 0 - s)
               == inject_Z (Z.pos pa) / inject_Z (Z.pos pb)).
  { rewrite inject_Z_mult, Zpower_Qpower by done.
    change (inject_Z 2) with 2.
    replace (0 - 0 - s)%Z with (- s)%Z by lia. rewrite Qpower_opp.
    pose proof (pow2_pos s).
    assert (0 < inject_Z (Z.pos pb)) by reflexivity.
    field. split; lra. }
  assert (EV : F2Q (S754_finite false m e) == inject_Z (Z.pos m) * 2 ^ e)
    by (unfold F2Q; ring).
  rewrite EV, <- EX. split; assumption.
Qed.

(** The worker's score for a venue that sold something. *)
Lemma hotness_positive (capacity total_txns : Z) :
  (0 < capacity < 2 ^ 31)%Z -> (0 < total_txns < 2 ^ 63)%Z ->
  exists z : Z,
    Hotness.hotness capacity total_txns = Ok (Z.min z 100)
    /\ (1 - (1 # 1125899906842624))
         * (100 * (inject_Z total_txns / inject_Z capacity)) < inject_Z z + 1
    /\ inject_Z z
         <= (1 + (1 # 1125899906842624))
            * (100 * (inject_Z total_txns / inject_Z capacity)).
Proof.
  intros Hc Hv. unfold Hotness.hotness.
  rewrite (proj2 (Z.eqb_neq capacity 0)) by lia.
  destruct (int_truediv_Q total_txns capacity Hv Hc)
    as (mq & eq & Eq & Hmq & Heq & Q1 & Q2).
  rewrite Eq. cbn [rbind]. unfold Py.float_mul_int.
  rewrite float_of_int_100. cbn [rbind]. unfold Py.float_mul.
  destruct (SFmul_Q mq eq 7036874417766400 (-46))
    as (mp & ep & Ep & Hmp & Hep & P1 & P2); [lia | lia | lia |].
  rewrite Ep.
  destruct (int_of_float_floor mp ep) as (z & Ez & Z1 & Z2).
  rewrite Ez. cbn [rbind]. exists z. split; [reflexivity|].
  rewrite F2Q_100 in P1, P2.
  assert (HV : 0 < inject_Z total_txns) by (rewrite Zlt_Qlt in Hv; apply Hv).
  assert (HC : 0 < inject_Z capacity) by (rewrite Zlt_Qlt in Hc; apply Hc).
  assert (HX : 0 < inject_Z total_txns / inject_Z capacity)
    by (apply Qlt_shift_div_l; lra).
  set (X := inject_Z total_txns / inject_Z capacity) in *.
  unfold u in *. split; lra.
Qed.

(** From a value within [2^-50] of [100 * v / c] to its floor. *)
Lemma floor_of_percent (c v z : Z) :
  (0 < c < 2 ^ 31)%Z -> (0 < v)%Z ->
  (1 - (1 # 1125899906842624)) * (100 * (inject_Z v / inject_Z c))
    < inject_Z z + 1 ->
  inject_Z z
    <= (1 + (1 # 1125899906842624)) * (100 * (inject_Z v / inject_Z c)) ->
  let n := (100 * v / c)%Z in
  ((101 <= n)%Z /\ (100 <= z)%Z)
  \/ ((n <= 100)%Z
      /\ (z = n \/ (z = (n - 1)%Z /\ ((100 * v) mod c = 0)%Z))).
Proof.
  intros Hc Hv L U n.
  pose proof (Z.div_mod (100 * v) c ltac:(lia)) as Hdm.
  pose proof (Z.mod_pos_bound (100 * v) c ltac:(lia)) as Hr.
  assert (Hn : (0 <= 100 * v / c)%Z) by (apply Z.div_pos; lia).
  fold n in Hdm, Hn. set (r := ((100 * v) mod c)%Z) in *.
  assert (HC : 0 < inject_Z c) by (rewrite Zlt_Qlt in Hc; apply Hc).
  assert (HC' : inject_Z c <= 2147483648 - 1).
  { assert (c <= 2147483647)%Z as Hle by lia.
    rewrite Zle_Qle in Hle. exact Hle. }
  assert (EX : 100 * (inject_Z v / inject_Z c)
               == inject_Z n + inject_Z r / inject_Z c).
  { assert (Hq : inject_Z (100 * v) == inject_Z (c * n + r))
      by (by rewrite <- Hdm).
    rewrite inject_Z_plus, !inject_Z_mult in Hq.
    change (inject_Z 100) with 100 in Hq.
    assert (EV : 100 * (inject_Z v / inject_Z c)
                 == 100 * inject_Z v / inject_Z c) by (field; lra).
    rewrite EV, Hq. field. lra. }
  rewrite EX in L, U.
  assert (Hr0 : 0 <= inject_Z r) by (rewrite Zle_Qle in Hr; apply Hr).
  assert (Hn0 : 0 <= inject_Z n) by (rewrite Zle_Qle in Hn; apply Hn).
  assert (Hr1 : inject_Z r / inject_Z c <= 1 - (1 # 2147483648)).
  { apply Qle_shift_div_r; [done|].
    assert (r + 1 <= c)%Z as Hle by lia.
    rewrite Zle_Qle in Hle. rewrite inject_Z_plus in Hle.
    change (inject_Z 1) with 1 in Hle. lra. }
  assert (Hr2 : 0 <= inject_Z r / inject_Z c).
  { apply Qle_shift_div_l; [done|]. lra. }
  set (rho := inject_Z r / inject_Z c) in *.
  destruct (Z.le_gt_cases 101 n) as [Hbig | Hsmall].
  - left. split; [done|].
    assert (Hq : 101 <= inject_Z n) by (rewrite Zle_Qle in Hbig; exact Hbig).
    assert (inject_Z 100 < inject_Z z + 1) as Hlt.
    { change (inject_Z 100) with 100. lra. }
    change 1 with (inject_Z 1) in Hlt. rewrite <- inject_Z_plus in Hlt.
    rewrite <- Zlt_Qlt in Hlt. lia.
  - right. split; [lia|].
    assert (Hq : inject_Z n <= 100).
    { assert (n <= 100)%Z as Hle by lia. rewrite Zle_Qle in Hle. exact Hle. }
    assert (Hzn : (z <= n)%Z).
    { assert (inject_Z z < inject_Z n + 1) as Hlt by lra.
      change 1 with (inject_Z 1) in Hlt. rewrite <- inject_Z_plus in Hlt.
      rewrite <- Zlt_Qlt in Hlt. lia. }
    destruct (Z.eq_dec r 0%Z) as [Hr0' | Hrpos].
    + assert (Hnz : (n - 1 <= z)%Z).
      { assert (inject_Z n < inject_Z z + 1 + 1) as Hlt by lra.
        change 1 with (inject_Z 1) in Hlt.
        rewrite <- !inject_Z_plus in Hlt.
        rewrite <- Zlt_Qlt in Hlt. lia. }
      destruct (Z.eq_dec z n); [left; lia | right; lia].
    + left. assert (Hnz : (n <= z)%Z); [|lia].
      assert (Hrho : (1 # 2147483648) <= rho).
      { apply Qle_shift_div_l; [done|].
        assert (1 <= r)%Z as Hle by lia. rewrite Zle_Qle in Hle.
        change (inject_Z 1) with 1 in Hle. lra. }
      assert (inject_Z n < inject_Z z + 1) as Hlt by lra.
      change 1 with (inject_Z 1) in Hlt. rewrite <- inject_Z_plus in Hlt.
      rewrite <- Zlt_Qlt in Hlt. lia.
Qed.

Lemma hotness_zero (capacity : Z) :
  (0 < capacity)%Z -> Hotness.hotness capacity 0 = Ok 0%Z.
Proof. intros Hc. destruct capacity; try lia. reflexivity. Qed.

(** The worker's score, in integers: the floor of
    [100 * total / capacity], 100 at most, or one less when the division
    is exact. *)
Lemma hotness_floor (capacity total_txns : Z) :
  (0 < capacity < 2 ^ 31)%Z -> (0 <= total_txns < 2 ^ 63)%Z ->
  let E := Z.min 100 (100 * total_txns / capacity) in
  exists s : Z,
    Hotness.hotness capacity total_txns = Ok s
    /\ (s = E
        \/ (s = (E - 1)%Z /\ ((100 * total_txns) mod capacity = 0)%Z)).
Proof.
  intros Hc Hv E.
  destruct (Z.eq_dec total_txns 0%Z) as [-> | Hpos].
  - exists 0%Z. split; [apply hotness_zero; lia|]. left.
    unfold E. rewrite Z.mul_0_r, Z.div_0_l by lia. reflexivity.
  - destruct (hotness_positive capacity total_txns Hc ltac:(lia))
      as (z & Ez & L & U).
    eexists. split; [exact Ez|].
    destruct (floor_of_percent capacity total_txns z Hc ltac:(lia) L U)
      as [[Hn Hz] | [Hn [-> | [-> Hr]]]]; unfold E.
    + left. lia.
    + left. lia.
    + right. split; [lia | exact Hr].
Qed.

Local Close Scope Q_scope.

(** The worker's score for a venue of positive capacity (a 32-bit
    column) whose window sums to a number between 0 and [2^63]: the
    floor of [100 * total / capacity] and 100 at most, with no scaling
    factor, or one less than that, which can only happen when
    [100 * total] is an exact multiple of the capacity. *)
Theorem calculate_hotness_floor (db : DB.t) (utcnow : Z) (venue_id : string)
    (venue : DB.Venue) :
  DB.venue_by_id db venue_id = Some venue ->
  let capacity := DB.v_capacity venue in
  let total :=
    DB.or_zero
      (DB.sum_quantity
         (Hotness.recent venue_id (utcnow - DB.thirty_minutes)) db) in
  0 < capacity < 2 ^ 31 ->
  0 <= total < 2 ^ 63 ->
  let floor := Z.min 100 (100 * total / capacity) in
  exists s,
    Hotness.calculate_hotness db utcnow venue_id = Ok s
    /\ (s = floor \/ (s = floor - 1 /\ (100 * total) mod capacity = 0)).
Proof.
  intros Hvenue capacity total Hc Ht floor.
  unfold Hotness.calculate_hotness. rewrite Hvenue.
  apply hotness_floor; done.
Qed.

Import Sample.

Lemma calculate_hotness_floor_witness :
  exists s,
    Hotness.calculate_hotness scenario nine_pm joe = Ok s
    /\ (s = 25 \/ (s = 24 /\ (100 * 25) mod 100 = 0)).
Proof.
  apply (calculate_hotness_floor scenario nine_pm joe
           (DB.mkVenue joe "Joe Kool's" 100 "secret_joe") eq_refl).
  - vm_compute. split; reflexivity.
  - vm_compute. split; [discriminate | reflexivity].
Defined.

End WorkerScoreFacts.

(* ===================================================================== *)
(** * A delivery that succeeds *)
(* ===================================================================== *)

Module WorkerSuccessFacts.
Import Worker WorkerFacts.
Local Open Scope string_scope.

Lemma stream_entries_xack key grp id r :
  Redis.stream_entries STREAM_KEY (Redis.xack key grp id r)
  = Redis.stream_entries STREAM_KEY r.
Proof.
  unfold Redis.stream_entries, Redis.xack.
  destruct (Redis.streams r !! key) as [s|] eqn:Hs; [|done].
  destruct (Redis.groups s !! grp); [|done].
  case_bool_decide; [|done]. simpl.
  destruct (decide (key = STREAM_KEY)) as [->|Hne].
  - rewrite lookup_insert_eq, Hs. done.
  - by rewrite lookup_insert_ne.
Qed.

Section Facts.

Variable utf8_decode : string -> option string.
Variable parse_int : text -> option Z.
Variable fromisoformat : string -> option Z.
Variable repr_bytes : string -> string.
Variable str_message : message -> string.

Local Abbreviation retry_key := (Worker.retry_key repr_bytes).
Local Abbreviation new_txn_of :=
  (Worker.new_txn_of utf8_decode parse_int fromisoformat).
Local Abbreviation process_message :=
  (Worker.process_message utf8_decode parse_int fromisoformat repr_bytes
     str_message).

(** What a delivery that meets no failure does, step by step. *)
Lemma fault_free_delivery (utcnow : Z) (id : text) (msg : message)
    (w : world) (x : new_txn) (v : string) (score : Z) :
  new_txn_of msg = Ok x ->
  n_venue_id x = Some v ->
  is_Some (DB.venue_by_id (db w) v) ->
  let row := DB.mkTransaction v (n_timestamp x) (n_quantity x) in
  let stored := DB.mk (DB.venues (db w)) (DB.transactions (db w) ++ [row]) in
  Hotness.calculate_hotness stored utcnow v = Ok score ->
  exists w',
    process_message no_faults utcnow id msg w = (w', Ok tt)
    /\ db w' = stored
    /\ Redis.ints (rds w') !! score_key (Some v) = Some score
    /\ Redis.published (rds w')
       = (Redis.published (rds w)
          ++ [("updates:venue_scores",
               [("venue_id", JStr v); ("score", JInt score)])])%list
    /\ Redis.pending STREAM_KEY GROUP_NAME (rds w')
       = Redis.pending STREAM_KEY GROUP_NAME (rds w) ∖ {[wire id]}
    /\ retries repr_bytes id (rds w') = None
    /\ dlq (rds w') = dlq (rds w)
    /\ Redis.stream_entries STREAM_KEY (rds w')
       = Redis.stream_entries STREAM_KEY (rds w).
Proof.
  intros Hx Hv [venue Hvenue] row stored Hscore.
  unfold Worker.process_message, Worker.try_block, Worker.try_to_ack, bind,
    lift, db_add, db_commit, calculate_hotness, external, on_redis,
    no_faults.
  rewrite Hx. cbn [store session_new redis app rows_of].
  unfold row_of. rewrite Hv, Hvenue. fold row. fold stored.
  cbn [store session_new redis]. rewrite Hscore.
  cbn [store session_new redis db rds].
  eexists. split; [reflexivity|]. cbn [db rds].
  split; [reflexivity|].
  set (key := score_key (Some v)).
  assert (Hkr : key <> retry_key id)
    by (unfold key, score_key, Worker.retry_key; discriminate).
  split.
  { unfold Redis.delete; simpl. rewrite lookup_delete_ne by done.
    rewrite ints_xack. simpl. by rewrite lookup_insert_eq. }
  split.
  { unfold Redis.delete, Redis.xack; simpl.
    destruct (_ !! STREAM_KEY) as [s|]; [|done].
    destruct (Redis.groups s !! GROUP_NAME); [|done].
    by case_bool_decide. }
  split.
  { rewrite pending_delete by discriminate. rewrite pending_xack.
    unfold Redis.pending, Redis.publish, Redis.set; simpl.
    by rewrite lookup_delete_ne by discriminate. }
  split.
  { unfold retries, Redis.delete; simpl. by rewrite lookup_delete_eq. }
  split.
  { unfold dlq, Redis.delete; simpl.
    rewrite lookup_delete_ne by discriminate. rewrite lists_xack. simpl.
    by rewrite lookup_delete_ne by discriminate. }
  unfold Redis.delete at 1. unfold Redis.stream_entries at 1. simpl.
  rewrite lookup_delete_ne by discriminate.
  change (match Redis.streams ?r !! STREAM_KEY with
          | Some s => Redis.entries s | None => [] end)
    with (Redis.stream_entries STREAM_KEY r).
  rewrite stream_entries_xack.
  unfold Redis.stream_entries, Redis.publish, Redis.set; simpl.
  by rewrite lookup_delete_ne by discriminate.
Qed.

(** A delivery that meets no failure: the message decodes, the venue it
    names exists, the score can be computed and every call goes through.
    Then the row is persisted, the score is stored under the venue's key
    and published once, the entry is acknowledged, its retry counter is
    gone, and neither the dead-letter list nor the stream is touched. *)
Theorem process_message_success (utcnow : Z) (id : text) (msg : message)
    (w : world) (x : new_txn) (v : string) (score : Z) :
  new_txn_of msg = Ok x ->
  n_venue_id x = Some v ->
  is_Some (DB.venue_by_id (db w) v) ->
  let row := DB.mkTransaction v (n_timestamp x) (n_quantity x) in
  let stored := DB.mk (DB.venues (db w)) (DB.transactions (db w) ++ [row]) in
  Hotness.calculate_hotness stored utcnow v = Ok score ->
  exists w',
    process_message no_faults utcnow id msg w = (w', Ok tt)
    /\ db w' = stored
    /\ Redis.ints (rds w') !! score_key (Some v) = Some score
    /\ Redis.published (rds w')
       = (Redis.published (rds w)
          ++ [("updates:venue_scores",
               [("venue_id", JStr v); ("score", JInt score)])])%list
    /\ Redis.pending STREAM_KEY GROUP_NAME (rds w')
       = Redis.pending STREAM_KEY GROUP_NAME (rds w) ∖ {[wire id]}
    /\ retries repr_bytes id (rds w') = None
    /\ dlq (rds w') = dlq (rds w)
    /\ Redis.stream_entries STREAM_KEY (rds w')
       = Redis.stream_entries STREAM_KEY (rds w).
Proof. apply fault_free_delivery. Qed.

End Facts.
Import Sample.

Lemma process_message_success_witness :
  exists w',
    process_message Sample.utf8_decode parse_int fromisoformat repr_bytes
      str_message no_faults nine_pm (Bytes entry) good_message world0
    = (w', Ok tt)
    /\ db w' = DB.mk seeded_venues [DB.mkTransaction joe nine_pm 5]
    /\ Redis.ints (rds w') !! score_key (Some joe) = Some 3%Z.
Proof.
  destruct (process_message_success Sample.utf8_decode
              parse_int fromisoformat repr_bytes str_message nine_pm
              (Bytes entry) good_message world0 (mkNew (Some joe) nine_pm 5)
              joe 3)
    as (w' & Hrun & Hdb & Hints & _).
  - vm_compute. reflexivity.
  - reflexivity.
  - eexists. vm_compute. reflexivity.
  - vm_compute. reflexivity.
  - exists w'. split; [exact Hrun|]. split; [exact Hdb | exact Hints].
Defined.

End WorkerSuccessFacts.

(* ===================================================================== *)
(** * The worker's loop *)
(* ===================================================================== *)

Module StreamIdFacts.
Import StreamId.

Lemma lt_irrefl (a : Z * Z) : lt a a = false.
Proof. unfold lt. destruct a as [m n]; simpl. lia. Qed.

Lemma lt_trans (a b c : Z * Z) : lt a b = true -> lt b c = true -> lt a c = true.
Proof.
  unfold lt. destruct a as [m n], b as [m' n'], c as [m'' n'']; simpl. lia.
Qed.

Lemma newer_irrefl (a : string) : newer a a = false.
Proof. unfold newer. destruct (parse a); [apply lt_irrefl | done]. Qed.

Lemma newer_trans (a b c : string) :
  newer a b = true -> newer b c = true -> newer a c = true.
Proof.
  unfold newer.
  destruct (parse a), (parse b), (parse c); try done. apply lt_trans.
Qed.

End StreamIdFacts.

Module LoopFacts.
Import Worker WorkerFacts WorkerLoop.
Local Open Scope string_scope.

(** The cursor of the workers' group. *)
Definition cursor (r : Redis.t) : option string :=
  Redis.last_delivered_id <$> Redis.group_of STREAM_KEY GROUP_NAME r.

(** The ids that were delivered and not lost: pending or acknowledged. *)
Definition held (id : string) (r : Redis.t) : Prop :=
  id ∈ Redis.pending STREAM_KEY GROUP_NAME r \/ id ∈ Redis.acked r.

Section Facts.

Variable utf8_decode : string -> option string.
Variable parse_int : text -> option Z.
Variable fromisoformat : string -> option Z.
Variable repr_bytes : string -> string.
Variable str_message : message -> string.

Local Abbreviation retry_key := (Worker.retry_key repr_bytes).
Local Abbreviation try_block :=
  (Worker.try_block utf8_decode parse_int fromisoformat repr_bytes).
Local Abbreviation except_block :=
  (Worker.except_block repr_bytes str_message).
Local Abbreviation process_message :=
  (Worker.process_message utf8_decode parse_int fromisoformat repr_bytes
     str_message).
Local Abbreviation loop_body :=
  (WorkerLoop.loop_body utf8_decode parse_int fromisoformat repr_bytes
     str_message).
Local Abbreviation run :=
  (WorkerLoop.run utf8_decode parse_int fromisoformat repr_bytes
     str_message).
Local Abbreviation main :=
  (WorkerLoop.main utf8_decode parse_int fromisoformat repr_bytes
     str_message).

(** ** What a call of [process_message] on a [bytes] id keeps *)

Section Keeps.

Variable R : relation Redis.t.
Hypothesis R_refl : forall r, R r r.
Hypothesis R_trans : forall r1 r2 r3, R r1 r2 -> R r2 r3 -> R r1 r3.
Variable b : string.
Hypothesis R_set : forall v score r, R r (Redis.set (score_key v) score r).
Hypothesis R_publish : forall ch m r, R r (Redis.publish ch m r).
Hypothesis R_xack : forall r, R r (Redis.xack STREAM_KEY GROUP_NAME b r).
Hypothesis R_delete : forall r, R r (Redis.delete (retry_key (Bytes b)) r).
Hypothesis R_ints : forall f r, R r (Redis.with_ints f r).

Lemma try_block_keeps fl utcnow msg :
  keeps R (try_block fl utcnow (Bytes b) msg).
Proof.
  unfold Worker.try_block.
  apply (keeps_bind _ R_trans).
  { by apply (try_to_ack_keeps _ _ _ _ R_refl R_trans). }
  intros _. apply (keeps_external _ R_refl), keeps_on_redis. intros r.
  apply R_delete.
Qed.

Lemma except_block_keeps fl msg e :
  keeps R (except_block fl (Bytes b) msg e).
Proof.
  intros st st' res. rewrite except_block_spec. cbn zeta.
  destruct (fl Rollback); [intros [= <- _]; apply R_refl|].
  destruct (fl Incr); [intros [= <- _]; apply R_refl|].
  destruct (_ <=? MAX_RETRIES)%Z; intros [= <- _]; apply R_ints.
Qed.

Lemma process_message_keeps fl utcnow msg w :
  R (rds w) (rds (fst (process_message fl utcnow (Bytes b) msg w))).
Proof.
  unfold Worker.process_message.
  destruct (try_block fl utcnow (Bytes b) msg _) as [st1 [[]|e]] eqn:Htry.
  - simpl. by apply (try_block_keeps _ _ _ _ _ _ Htry).
  - apply try_block_keeps in Htry. simpl in Htry.
    destruct (except_block fl (Bytes b) msg e st1) as [st2 res] eqn:Hex.
    apply except_block_keeps in Hex. simpl. by eapply R_trans.
Qed.

End Keeps.

(** ** The three things the loop keeps *)

Definition same_cursor (r r' : Redis.t) : Prop := cursor r' = cursor r.

Definition grows (r r' : Redis.t) : Prop :=
  forall id, held id r -> held id r'.

Lemma group_of_xack id r :
  Redis.last_delivered_id <$>
    Redis.group_of STREAM_KEY GROUP_NAME
      (Redis.xack STREAM_KEY GROUP_NAME id r)
  = Redis.last_delivered_id <$> Redis.group_of STREAM_KEY GROUP_NAME r.
Proof.
  unfold Redis.group_of, Redis.xack.
  destruct (Redis.streams r !! STREAM_KEY) as [s|] eqn:Hs; [|by rewrite Hs].
  destruct (Redis.groups s !! GROUP_NAME) as [g|] eqn:Hg;
    [|by rewrite Hs, Hg].
  case_bool_decide; [|by rewrite Hs, Hg].
  simpl. rewrite lookup_insert_eq. simpl. by rewrite lookup_insert_eq.
Qed.

Lemma process_message_cursor fl utcnow b msg w :
  cursor (rds (fst (process_message fl utcnow (Bytes b) msg w)))
  = cursor (rds w).
Proof.
  apply (process_message_keeps same_cursor); unfold same_cursor; try done.
  - intros r1 r2 r3. congruence.
  - intros v score r. unfold cursor, Redis.group_of, Redis.set; simpl.
    by rewrite lookup_delete_ne by (unfold score_key; discriminate).
  - intros r. apply group_of_xack.
  - intros r. unfold cursor, Redis.group_of, Redis.delete; simpl.
    by rewrite lookup_delete_ne by discriminate.
Qed.

Lemma process_message_grows fl utcnow b msg w :
  grows (rds w) (rds (fst (process_message fl utcnow (Bytes b) msg w))).
Proof.
  apply (process_message_keeps grows); unfold grows; try done.
  - intros r1 r2 r3 H1 H2 id Hid. by apply H2, H1.
  - intros v score r id. unfold held, Redis.pending, Redis.set; simpl.
    by rewrite lookup_delete_ne by (unfold score_key; discriminate).
  - intros r id. unfold held. rewrite pending_xack, acked_xack.
    unfold Redis.redeliverable.
    intros [Hp | Ha]; [|right; apply elem_of_app; by left].
    destruct (decide (id = b)) as [->|Hne].
    + right. rewrite bool_decide_eq_true_2 by done. set_solver.
    + left. set_solver.
  - intros r id. unfold held. rewrite pending_delete by discriminate. done.
Qed.

Lemma process_message_dlq fl utcnow b msg w :
  dlq (rds (fst (process_message fl utcnow (Bytes b) msg w))) = dlq (rds w).
Proof.
  assert (H : same_dlq (rds w)
                (rds (fst (process_message fl utcnow (Bytes b) msg w)))).
  { apply (process_message_keeps same_dlq); unfold same_dlq; try done.
    - intros r1 r2 r3. congruence.
    - intros v score r. unfold Redis.set; simpl.
      by rewrite lookup_delete_ne by (unfold score_key; discriminate).
    - intros r. by rewrite lists_xack.
    - intros r. unfold Redis.delete; simpl.
      by rewrite lookup_delete_ne by discriminate. }
  unfold dlq. by rewrite H.
Qed.

(** A call adds at most one row and changes no other. *)
Lemma process_message_rows fl utcnow id msg w :
  exists rows,
    DB.transactions (db (fst (process_message fl utcnow id msg w)))
    = (DB.transactions (db w) ++ rows)%list
    /\ (length rows <= 1)%nat.
Proof.
  rewrite process_message_store.
  destruct (try_block_store utf8_decode parse_int fromisoformat repr_bytes
              fl utcnow id msg (db w) (rds w)) as [_ ->].
  destruct (Worker.new_txn_of _ _ _ msg) as [x|e].
  - destruct (fl Commit); [exists []; by rewrite app_nil_r; split; [|simpl; lia]|].
    destruct (row_of (db w) x) as [row|].
    + exists [row]. split; [done | simpl; lia].
    + exists []. rewrite app_nil_r. split; [done | simpl; lia].
  - exists []. rewrite app_nil_r. split; [done | simpl; lia].
Qed.

(** ** One turn *)

Lemma xreadgroup_next_spec (r : Redis.t) :
  match Consumer.xreadgroup_next STREAM_KEY GROUP_NAME r with
  | (r', Ok (Some (id, fields))) =>
      cursor r' = Some id
      /\ (forall c, cursor r = Some c -> StreamId.newer c id = true)
      /\ held id r'
      /\ grows r r'
      /\ dlq r' = dlq r
  | (r', _) => r' = r
  end.
Proof.
  unfold Consumer.xreadgroup_next.
  destruct (Redis.streams r !! STREAM_KEY) as [s|] eqn:Hs; [|done].
  destruct (Redis.groups s !! GROUP_NAME) as [g|] eqn:Hg; [|done].
  destruct (find _ (Redis.entries s)) as [[id fields]|] eqn:Hf; [|done].
  apply find_some in Hf as [_ Hnew]. simpl in Hnew.
  assert (Hp : forall x,
            x ∈ Redis.pending STREAM_KEY GROUP_NAME
                  (Redis.with_streams
                     (insert STREAM_KEY
                        (Redis.mkStream (Redis.entries s)
                           (<[GROUP_NAME :=
                                Redis.mkGroup id (Redis.pel g ∪ {[id]})]>
                              (Redis.groups s)))) r)
            <-> x ∈ Redis.pel g ∪ {[id]}).
  { intros x. unfold Redis.pending, Redis.with_streams; simpl.
    rewrite lookup_insert_eq. simpl. by rewrite lookup_insert_eq. }
  split.
  { unfold cursor, Redis.group_of, Redis.with_streams; simpl.
    rewrite lookup_insert_eq. simpl. by rewrite lookup_insert_eq. }
  split.
  { intros c. unfold cursor, Redis.group_of. rewrite Hs, Hg. simpl.
    by intros [= <-]. }
  split.
  { left. apply Hp. set_solver. }
  split; [|done].
  intros x [Hx | Hx]; [left | by right].
  apply Hp. unfold Redis.pending in Hx. rewrite Hs, Hg in Hx. set_solver.
Qed.

Lemma loop_body_spec (t : turn) (w : world) :
  let '(w', done) := loop_body t w in
  grows (rds w) (rds w')
  /\ dlq (rds w') = dlq (rds w)
  /\ DB.venues (db w') = DB.venues (db w)
  /\ match done with
     | Some id =>
         cursor (rds w') = Some id
         /\ (forall c, cursor (rds w) = Some c -> StreamId.newer c id = true)
         /\ held id (rds w')
         /\ exists rows,
              DB.transactions (db w') = (DB.transactions (db w) ++ rows)%list
              /\ (length rows <= 1)%nat
     | None => cursor (rds w') = cursor (rds w) /\ db w' = db w
     end.
Proof.
  unfold WorkerLoop.loop_body.
  assert (Hidle : grows (rds w) (rds w)
                  /\ dlq (rds w) = dlq (rds w)
                  /\ DB.venues (db w) = DB.venues (db w)
                  /\ cursor (rds w) = cursor (rds w) /\ db w = db w)
    by (split; [by intros x|done]).
  destruct (read_fault t); [exact Hidle|].
  pose proof (xreadgroup_next_spec (rds w)) as H.
  destruct (Consumer.xreadgroup_next STREAM_KEY GROUP_NAME (rds w))
    as [r [[[id fields]|]|e]]; simpl in H; try (subst r; exact Hidle).
  destruct H as (Hc & Hnew & Hheld & Hgrow & Hdlq).
  set (w1 := mkWorld (db w) r).
  pose proof (process_message_grows (turn_faults t) (turn_utcnow t) id
                (Consumer.message_of fields) w1) as Hg.
  split; [intros x Hx; by apply Hg, Hgrow|].
  split; [by rewrite process_message_dlq|].
  split.
  { rewrite process_message_store. unfold w1. cbn [db rds].
    by destruct (try_block_store utf8_decode parse_int fromisoformat
                   repr_bytes (turn_faults t) (turn_utcnow t) (Bytes id)
                   (Consumer.message_of fields) (db w) r) as [-> _]. }
  split; [by rewrite process_message_cursor|].
  split; [done|]. split; [by apply Hg|].
  apply (process_message_rows _ _ _ _ w1).
Qed.

Lemma xadd_spec id fields (r : Redis.t) :
  cursor (Redis.xadd STREAM_KEY id fields r) = cursor r
  /\ grows r (Redis.xadd STREAM_KEY id fields r)
  /\ dlq (Redis.xadd STREAM_KEY id fields r) = dlq r.
Proof.
  assert (Hg : Redis.group_of STREAM_KEY GROUP_NAME
                 (Redis.xadd STREAM_KEY id fields r)
               = Redis.group_of STREAM_KEY GROUP_NAME r).
  { unfold Redis.group_of, Redis.xadd, Redis.with_streams; simpl.
    rewrite lookup_insert_eq. simpl.
    by destruct (Redis.streams r !! STREAM_KEY). }
  split; [unfold cursor; by rewrite Hg|]. split; [|done].
  intros x. unfold held.
  assert (Redis.pending STREAM_KEY GROUP_NAME
            (Redis.xadd STREAM_KEY id fields r)
          = Redis.pending STREAM_KEY GROUP_NAME r) as ->; [|done].
  unfold Redis.pending, Redis.xadd, Redis.with_streams; simpl.
  rewrite lookup_insert_eq. simpl.
  by destruct (Redis.streams r !! STREAM_KEY).
Qed.

(** ** The run *)

Lemma run_spec (events : list event) (w : world) :
  let '(w', ids) := run events w in
  grows (rds w) (rds w')
  /\ dlq (rds w') = dlq (rds w)
  /\ DB.venues (db w') = DB.venues (db w)
  /\ (forall id, id ∈ ids -> held id (rds w'))
  /\ (forall id c, id ∈ ids -> cursor (rds w) = Some c ->
        StreamId.newer c id = true)
  /\ NoDup ids
  /\ exists rows,
       DB.transactions (db w') = (DB.transactions (db w) ++ rows)%list
       /\ (length rows <= length ids)%nat.
Proof.
  revert w. induction events as [|[t|id fields] rest IH]; intros w.
  - simpl. split; [by intros x|]. split; [done|]. split; [done|].
    split; [intros id Hid; by apply elem_of_nil in Hid|].
    split; [intros id c Hid; by apply elem_of_nil in Hid|].
    split; [constructor|]. exists []. by rewrite app_nil_r.
  - cbn [WorkerLoop.run].
    pose proof (loop_body_spec t w) as H1.
    destruct (loop_body t w) as [w1 done].
    destruct H1 as (Hg1 & Hd1 & Hv1 & Hdone).
    specialize (IH w1). destruct (run rest w1) as [w2 ids].
    destruct IH as (Hg2 & Hd2 & Hv2 & Hheld & Hnew & Hnd & rows2 & Hr2 & Hl2).
    split; [intros x Hx; by apply Hg2, Hg1|].
    split; [congruence|]. split; [congruence|].
    destruct done as [x|].
    + destruct Hdone as (Hc & Hx & Hhx & rows1 & Hr1 & Hl1).
      assert (Hfresh : x ∉ ids).
      { intros Hin. pose proof (Hnew x x Hin Hc) as Hxx.
        by rewrite StreamIdFacts.newer_irrefl in Hxx. }
      split.
      { intros y [-> | Hy]%elem_of_cons; [by apply Hg2 | by apply Hheld]. }
      split.
      { intros y c [-> | Hy]%elem_of_cons Hcw; [by apply Hx|].
        eapply StreamIdFacts.newer_trans; [by apply Hx | by eapply Hnew]. }
      split; [by apply NoDup_cons|].
      exists (rows1 ++ rows2)%list. rewrite Hr2, Hr1, <- app_assoc.
      split; [done|]. rewrite length_app. simpl. lia.
    + destruct Hdone as [Hc Hdb].
      split; [done|]. split.
      { intros y c Hy Hcw. apply (Hnew y c Hy). congruence. }
      split; [done|]. exists rows2. rewrite Hr2, Hdb. done.
  - cbn [WorkerLoop.run].
    destruct (xadd_spec id fields (rds w)) as (Hc & Hg & Hd).
    specialize (IH (mkWorld (db w) (Redis.xadd STREAM_KEY id fields (rds w)))).
    destruct (run rest _) as [w2 ids]. simpl in IH.
    destruct IH as (Hg2 & Hd2 & Hv2 & Hheld & Hnew & Hnd & Hrows).
    split; [intros x Hx; by apply Hg2, Hg|].
    split; [congruence|]. split; [done|]. split; [done|].
    split; [|done].
    intros y c Hy Hcw. apply (Hnew y c Hy). congruence.
Qed.

(** ** [main] *)

Lemma ensure_group_spec (r : Redis.t) :
  let r' := fst (ensure_group r) in
  grows r r' /\ dlq r' = dlq r.
Proof.
  unfold ensure_group, Redis.xgroup_create.
  destruct (Redis.streams r !! STREAM_KEY) as [s|] eqn:Hs.
  - destruct (Redis.groups s !! GROUP_NAME) as [g|] eqn:Hg; simpl.
    + split; [by intros x | done].
    + split; [|done]. intros x. unfold held, Redis.pending; simpl.
      rewrite lookup_insert_eq, Hs, Hg. simpl. rewrite lookup_insert_eq.
      set_solver.
  - simpl. split; [|done]. intros x. unfold held, Redis.pending; simpl.
    rewrite lookup_insert_eq, Hs. set_solver.
Qed.

(** Whatever arrives and whatever fails while the worker runs, no entry
    is handed to [process_message] twice, every entry that was handed
    over is acknowledged or still pending when the worker stops, and the
    transactions table has only grown, by at most one row for each entry
    handed over. *)
Theorem main_processes_each_entry_once (events : list event) (w : world) :
  let '(w', ids, _) := main events w in
  NoDup ids
  /\ (forall id, id ∈ ids -> held id (rds w'))
  /\ DB.venues (db w') = DB.venues (db w)
  /\ exists rows,
       DB.transactions (db w') = (DB.transactions (db w) ++ rows)%list
       /\ (length rows <= length ids)%nat.
Proof.
  unfold WorkerLoop.main.
  destruct (ensure_group (rds w)) as [r [[]|e]].
  - pose proof (run_spec events (mkWorld (db w) r)) as H.
    destruct (run events (mkWorld (db w) r)) as [w' ids].
    destruct H as (_ & _ & Hv & Hheld & _ & Hnd & Hrows). done.
  - simpl. split; [constructor|].
    split; [intros id Hid; by apply elem_of_nil in Hid|].
    split; [done|]. exists []. by rewrite app_nil_r.
Qed.

(** The worker never writes to the dead-letter list: an entry that fails
    is not read again by the loop, and an entry id arrives as [bytes],
    which [handle_poison_pill] cannot serialize. *)
Theorem main_never_quarantines (events : list event) (w : world) :
  let '(w', _, _) := main events w in
  dlq (rds w') = dlq (rds w).
Proof.
  unfold WorkerLoop.main.
  destruct (ensure_group_spec (rds w)) as [_ Hd].
  destruct (ensure_group (rds w)) as [r [[]|e]]; simpl in Hd.
  - pose proof (run_spec events (mkWorld (db w) r)) as H.
    destruct (run events (mkWorld (db w) r)) as [w' ids].
    destruct H as (_ & Hd' & _). simpl in Hd'. congruence.
  - done.
Qed.

End Facts.
End LoopFacts.

(* ===================================================================== *)
(** * The retry counters under the worker's loop *)
(* ===================================================================== *)

Module RetryFacts.
Import Worker WorkerFacts WorkerLoop LoopFacts.
Local Open Scope string_scope.

Section Facts.

Variable utf8_decode : string -> option string.
Variable parse_int : text -> option Z.
Variable fromisoformat : string -> option Z.
Variable repr_bytes : string -> string.
Variable str_message : message -> string.

(** The text an f-string puts for a [bytes] object tells the object. *)
Hypothesis repr_bytes_inj : forall a b, repr_bytes a = repr_bytes b -> a = b.

Local Abbreviation retry_key := (Worker.retry_key repr_bytes).
Local Abbreviation try_block :=
  (Worker.try_block utf8_decode parse_int fromisoformat repr_bytes).
Local Abbreviation except_block :=
  (Worker.except_block repr_bytes str_message).
Local Abbreviation process_message :=
  (Worker.process_message utf8_decode parse_int fromisoformat repr_bytes
     str_message).
Local Abbreviation loop_body :=
  (WorkerLoop.loop_body utf8_decode parse_int fromisoformat repr_bytes
     str_message).
Local Abbreviation run :=
  (WorkerLoop.run utf8_decode parse_int fromisoformat repr_bytes
     str_message).
Local Abbreviation main :=
  (WorkerLoop.main utf8_decode parse_int fromisoformat repr_bytes
     str_message).

(** The retry counter of the entry [b]. *)
Definition counter (b : string) (r : Redis.t) : option Z :=
  Redis.ints r !! retry_key (Bytes b).

Lemma retry_key_inj (a b : string) :
  retry_key (Bytes a) = retry_key (Bytes b) -> a = b.
Proof.
  unfold Worker.retry_key. simpl. intros [= H]. by apply repr_bytes_inj.
Qed.

(** What the [try] block on the entry [x] does to the counters: the
    others stay, the one of [x] stays or is deleted. *)
Definition settles (x : string) (r r' : Redis.t) : Prop :=
  (forall b, b <> x -> counter b r' = counter b r)
  /\ (counter x r' = counter x r \/ counter x r' = None).

Lemma try_block_settles fl utcnow x msg :
  keeps (settles x) (try_block fl utcnow (Bytes x) msg).
Proof.
  apply try_block_keeps; unfold settles, counter.
  - intros r. split; [done | by left].
  - intros r1 r2 r3 [H1 H1'] [H2 H2']. split.
    + intros b Hb. by rewrite H2, H1.
    + destruct H2' as [-> | ->]; [done | by right].
  - intros v score r. unfold Redis.set; simpl.
    split; [intros b Hb|left];
      by rewrite lookup_insert_ne by (unfold score_key, Worker.retry_key;
                                      destruct v; discriminate).
  - intros ch m r. split; [done | by left].
  - intros r. rewrite ints_xack. split; [done | by left].
  - intros r. unfold Redis.delete; simpl. split.
    + intros b Hb. rewrite lookup_delete_ne; [done|].
      intros H. apply retry_key_inj in H. congruence.
    + right. by rewrite lookup_delete_eq.
Qed.

(** A delivery of [x] whose counter was absent leaves it absent or at
    one, and the other counters as they were. *)
Lemma process_message_counters fl utcnow x msg w :
  counter x (rds w) = None ->
  let w' := fst (process_message fl utcnow (Bytes x) msg w) in
  (forall b, b <> x -> counter b (rds w') = counter b (rds w))
  /\ (counter x (rds w') = None \/ counter x (rds w') = Some 1%Z).
Proof.
  intros Hx. unfold Worker.process_message.
  destruct (try_block fl utcnow (Bytes x) msg _) as [st1 [[]|e]] eqn:Htry;
    apply try_block_settles in Htry as [Hothers Hmine]; simpl in *.
  - split; [done|]. left. destruct Hmine; congruence.
  - assert (H1 : counter x (redis st1) = None) by (destruct Hmine; congruence).
    rewrite except_block_spec.
    unfold retries. fold (counter x (redis st1)). rewrite H1. simpl.
    destruct (fl Rollback); [split; [done | by left]|].
    destruct (fl Incr); [split; [done | by left]|]. simpl.
    split.
    + intros b Hb. unfold counter; simpl.
      rewrite lookup_insert_ne; [by apply Hothers|].
      intros H. apply retry_key_inj in H. congruence.
    + right. unfold counter; simpl. by rewrite lookup_insert_eq.
Qed.

(** No entry the loop has yet to read has a counter, and no counter is
    above one. *)
Definition fresh (r : Redis.t) : Prop :=
  (forall b, (forall c, cursor r = Some c -> StreamId.newer c b = true) ->
             counter b r = None)
  /\ (forall b, counter b r = None \/ counter b r = Some 1%Z).

Lemma loop_body_fresh (t : turn) (w : world) :
  fresh (rds w) -> fresh (rds (fst (loop_body t w))).
Proof.
  intros [Hnew Hall]. unfold WorkerLoop.loop_body.
  destruct (read_fault t); [done|].
  pose proof (xreadgroup_next_spec utf8_decode fromisoformat repr_bytes (rds w)) as H.
  destruct (Consumer.xreadgroup_next STREAM_KEY GROUP_NAME (rds w))
    as [r [[[x fields]|]|e]] eqn:Hread; simpl in H; try (by subst r).
  destruct H as (Hc & Hx & _).
  assert (Hints : Redis.ints r = Redis.ints (rds w)).
  { unfold Consumer.xreadgroup_next in Hread.
    destruct (Redis.streams (rds w) !! STREAM_KEY) as [s|]; [|done].
    destruct (Redis.groups s !! GROUP_NAME) as [g|]; [|done].
    destruct (find _ _) as [[? ?]|]; [|done]. by injection Hread as <- _ _. }
  set (w1 := mkWorld (db w) r).
  assert (Hx0 : counter x (rds w1) = None).
  { unfold counter. simpl. rewrite Hints. by apply Hnew. }
  destruct (process_message_counters (turn_faults t) (turn_utcnow t) x
              (Consumer.message_of fields) w1 Hx0) as [Hothers Hmine].
  simpl. split.
  - intros b Hb.
    rewrite (process_message_cursor utf8_decode parse_int fromisoformat
               repr_bytes str_message) in Hb.
    simpl in Hb. specialize (Hb x Hc).
    assert (b <> x).
    { intros ->. by rewrite StreamIdFacts.newer_irrefl in Hb. }
    rewrite Hothers by done. unfold counter. simpl. rewrite Hints.
    apply Hnew. intros c Hcw.
    eapply StreamIdFacts.newer_trans; [by apply Hx | done].
  - intros b. destruct (decide (b = x)) as [->|Hne]; [done|].
    rewrite Hothers by done. unfold counter. simpl. rewrite Hints.
    apply Hall.
Qed.

Lemma run_fresh (events : list event) (w : world) :
  fresh (rds w) -> fresh (rds (fst (run events w))).
Proof.
  revert w. induction events as [|[t|id fields] rest IH]; intros w Hw.
  - done.
  - cbn [WorkerLoop.run].
    pose proof (loop_body_fresh t w Hw) as H1.
    destruct (loop_body t w) as [w1 done]. simpl in H1.
    specialize (IH w1 H1). by destruct (run rest w1).
  - cbn [WorkerLoop.run]. apply IH. simpl.
    destruct Hw as [Hnew Hall].
    destruct (xadd_spec id fields (rds w)) as (Hc & _).
    split; [|done]. intros b Hb. apply Hnew. intros c Hcw.
    apply Hb. unfold counter in *. congruence.
Qed.

(** Starting without retry counters, whatever arrives and whatever
    fails while the worker runs, no retry counter ever goes past one:
    the test [retries > MAX_RETRIES] of [process_message] is never
    true. *)
Theorem main_never_counts_past_one (events : list event) (w : world) :
  (forall b, counter b (rds w) = None) ->
  let '(w', _, _) := main events w in
  forall b, counter b (rds w') = None \/ counter b (rds w') = Some 1%Z.
Proof.
  intros Hnone. unfold WorkerLoop.main.
  assert (Hints : Redis.ints (fst (ensure_group (rds w)))
                  = Redis.ints (rds w)).
  { unfold ensure_group, Redis.xgroup_create.
    destruct (Redis.streams (rds w) !! STREAM_KEY) as [s|]; [|done].
    by destruct (Redis.groups s !! GROUP_NAME). }
  destruct (ensure_group (rds w)) as [r [[]|e]]; simpl in Hints.
  - pose proof (run_fresh events (mkWorld (db w) r)) as H.
    destruct (run events (mkWorld (db w) r)) as [w' ids]. simpl in H.
    apply H. split; intros b; [intros _|left];
      unfold counter; rewrite Hints; apply Hnone.
  - simpl. intros b. left. unfold counter. rewrite Hints. apply Hnone.
Qed.

End Facts.
Import Sample Fixtures.

(** [repr] of a [bytes] object of plain characters wraps it in [b'] and
    a quote: the object can be read back from it. *)
Lemma sample_repr_bytes_inj (a b : string) :
  Sample.repr_bytes a = Sample.repr_bytes b -> a = b.
Proof.
  unfold Sample.repr_bytes. cbn [String.append]. intros [= H].
  revert b H. induction a as [|c a IH]; intros [|d b] H; simpl in H.
  - reflexivity.
  - injection H as _ H. by destruct b.
  - injection H as _ H. by destruct a.
  - injection H as -> H. f_equal. by apply IH.
Qed.

Lemma main_never_counts_past_one_witness :
  let w' :=
    fst (fst (WorkerLoop.main Sample.utf8_decode parse_int fromisoformat
                Sample.repr_bytes str_message
                [Xadd "1704488400000-0" [];
                 Turn (mkTurn None no_faults nine_pm);
                 Turn (mkTurn None no_faults nine_pm)]
                idle)) in
  counter Sample.repr_bytes "1704488400000-0" (rds w') = Some 1%Z
  /\ forall b, counter Sample.repr_bytes b (rds w') = None
               \/ counter Sample.repr_bytes b (rds w') = Some 1%Z.
Proof.
  split; [vm_compute; reflexivity|].
  pose proof (main_never_counts_past_one Sample.utf8_decode parse_int
                fromisoformat Sample.repr_bytes str_message sample_repr_bytes_inj
                [Xadd "1704488400000-0" [];
                 Turn (mkTurn None no_faults nine_pm);
                 Turn (mkTurn None no_faults nine_pm)]
                idle) as H.
  destruct (WorkerLoop.main _ _ _ _ _ _ _) as [[w' ids] e].
  apply H. intros b. reflexivity.
Defined.

End RetryFacts.

(* ===================================================================== *)
(** * Texts *)
(* ===================================================================== *)

Module PyTextFacts.
Import PyText.
Local Open Scope string_scope.

Lemma string_of_uint_not_empty (d : Decimal.uint) :
  NilZero.string_of_uint d <> "".
Proof. by destruct d. Qed.

Lemma str_of_int_not_empty (n : Z) : str_of_int n <> "".
Proof.
  unfold str_of_int, NilZero.string_of_int.
  destruct (Z.to_int n); [apply string_of_uint_not_empty | done].
Qed.

Local Close Scope string_scope.

Lemma bytes_app (a b : string) :
  list_ascii_of_string (a ++ b)
  = list_ascii_of_string a ++ list_ascii_of_string b.
Proof. induction a as [|c a IH]; simpl; [done | by rewrite IH]. Qed.

(** ** White space *)

(** Decide the tests that the bounds at hand decide, then look at the
    others case by case. *)
Ltac by_codes :=
  repeat match goal with
         | |- context [N.eqb ?a ?b] =>
             rewrite (proj2 (N.eqb_neq a b)) by lia
         | |- context [N.leb ?a ?b] =>
             rewrite (proj2 (N.leb_gt a b)) by lia
         | |- context [N.leb ?a ?b] =>
             rewrite (proj2 (N.leb_le a b)) by lia
         end;
  repeat match goal with
         | |- context [N.eqb ?a ?b] => destruct (N.eqb_spec a b)
         | |- context [N.leb ?a ?b] => destruct (N.leb_spec a b)
         end;
  simpl; try reflexivity; lia.

Lemma space1_digit (c : ascii) :
  (48 <= code c <= 57)%N -> space1 c = false.
Proof. intros H. unfold space1. by_codes. Qed.

Lemma space2_low (c1 c2 : ascii) : (code c2 < 128)%N -> space2 c1 c2 = false.
Proof. intros H. unfold space2. by_codes. Qed.

Lemma space3_low (c1 c2 c3 : ascii) :
  (code c3 < 128)%N -> space3 c1 c2 c3 = false.
Proof. intros H. unfold space3. by_codes. Qed.

Lemma space3_low2 (c1 c2 c3 : ascii) :
  (code c2 < 128)%N -> space3 c1 c2 c3 = false.
Proof. intros H. unfold space3. by_codes. Qed.

Lemma lstrip_bytes_length (l : list ascii) :
  (length (lstrip_bytes l) <= length l)%nat.
Proof.
  remember (length l) as n eqn:Hn.
  assert (Hle : (length l <= n)%nat) by lia. clear Hn.
  revert l Hle. induction n as [n IH] using lt_wf_ind. intros l Hle.
  destruct l as [|c1 [|c2 [|c3 l3]]]; simpl in *.
  - lia.
  - destruct (space1 c1); simpl; lia.
  - destruct (space1 c1).
    + pose proof (IH 1%nat ltac:(lia) [c2] ltac:(simpl; lia)). simpl in *. lia.
    + destruct (space2 c1 c2); simpl; lia.
  - destruct (space1 c1).
    + pose proof (IH (S (S (length l3))) ltac:(lia) (c2 :: c3 :: l3)
                    ltac:(simpl; lia)).
      simpl in *. lia.
    + destruct (space2 c1 c2).
      * pose proof (IH (S (length l3)) ltac:(lia) (c3 :: l3)
                      ltac:(simpl; lia)).
        simpl in *. lia.
      * destruct (space3 c1 c2 c3); [|simpl; lia].
        pose proof (IH (length l3) ltac:(lia) l3 ltac:(lia)). lia.
Qed.

(** A text that does not begin with white space, followed by a comma and
    anything, does not begin with white space. *)
Lemma lstrip_bytes_comma (l rest : list ascii) :
  lstrip_bytes l = l ->
  lstrip_bytes (l ++ ","%char :: rest) = l ++ ","%char :: rest.
Proof.
  intros H.
  assert (Hcomma : (code ","%char < 128)%N) by (vm_compute; reflexivity).
  destruct l as [|c1 l1].
  { simpl. destruct rest as [|c2 [|c3 l3]]; reflexivity. }
  assert (H1 : space1 c1 = false).
  { destruct (space1 c1) eqn:E; [|done]. simpl in H. rewrite E in H.
    pose proof (lstrip_bytes_length l1) as Hl. rewrite H in Hl.
    simpl in Hl. lia. }
  destruct l1 as [|c2 l2].
  { simpl. rewrite H1, (space2_low c1 _ Hcomma).
    destruct rest as [|c3 l3]; [done|].
    by rewrite (space3_low2 c1 _ c3 Hcomma). }
  assert (H2 : space2 c1 c2 = false).
  { destruct (space2 c1 c2) eqn:E; [|done]. simpl in H. rewrite H1, E in H.
    pose proof (lstrip_bytes_length l2) as Hl. rewrite H in Hl.
    simpl in Hl. lia. }
  destruct l2 as [|c3 l3].
  { simpl. rewrite H1, H2. by rewrite (space3_low c1 c2 _ Hcomma). }
  assert (H3 : space3 c1 c2 c3 = false).
  { destruct (space3 c1 c2 c3) eqn:E; [|done]. simpl in H.
    rewrite H1, H2, E in H.
    pose proof (lstrip_bytes_length l3) as Hl. rewrite H in Hl.
    simpl in Hl. lia. }
  simpl. by rewrite H1, H2, H3.
Qed.

(** A line feed after a digit is stripped from the end, and nothing
    more. *)
Lemma rstrip_bytes_digit_newline (l : list ascii) (d : ascii) :
  (48 <= code d <= 57)%N ->
  rstrip_bytes (l ++ [d; "010"%char]) = l ++ [d].
Proof.
  intros Hd. unfold rstrip_bytes.
  rewrite rev_app_distr. simpl.
  change (space1 "010"%char) with true. cbn match.
  rewrite (space1_digit d Hd).
  assert (Hlow : (code d < 128)%N) by lia.
  destruct (rev l) as [|c2 [|c3 l3]] eqn:E.
  - simpl. apply (f_equal (@rev ascii)) in E. rewrite rev_involutive in E.
    by subst l.
  - rewrite (space2_low c2 d Hlow).
    rewrite <- E. simpl. by rewrite rev_involutive.
  - rewrite (space2_low c2 d Hlow), (space3_low c3 c2 d Hlow).
    rewrite <- E. simpl. by rewrite rev_involutive.
Qed.

(** ** Splitting *)

Lemma split_bytes_once (sep : ascii) (l : list ascii) :
  sep ∉ l -> split_bytes sep l = [l].
Proof.
  induction l as [|c l IH]; [done|]. intros Hc.
  apply not_elem_of_cons in Hc as [Hne Hc]. simpl.
  rewrite (proj2 (Ascii.eqb_neq c sep)) by congruence. by rewrite IH.
Qed.

Lemma split_bytes_app (sep : ascii) (a b : list ascii) :
  sep ∉ a -> split_bytes sep (a ++ sep :: b) = a :: split_bytes sep b.
Proof.
  induction a as [|c a IH]; intros Hc.
  - simpl. by rewrite Ascii.eqb_refl.
  - apply not_elem_of_cons in Hc as [Hne Hc]. simpl.
    rewrite (proj2 (Ascii.eqb_neq c sep)) by congruence. by rewrite IH.
Qed.

(** ** The digits of an [int] *)

Definition digit (c : ascii) : Prop := (48 <= code c <= 57)%N.

Lemma string_of_uint_digits (d : Decimal.uint) :
  Forall digit (list_ascii_of_string (NilEmpty.string_of_uint d)).
Proof.
  induction d; simpl; constructor; try done;
    unfold digit; vm_compute; split; discriminate.
Qed.

Lemma nilzero_digits (d : Decimal.uint) :
  exists l c,
    list_ascii_of_string (NilZero.string_of_uint d) = l ++ [c]
    /\ digit c /\ Forall digit l.
Proof.
  assert (H : Forall digit (list_ascii_of_string (NilZero.string_of_uint d))
              /\ list_ascii_of_string (NilZero.string_of_uint d) <> []).
  { destruct d; simpl; try (split; [|discriminate]);
      try (constructor; [unfold digit; vm_compute; split; discriminate|]);
      try apply string_of_uint_digits.
    constructor. }
  destruct H as [Hall Hne].
  destruct (exists_last Hne) as (l0 & c & E). rewrite E in Hall |- *.
  apply Forall_app in Hall as [Hl Hc].
  exists l0, c. split; [done|]. split; [by inversion Hc | done].
Qed.

(** [str(n)] is digits, after a minus sign if [n] is negative; it ends
    with a digit and holds no comma. *)
Lemma str_of_int_bytes (n : Z) :
  exists l c,
    list_ascii_of_string (PyText.str_of_int n) = l ++ [c]
    /\ digit c /\ ","%char ∉ l.
Proof.
  assert (Hnc : forall l, Forall digit l -> ","%char ∉ l).
  { intros l Hl Hin. rewrite Forall_forall in Hl.
    specialize (Hl _ Hin). unfold digit in Hl. vm_compute in Hl.
    destruct Hl as [H _]. by apply H. }
  unfold PyText.str_of_int, NilZero.string_of_int.
  destruct (Z.to_int n) as [d|d];
    destruct (nilzero_digits d) as (l & c & E & Hc & Hl).
  - exists l, c. split; [done|]. split; [done | by apply Hnc].
  - exists ("-"%char :: l), c. simpl. rewrite E. split; [done|].
    split; [done|]. apply not_elem_of_cons. split; [done | by apply Hnc].
Qed.

End PyTextFacts.

(* ===================================================================== *)
(** * From the ingestion boundary to the worker *)
(* ===================================================================== *)

Module PipelineFacts.
Import Worker WorkerFacts WorkerLoop Ingest.
Local Open Scope string_scope.

Lemma message_of_stream_data isoformat (p : IngestionPayload) (raw : string) :
  Consumer.message_of (Ingest.stream_data isoformat p raw)
  = [(Bytes "venue_id", Bytes (venue_id p));
     (Bytes "timestamp", Bytes (isoformat (timestamp p)));
     (Bytes "transaction_count",
      Bytes (PyText.str_of_int (transaction_count p)));
     (Bytes "raw_payload", Bytes raw)].
Proof. reflexivity. Qed.

Section Facts.

(** The library functions of the two sides. *)
Variable parse_payload : string -> option IngestionPayload.
Variable hmac_sha256 : string -> string -> string.
Variable isoformat : Z -> string.
Variable body_decode : string -> option string.
Variable utf8_decode : string -> option string.
Variable parse_int : text -> option Z.
Variable fromisoformat : string -> option Z.
Variable repr_bytes : string -> string.
Variable str_message : message -> string.

Local Abbreviation ingest_data :=
  (Ingest.ingest_data parse_payload hmac_sha256 isoformat body_decode).
Local Abbreviation new_txn_of :=
  (Worker.new_txn_of utf8_decode parse_int fromisoformat).
Local Abbreviation loop_body :=
  (WorkerLoop.loop_body utf8_decode parse_int fromisoformat repr_bytes
     str_message).

(** The worker reads back what [/ingest] wrote: the text of the venue id
    and of the timestamp decode to themselves, [fromisoformat] undoes
    [isoformat], and [int] reads the digits of the count. *)
Definition reads_back (p : IngestionPayload) : Prop :=
  venue_id p <> ""
  /\ isoformat (timestamp p) <> ""
  /\ utf8_decode (venue_id p) = Some (venue_id p)
  /\ utf8_decode (isoformat (timestamp p)) = Some (isoformat (timestamp p))
  /\ fromisoformat (isoformat (timestamp p)) = Some (timestamp p)
  /\ parse_int (Bytes (PyText.str_of_int (transaction_count p)))
     = Some (transaction_count p).

Lemma stream_data_decodes (p : IngestionPayload) (raw : string) :
  reads_back p ->
  new_txn_of (Consumer.message_of (Ingest.stream_data isoformat p raw))
  = Ok (mkNew (Some (venue_id p)) (timestamp p) (transaction_count p)).
Proof.
  intros (Hv & Ht & Hdv & Hdt & Hiso & Hint).
  rewrite message_of_stream_data. unfold Worker.new_txn_of.
  cbn [dict_get text_eqb String.eqb Ascii.eqb Bool.eqb].
  unfold py_or, truthy.
  rewrite (proj2 (String.eqb_neq _ _) Hv), (proj2 (String.eqb_neq _ _) Ht).
  rewrite (proj2 (String.eqb_neq _ _)
             (PyTextFacts.str_of_int_not_empty (transaction_count p))).
  cbn [negb decode_if_bytes]. rewrite Hdv, Hdt. cbn [rbind].
  unfold py_int. rewrite Hint. cbn [rbind].
  unfold py_fromisoformat. rewrite Hiso. reflexivity.
Qed.

(** The fields [/ingest] queues for a payload, as the worker receives
    them, decode to the payload's venue, timestamp and count. *)
Theorem queued_payload_decodes (p : IngestionPayload) (raw : string) :
  reads_back p ->
  new_txn_of (Consumer.message_of (Ingest.stream_data isoformat p raw))
  = Ok (mkNew (Some (venue_id p)) (timestamp p) (transaction_count p)).
Proof. apply stream_data_decodes. Qed.

Lemma find_app_none {A} (f : A -> bool) (l : list A) (x : A) :
  find f l = None -> f x = true -> find f (l ++ [x]) = Some x.
Proof.
  induction l as [|y l IH]; simpl; intros Hl Hx.
  - by rewrite Hx.
  - destruct (f y); [done | by apply IH].
Qed.

(** End to end.  The worker has read everything in the stream; a request
    is accepted by [/ingest], and the server gives its entry an id after
    the group's cursor; the next turn of the worker's loop meets no
    failure.  Then that turn processes this entry, and the row it
    persists is the payload's venue, timestamp and count; the venue's
    score is stored and published, and the entry is acknowledged. *)
Theorem accepted_payload_is_persisted (w : world) (sig body id : string)
    (p : IngestionPayload) (r1 : Redis.t) (utcnow score : Z) :
  ingest_data (Some sig) body (db w) (Ok id) (rds w) = (r1, Queued) ->
  parse_payload body = Some p ->
  reads_back p ->
  Consumer.xreadgroup_next STREAM_KEY GROUP_NAME (rds w) = (rds w, Ok None) ->
  (forall c, LoopFacts.cursor (rds w) = Some c -> StreamId.newer c id = true) ->
  let row :=
    DB.mkTransaction (venue_id p) (timestamp p) (transaction_count p) in
  let stored := DB.mk (DB.venues (db w)) (DB.transactions (db w) ++ [row]) in
  Hotness.calculate_hotness stored utcnow (venue_id p) = Ok score ->
  exists w',
    loop_body (mkTurn None no_faults utcnow) (mkWorld (db w) r1)
    = (w', Some id)
    /\ db w' = stored
    /\ Redis.ints (rds w') !! score_key (Some (venue_id p)) = Some score
    /\ Redis.published (rds w')
       = (Redis.published (rds w)
          ++ [("updates:venue_scores",
               [("venue_id", JStr (venue_id p)); ("score", JInt score)])])%list
    /\ (id ∉ Redis.pending STREAM_KEY GROUP_NAME (rds w'))
    /\ dlq (rds w') = dlq (rds w).
Proof.
  intros Hin Hp Hback Hcaught Hnew row stored Hscore.
  (* what the acceptance says *)
  unfold Ingest.ingest_data in Hin.
  destruct (String.eqb sig ""); [done|]. rewrite Hp in Hin.
  destruct (DB.venue_by_id (db w) (venue_id p)) as [venue|] eqn:Hvenue;
    [|done].
  destruct (Ingest.verify _ _ _ _) as [[|]|]; [|done|done].
  destruct (body_decode body) as [raw|]; [|done].
  injection Hin as <-.
  (* the read *)
  unfold Consumer.xreadgroup_next in Hcaught.
  destruct (Redis.streams (rds w) !! STREAM_KEY) as [s|] eqn:Hs; [|done].
  destruct (Redis.groups s !! GROUP_NAME) as [g|] eqn:Hg; [|done].
  destruct (find _ (Redis.entries s)) as [[? ?]|] eqn:Hfind; [done|].
  clear Hcaught.
  assert (Hc : StreamId.newer (Redis.last_delivered_id g) id = true).
  { apply Hnew. unfold LoopFacts.cursor, Redis.group_of. by rewrite Hs, Hg. }
  set (fields := Ingest.stream_data isoformat p raw).
  set (g' := Redis.mkGroup id (Redis.pel g ∪ {[id]})).
  set (r1 := Redis.xadd "stream:incoming_txns" id fields (rds w)).
  assert (Hs1 : Redis.streams r1 !! STREAM_KEY
                = Some (Redis.mkStream (Redis.entries s ++ [(id, fields)])
                          (Redis.groups s))).
  { unfold r1, Redis.xadd, Redis.with_streams. cbn [Redis.streams].
    change "stream:incoming_txns" with STREAM_KEY.
    by rewrite lookup_insert_eq, Hs. }
  set (r2 := Redis.with_streams
               (insert STREAM_KEY
                  (Redis.mkStream (Redis.entries s ++ [(id, fields)])
                     (<[GROUP_NAME := g']> (Redis.groups s)))) r1).
  assert (Hread :
    Consumer.xreadgroup_next STREAM_KEY GROUP_NAME r1
    = (r2, Ok (Some (id, fields)))).
  { unfold Consumer.xreadgroup_next. rewrite Hs1.
    cbn [Redis.groups Redis.entries]. rewrite Hg.
    by rewrite (find_app_none _ _ (id, fields) Hfind Hc). }
  unfold WorkerLoop.loop_body. cbn [read_fault rds db turn_faults turn_utcnow].
  rewrite Hread.
  destruct (WorkerSuccessFacts.fault_free_delivery utf8_decode parse_int
              fromisoformat repr_bytes str_message utcnow (Bytes id)
              (Consumer.message_of fields) (mkWorld (db w) r2)
              (mkNew (Some (venue_id p)) (timestamp p) (transaction_count p))
              (venue_id p) score)
    as (w' & Hrun & Hdb & Hints & Hpub & Hpend & _ & Hdlq & _).
  { by apply stream_data_decodes. }
  { reflexivity. }
  { by exists venue. }
  { exact Hscore. }
  exists w'. rewrite Hrun. split; [reflexivity|].
  split; [exact Hdb|]. split; [exact Hints|].
  split; [rewrite Hpub; reflexivity|].
  split; [rewrite Hpend; cbn [wire]; set_solver|].
  rewrite Hdlq. reflexivity.
Qed.

End Facts.
Import Sample Fixtures.

Lemma queued_payload_decodes_witness :
  new_txn_of Sample.utf8_decode parse_int fromisoformat
    (Consumer.message_of
       (Ingest.stream_data Fixtures.isoformat payload body))
  = Ok (mkNew (Some joe) nine_pm 5).
Proof.
  apply (queued_payload_decodes Fixtures.isoformat
           Sample.utf8_decode parse_int fromisoformat payload body).
  repeat split; try discriminate; vm_compute; reflexivity.
Defined.

Lemma accepted_payload_is_persisted_witness :
  exists w',
    WorkerLoop.loop_body Sample.utf8_decode parse_int fromisoformat
      repr_bytes str_message (WorkerLoop.mkTurn None no_faults nine_pm)
      (mkWorld (db idle)
         (fst (Ingest.ingest_data Fixtures.parse_payload mac
                 Fixtures.isoformat Sample.utf8_decode
                 (Some (Ingest.sign mac "secret_joe" body)) body (db idle)
                 (Ok entry) (rds idle))))
    = (w', Some entry)
    /\ db w' = DB.mk seeded_venues [DB.mkTransaction joe nine_pm 5].
Proof.
  destruct (accepted_payload_is_persisted
              Fixtures.parse_payload mac Fixtures.isoformat
              Sample.utf8_decode Sample.utf8_decode parse_int fromisoformat
              repr_bytes str_message idle
              (Ingest.sign mac "secret_joe" body) body entry payload
              (fst (Ingest.ingest_data Fixtures.parse_payload mac
                      Fixtures.isoformat Sample.utf8_decode
                      (Some (Ingest.sign mac "secret_joe" body)) body
                      (db idle) (Ok entry) (rds idle)))
              nine_pm 3)
    as (w' & Hrun & Hdb & _).
  - vm_compute. reflexivity.
  - vm_compute. reflexivity.
  - repeat split; try discriminate; vm_compute; reflexivity.
  - vm_compute. reflexivity.
  - intros c Hc. vm_compute in Hc. injection Hc as <-. vm_compute.
    reflexivity.
  - vm_compute. reflexivity.
  - exists w'. split; [exact Hrun | exact Hdb].
Defined.

End PipelineFacts.

(* ===================================================================== *)
(** * The bar agent *)
(* ===================================================================== *)

Module AgentFacts.
Import Agent Ingest.
Local Open Scope string_scope.

Lemma hex_not_empty (b : string) : b <> "" -> Hex.hex b <> "".
Proof. by destruct b. Qed.

Section Facts.

Variable json_dumps : json -> string.
Variable parse_payload : string -> option IngestionPayload.
Variable hmac_sha256 : string -> string -> string.
Variable isoformat : Z -> string.
Variable utf8_decode : string -> option string.
Variable py_int : string -> option Z.

Local Abbreviation send_payload := (Agent.send_payload json_dumps hmac_sha256).
Local Abbreviation ingest_data :=
  (Ingest.ingest_data parse_payload hmac_sha256 isoformat utf8_decode).

(** The agent's table and the seeded store name the same venues with
    the same secrets. *)
Lemma lookup_seeded (vid secret : string) (txs : list DB.Transaction) :
  lookup vid VENUES = Some secret ->
  exists venue,
    DB.venue_by_id (DB.mk Sample.seeded_venues txs) vid = Some venue
    /\ DB.v_secret_key_hash venue = secret.
Proof.
  unfold DB.venue_by_id. cbn [DB.venues Sample.seeded_venues find DB.v_id
                               lookup VENUES].
  repeat (rewrite (String.eqb_sym _ vid);
          destruct (String.eqb vid _);
          [intros [= <-]; by eexists|]).
  done.
Qed.

(** A request the agent sends is never turned away for its signature or
    its venue by a store seeded by [init_db].  If the body it sends reads
    back as a payload for the same venue, [/ingest] appends the entry to
    the stream and answers [Queued] when the body decodes and the queue
    takes the entry; it answers 500, the stream untouched, when the body
    cannot be decoded or the queue is down. *)
Theorem agent_request_is_accepted (timestamp_str venue_id : string)
    (count : Z) (req : request) (p : IngestionPayload)
    (txs : list DB.Transaction) (queue : result string) (r : Redis.t) :
  send_payload timestamp_str venue_id count = Some req ->
  parse_payload (body req) = Some p ->
  Ingest.venue_id p = venue_id ->
  (forall key msg, hmac_sha256 key msg <> "") ->
  ingest_data (Some (x_signature req)) (body req)
    (DB.mk Sample.seeded_venues txs) queue r
  = match utf8_decode (body req), queue with
    | None, _ => (r, HTTPException 500 "Internal Server Error")
    | Some _, Raise _ =>
        (r, HTTPException 500 "Internal Server Error (Queue)")
    | Some raw, Ok id =>
        (Redis.xadd "stream:incoming_txns" id
           (Ingest.stream_data isoformat p raw) r, Queued)
    end.
Proof.
  intros Hsend Hp Hv Hmac.
  unfold Agent.send_payload in Hsend.
  destruct (lookup venue_id VENUES) as [secret|] eqn:Hl; [|done].
  injection Hsend as <-. cbn [body x_signature] in *.
  set (b := json_dumps _) in *.
  destruct (lookup_seeded venue_id secret txs Hl) as (venue & Hvenue & Hs).
  unfold Ingest.ingest_data.
  rewrite (proj2 (String.eqb_neq _ _)).
  2: { unfold sign, hexdigest. apply hex_not_empty, Hmac. }
  rewrite Hp, Hv, Hvenue, Hs.
  rewrite (IngestFacts.verify_sign hmac_sha256 b secret).
  destruct (utf8_decode b); [|done]. by destruct queue.
Qed.

(** For a venue that is not in its table the agent sends nothing. *)
Lemma send_payload_unknown (timestamp_str venue_id : string) (count : Z) :
  lookup venue_id VENUES = None ->
  send_payload timestamp_str venue_id count = None.
Proof. unfold Agent.send_payload. by intros ->. Qed.

Local Abbreviation parse_line := (Agent.parse_line py_int).

(** The agent reads back the line the simulator writes for a venue: the
    same timestamp, venue id and quantity, when the timestamp and the id
    hold no comma and the timestamp does not begin with white space. *)
Theorem parse_line_reads_csv_line (timestamp_iso venue_id : string)
    (quantity : Z) :
  ","%char ∉ list_ascii_of_string timestamp_iso ->
  ","%char ∉ list_ascii_of_string venue_id ->
  PyText.lstrip timestamp_iso = timestamp_iso ->
  py_int (PyText.str_of_int quantity) = Some quantity ->
  parse_line (Simulator.csv_line timestamp_iso venue_id quantity)
  = Ok (Some (timestamp_iso, venue_id, quantity)).
Proof.
  intros Hts Hvid Hstrip Hint.
  destruct (PyTextFacts.str_of_int_bytes quantity) as (l & c & Eq & Hc & Hl).
  set (T := list_ascii_of_string timestamp_iso) in *.
  set (V := list_ascii_of_string venue_id) in *.
  assert (HT : PyText.lstrip_bytes T = T).
  { unfold PyText.lstrip in Hstrip. fold T in Hstrip.
    apply (f_equal list_ascii_of_string) in Hstrip.
    by rewrite list_ascii_of_string_of_list_ascii in Hstrip. }
  assert (Eline : list_ascii_of_string
                    (Simulator.csv_line timestamp_iso venue_id quantity)
                  = (T ++ ","%char :: V ++ ","%char :: l
                     ++ [c; "010"%char])%list).
  { unfold Simulator.csv_line. rewrite !PyTextFacts.bytes_app, Eq. fold T V.
    simpl. by rewrite <- !app_assoc. }
  assert (Estrip : PyText.strip
                     (Simulator.csv_line timestamp_iso venue_id quantity)
                   = string_of_list_ascii
                       (T ++ ","%char :: V ++ ","%char :: l ++ [c])%list).
  { unfold PyText.strip. rewrite Eline. rewrite PyTextFacts.lstrip_bytes_comma by done.
    f_equal.
    replace (T ++ ","%char :: V ++ ","%char :: l ++ [c; "010"%char])%list
      with ((T ++ ","%char :: V ++ ","%char :: l)
            ++ [c; "010"%char])%list
      by (rewrite <- !app_assoc; simpl; by rewrite <- !app_assoc).
    rewrite PyTextFacts.rstrip_bytes_digit_newline by done.
    rewrite <- !app_assoc. simpl. by rewrite <- !app_assoc. }
  unfold Agent.parse_line. rewrite Estrip. unfold PyText.split.
  rewrite list_ascii_of_string_of_list_ascii.
  rewrite PyTextFacts.split_bytes_app by done. rewrite PyTextFacts.split_bytes_app by done.
  rewrite PyTextFacts.split_bytes_once.
  2: { intros Hin. apply elem_of_app in Hin as [Hin | Hin]; [done|].
       apply list_elem_of_singleton in Hin. subst c.
       unfold PyTextFacts.digit in Hc. vm_compute in Hc. destruct Hc as [H _].
       by apply H. }
  cbn [map]. unfold T, V. rewrite !string_of_list_ascii_of_string.
  rewrite <- Eq, string_of_list_ascii_of_string.
  unfold Agent.int_of. rewrite Hint. reflexivity.
Qed.

End Facts.

Import Sample Fixtures.

Lemma agent_request_is_accepted_witness :
  Ingest.ingest_data Fixtures.parse_payload mac Fixtures.isoformat
    Sample.utf8_decode
    (Some (Ingest.sign mac "secret_joe" body)) body
    (DB.mk seeded_venues []) (Ok entry) (Worker.rds idle)
  = (Redis.xadd "stream:incoming_txns" entry
       (Ingest.stream_data Fixtures.isoformat payload body)
       (Worker.rds idle),
     Ingest.Queued).
Proof.
  apply (agent_request_is_accepted Fixtures.json_dumps
           Fixtures.parse_payload mac Fixtures.isoformat Sample.utf8_decode
           nine_pm_iso joe 5
           (Agent.mkRequest body (Ingest.sign mac "secret_joe" body))
           payload [] (Ok entry) (Worker.rds idle)).
  - vm_compute. reflexivity.
  - vm_compute. reflexivity.
  - reflexivity.
  - discriminate.
Defined.

Lemma parse_line_reads_csv_line_witness :
  Agent.parse_line Fixtures.py_int
    (Simulator.csv_line nine_pm_iso joe 5)
  = Ok (Some (nine_pm_iso, joe, 5%Z)).
Proof.
  apply (parse_line_reads_csv_line Fixtures.py_int).
  - apply (bool_decide_unpack _). vm_compute. reflexivity.
  - apply (bool_decide_unpack _). vm_compute. reflexivity.
  - vm_compute. reflexivity.
  - vm_compute. reflexivity.
Defined.

End AgentFacts.

(* ===================================================================== *)
(** * Seeding and accounts *)
(* ===================================================================== *)

Module InitDbFacts.
Import InitDb.
Local Open Scope string_scope.

(** Every statement goes through. *)
Definition all_through : call -> option exn := fun _ => None.

(** The coordinates seeded are the doubles of the literals of the
    source. *)
Lemma coordinates_are_the_literals sha256 :
  forallb (fun vq => nearest (location_lat (fst vq)) (fst (snd vq))
                     && nearest (location_lon (fst vq)) (snd (snd vq)))
    (combine (venues_list sha256)
       [(429849 # 10000, - (812453 # 10000))%Q;
        (429855 # 10000, - (812460 # 10000))%Q;
        (429830 # 10000, - (812500 # 10000))%Q;
        (429860 # 10000, - (812480 # 10000))%Q;
        (429840 # 10000, - (812470 # 10000))%Q])
  = true.
Proof. vm_compute. reflexivity. Qed.

Section Facts.

Variable sha256 : string -> string.
Variable get_password_hash : string -> string.

Local Abbreviation init_db := (InitDb.init_db sha256 get_password_hash).
Local Abbreviation venues_list := (InitDb.venues_list sha256).

Lemma seeded_columns :
  map pipeline_columns venues_list = Sample.seeded_venues.
Proof. reflexivity. Qed.

(** [init_db] seeds the five venues together or not at all, and only
    into an empty table; whatever fails, the users table gains at most
    the administrator; and a run that meets no failure leaves a store on
    which a second run changes nothing. *)
Theorem init_db_seeds_once (fl : call -> option exn) (s : t) :
  let s' := init_db fl s in
  (venues s' = venues s \/ (venues s = [] /\ venues s' = venues_list))
  /\ (users s' = users s
      \/ users s' = (users s ++ [admin get_password_hash])%list)
  /\ init_db all_through (init_db all_through s) = init_db all_through s
  /\ (venues s = [] -> venues (init_db all_through s) = venues_list)
  /\ map pipeline_columns venues_list = Sample.seeded_venues.
Proof.
  assert (Hempty : forall vs : list Venue,
            (0 <? length vs)%nat = false -> vs = []).
  { intros [|v vs] H; [done|]. apply Nat.ltb_ge in H. simpl in H. lia. }
  cbn zeta. split; [|split; [|split; [|split; [|reflexivity]]]].
  - unfold InitDb.init_db.
    destruct (fl CreateIndex); [by left|].
    destruct (fl QueryAdmin); [by left|].
    destruct (existsb _ (users s)); simpl.
    + destruct (fl CountVenues); [by left|].
      destruct (0 <? _)%nat eqn:Hlen; [by left|].
      destruct (fl CommitVenues); [by left|]. right.
      simpl. by rewrite (Hempty _ Hlen).
    + destruct (fl CommitAdmin); [by left|]. simpl.
      destruct (fl CountVenues); [by left|]. simpl.
      destruct (0 <? _)%nat eqn:Hlen; [by left|].
      destruct (fl CommitVenues); [by left|]. right.
      simpl. by rewrite (Hempty _ Hlen).
  - unfold InitDb.init_db.
    destruct (fl CreateIndex); [by left|].
    destruct (fl QueryAdmin); [by left|].
    destruct (existsb _ (users s)); simpl.
    + destruct (fl CountVenues); [by left|].
      destruct (0 <? _)%nat; [by left|].
      destruct (fl CommitVenues); by left.
    + destruct (fl CommitAdmin); [by left|]. simpl.
      destruct (fl CountVenues); [by right|]. simpl.
      destruct (0 <? _)%nat; [by right|].
      destruct (fl CommitVenues); by right.
  - unfold InitDb.init_db, all_through.
    destruct (existsb _ (users s)) eqn:Hadmin; cbn [users venues].
    + destruct (0 <? length (venues s))%nat eqn:Hlen; cbn [users venues];
        rewrite Hadmin; cbn [users venues].
      * by rewrite Hlen.
      * rewrite (Hempty _ Hlen). reflexivity.
    + assert (Hnow : existsb
                (fun u => String.eqb (email u) "admin@example.com")
                (users s ++ [admin get_password_hash]) = true).
      { rewrite existsb_app. simpl. by rewrite orb_true_r. }
      destruct (0 <? length (venues s))%nat eqn:Hlen; cbn [users venues];
        rewrite Hnow; cbn [users venues].
      * by rewrite Hlen.
      * rewrite (Hempty _ Hlen). reflexivity.
  - intros Hv. unfold InitDb.init_db, all_through.
    destruct (existsb _ (users s)); cbn [users venues]; by rewrite Hv.
Qed.

End Facts.
End InitDbFacts.

Module AccountsFacts.
Import InitDb Accounts.
Local Open Scope string_scope.

Section Facts.

Variable get_password_hash : string -> string.

Local Abbreviation register := (Accounts.register get_password_hash).

(** The registrations of a list of requests, one after the other. *)
Fixpoint registrations (reqs : list (string * string))
    (users : list User) : list User :=
  match reqs with
  | [] => users
  | (e, p) :: rest => registrations rest (fst (register e p users))
  end.

Lemma register_unique (e p : string) (users : list User) :
  NoDup (map email users) ->
  NoDup (map email (fst (register e p users))).
Proof.
  intros Hnd. unfold Accounts.register.
  destruct (find _ users) as [u|] eqn:Hf; [done|]. simpl.
  rewrite map_app. simpl. apply NoDup_app. split; [done|].
  split; [|apply NoDup_singleton].
  intros x Hx ->%list_elem_of_singleton.
  apply list_elem_of_fmap in Hx as (u & Hu & Hin).
  apply list_elem_of_In in Hin.
  pose proof (find_none _ _ Hf u Hin) as Hne. simpl in Hne.
  rewrite Hu, String.eqb_refl in Hne. done.
Qed.

(** No sequence of registrations gives two users one email; an email
    that is taken is answered 400 and the table stays as it is; and
    nobody registered is ever removed. *)
Theorem register_keeps_emails_unique (reqs : list (string * string))
    (users : list User) :
  NoDup (map email users) ->
  NoDup (map email (registrations reqs users))
  /\ (forall u, u ∈ users -> u ∈ registrations reqs users)
  /\ (forall e p,
        e ∈ map email users ->
        register e p users
        = (users, HTTPException 400 "Email already registered")).
Proof.
  intros Hnd. split; [|split].
  - revert users Hnd. induction reqs as [|[e p] rest IH]; intros users Hnd.
    + done.
    + simpl. apply IH. by apply register_unique.
  - revert users Hnd. induction reqs as [|[e p] rest IH]; intros users Hnd u Hu.
    + done.
    + simpl. apply IH; [by apply register_unique|].
      unfold Accounts.register. destruct (find _ users); [done|].
      simpl. apply elem_of_app. by left.
  - intros e p He. unfold Accounts.register.
    destruct (find _ users) as [u|] eqn:Hf; [done|].
    apply list_elem_of_fmap in He as (u & -> & Hin).
    apply list_elem_of_In in Hin.
    pose proof (find_none _ _ Hf u Hin) as Hne. simpl in Hne.
    by rewrite String.eqb_refl in Hne.
Qed.

End Facts.

Lemma register_keeps_emails_unique_witness :
  NoDup (map email
           (registrations Fixtures.password_hash
              [("ann@example.com", "pw"); ("ann@example.com", "other")] [])).
Proof.
  apply (register_keeps_emails_unique Fixtures.password_hash
           [("ann@example.com", "pw"); ("ann@example.com", "other")] []).
  constructor.
Defined.

End AccountsFacts.
